(** * Command execution and run orchestration of repo_requirements_analyzer

    A shallow embedding of [main.py] and [code_agent.py]: the audit logger,
    the approval gate, the two unsafe-command filters, the process runner,
    the three shell entry points, the retrying run driver and the run
    summary written in the [finally] block of the two run functions.

    Conventions of the embedding.
    - A Python [str] is a [string] whose characters are the code points
      below 256; [len] is [String.length].
    - A Python [int] is [Z]; the [float] seconds of the timeouts and of the
      backoff are exact rationals [Q] (the source only divides by 1000 and
      multiplies by powers of two).
    - A coroutine is a state-passing function over the [world] it can
      observe or change; a raised exception is the [Raise] result, and the
      effects made before a raise stay in the world.
    - Every interaction with the outside (console, process control, sleep,
      agent call) is appended to the [trace] of the world, in program order,
      and so are the two decisions the ordering claims speak of: the verdict
      of a deny-list check ([Checked]) and the verdict of the approval gate
      ([Gate]). File writes are appended to [disk].
    - A [write_text] of a [try] suite can fail with an OSError
      ([write_error]); the JSON lines and documents of the logger and of
      the [finally] suites are taken to be written. *)

From Stdlib Require Import String Ascii List ZArith QArith Qround Bool Lia.
From Stdlib Require Import DecimalString.
From Equations Require Import Equations.
Import ListNotations.

Set Warnings "-register-all".

Local Open Scope string_scope.
Local Open Scope Z_scope.

(** ** Python strings *)

Module PyStr.

Definition code (c : ascii) : Z := Z.of_nat (nat_of_ascii c).

Definition between (lo hi : Z) (c : ascii) : bool :=
  (lo <=? code c) && (code c <=? hi).

(** [str.isspace] on one code point below 256. *)
Definition isspace (c : ascii) : bool :=
  between 9 13 c || between 28 32 c || (code c =? 133) || (code c =? 160).

(** The class [\w] of [re] on a [str] pattern: alphanumeric or underscore. *)
Definition isword (c : ascii) : bool :=
  between 48 57 c || between 65 90 c || (code c =? 95) || between 97 122 c
  || (code c =? 170) || between 178 179 c || (code c =? 181)
  || between 185 186 c || between 188 190 c
  || between 192 214 c || between 216 246 c || between 248 255 c.

Definition lower_char (c : ascii) : ascii :=
  if between 65 90 c || between 192 214 c || between 216 222 c
  then ascii_of_nat (nat_of_ascii c + 32) else c.

Fixpoint lower (s : string) : string :=
  match s with
  | EmptyString => EmptyString
  | String c s' => String (lower_char c) (lower s')
  end.

Fixpoint lstrip (s : string) : string :=
  match s with
  | EmptyString => EmptyString
  | String c s' => if isspace c then lstrip s' else s
  end.

Fixpoint rstrip (s : string) : string :=
  match s with
  | EmptyString => EmptyString
  | String c s' =>
      match rstrip s' with
      | EmptyString => if isspace c then EmptyString else String c EmptyString
      | r => String c r
      end
  end.

Definition strip (s : string) : string := rstrip (lstrip s).

(** Truth value of a [str]: non-empty. *)
Definition truthy (s : string) : bool :=
  match s with EmptyString => false | _ => true end.

(** [a or b] on strings. *)
Definition or_else (a b : string) : string := if truthy a then a else b.

Definition len (s : string) : Z := Z.of_nat (String.length s).

(** [text[:n]] for [0 <= n]. *)
Definition take (n : Z) (s : string) : string := substring 0 (Z.to_nat n) s.

(** [str(n)] of an [int]. *)
Definition of_int (n : Z) : string := NilZero.string_of_int (Z.to_int n).

(** [str(x)] of an [int | None]. *)
Definition of_opt_int (x : option Z) : string :=
  match x with Some n => of_int n | None => "None" end.

Definition nl : string := String (ascii_of_nat 10) EmptyString.

(** ["\n".join(parts)] *)
Definition join_lines (parts : list string) : string := String.concat nl parts.

Definition is_prefix (p s : string) : bool := String.prefix p s.

Fixpoint drop (n : nat) (s : string) : string :=
  match n, s with
  | O, _ => s
  | S n', String _ s' => drop n' s'
  | S _, EmptyString => EmptyString
  end.

Fixpoint last_char (prev : option ascii) (s : string) : option ascii :=
  match s with
  | EmptyString => prev
  | String c s' => last_char (Some c) s'
  end.

End PyStr.

(** ** The fragment of [re] used by the two deny-lists *)

Module Re.

Inductive regex : Type :=
| Lit (s : string)          (* literal text *)
| Space                     (* \s *)
| Spaces0                   (* \s* *)
| Spaces1                   (* \s+ *)
| Bol                       (* ^ (no MULTILINE) *)
| WordB                     (* \b *)
| Seq (r1 r2 : regex)
| Alt (r1 r2 : regex).

Definition is_word_opt (c : option ascii) : bool :=
  match c with Some c => PyStr.isword c | None => false end.

Definition next_char (s : string) : option ascii :=
  match s with String c _ => Some c | EmptyString => None end.

(** Zero or more whitespace characters, then the continuation. *)
Fixpoint spaces0 (prev : option ascii) (s : string)
         (k : option ascii -> string -> bool) : bool :=
  k prev s ||
  match s with
  | String c s' => PyStr.isspace c && spaces0 (Some c) s' k
  | EmptyString => false
  end.

(** [matches r prev s k]: [r] matches a prefix of [s], the character
    before [s] being [prev], and [k] accepts what follows. *)
Fixpoint matches (r : regex) (prev : option ascii) (s : string)
         (k : option ascii -> string -> bool) : bool :=
  match r with
  | Lit l =>
      PyStr.is_prefix l s
      && k (PyStr.last_char prev l) (PyStr.drop (String.length l) s)
  | Space =>
      match s with
      | String c s' => PyStr.isspace c && k (Some c) s'
      | EmptyString => false
      end
  | Spaces0 => spaces0 prev s k
  | Spaces1 =>
      match s with
      | String c s' => PyStr.isspace c && spaces0 (Some c) s' k
      | EmptyString => false
      end
  | Bol => match prev with None => k prev s | Some _ => false end
  | WordB =>
      xorb (is_word_opt prev) (is_word_opt (next_char s)) && k prev s
  | Seq r1 r2 => matches r1 prev s (fun p s' => matches r2 p s' k)
  | Alt r1 r2 => matches r1 prev s k || matches r2 prev s k
  end.

Fixpoint search_from (r : regex) (prev : option ascii) (s : string) : bool :=
  matches r prev s (fun _ _ => true) ||
  match s with
  | String c s' => search_from r (Some c) s'
  | EmptyString => false
  end.

(** [pattern.search(s) is not None] *)
Definition search (r : regex) (s : string) : bool := search_from r None s.

Fixpoint alts (rs : list regex) : regex :=
  match rs with
  | [] => Lit ""
  | [r] => r
  | r :: rs' => Alt r (alts rs')
  end.

Fixpoint seqs (rs : list regex) : regex :=
  match rs with
  | [] => Lit ""
  | [r] => r
  | r :: rs' => Seq r (seqs rs')
  end.

End Re.

(** [unsafe] of [code_agent.py]:
    (^|\s)(rm\s+-rf\s+/|mkfs\b|shutdown\b|reboot\b|dd\s+if=|git\s+reset\s+--hard\b|git\s+clean\s+-fdx\b) *)
Definition unsafe : Re.regex :=
  Re.Seq (Re.Alt Re.Bol Re.Space)
    (Re.alts
       [ Re.seqs [Re.Lit "rm"; Re.Spaces1; Re.Lit "-rf"; Re.Spaces1; Re.Lit "/"];
         Re.seqs [Re.Lit "mkfs"; Re.WordB];
         Re.seqs [Re.Lit "shutdown"; Re.WordB];
         Re.seqs [Re.Lit "reboot"; Re.WordB];
         Re.seqs [Re.Lit "dd"; Re.Spaces1; Re.Lit "if="];
         Re.seqs [Re.Lit "git"; Re.Spaces1; Re.Lit "reset"; Re.Spaces1;
                  Re.Lit "--hard"; Re.WordB];
         Re.seqs [Re.Lit "git"; Re.Spaces1; Re.Lit "clean"; Re.Spaces1;
                  Re.Lit "-fdx"; Re.WordB] ]).

(** [disallowed] of [main.py]:
    ^\s*(rm|mv|dd|mkfs|shutdown|reboot|git\s+reset|git\s+clean)\b *)
Definition disallowed : Re.regex :=
  Re.seqs
    [ Re.Bol; Re.Spaces0;
      Re.alts
        [ Re.Lit "rm"; Re.Lit "mv"; Re.Lit "dd"; Re.Lit "mkfs";
          Re.Lit "shutdown"; Re.Lit "reboot";
          Re.seqs [Re.Lit "git"; Re.Spaces1; Re.Lit "reset"];
          Re.seqs [Re.Lit "git"; Re.Spaces1; Re.Lit "clean"] ];
      Re.WordB ].

(** ** [_truncate_text] *)

Definition truncation_marker (dropped : Z) : string :=
  (PyStr.nl ++ "... [truncated " ++ PyStr.of_int dropped ++ " chars]")%string.

Definition _truncate_text (text : string) (max_chars : Z) : string :=
  if max_chars <=? 0 then ""
  else if PyStr.len text <=? max_chars then text
  else (PyStr.take max_chars text
        ++ truncation_marker (PyStr.len text - max_chars))%string.

(** ** Values, exceptions and the world *)

(** Python dictionaries that end up as JSON: the audit events, the
    diagnostics summary and the run summary. *)
Inductive json : Type :=
| JNull
| JBool (b : bool)
| JInt (n : Z)
| JStr (s : string)
| JList (items : list json)
| JObj (fields : list (string * json)).

Fixpoint assoc (key : string) (fields : list (string * json)) : option json :=
  match fields with
  | [] => None
  | (k, v) :: rest => if String.eqb k key then Some v else assoc key rest
  end.

(** [d.get(key)] *)
Definition get (key : string) (d : json) : json :=
  match d with
  | JObj fields => match assoc key fields with Some v => v | None => JNull end
  | _ => JNull
  end.

Definition truthy (v : json) : bool :=
  match v with
  | JNull => false
  | JBool b => b
  | JInt n => negb (n =? 0)
  | JStr s => PyStr.truthy s
  | JList l => match l with [] => false | _ => true end
  | JObj l => match l with [] => false | _ => true end
  end.

Definition JOptInt (x : option Z) : json :=
  match x with Some n => JInt n | None => JNull end.

Inductive exn : Type :=
| RuntimeError (msg : string)
| OSError (msg : string)              (* the process could not be launched *)
| EOFError                            (* [input()] at end of input *)
| FileNotFoundError (msg : string)
| ValueError (msg : string)
| RateLimitError (msg : string)
| APIConnectionError (msg : string)
| AgentError (msg : string).          (* any other failure of the agent runtime *)

(** [str(exc)] *)
Definition exn_message (e : exn) : string :=
  match e with
  | RuntimeError m | OSError m | FileNotFoundError m | ValueError m
  | RateLimitError m | APIConnectionError m | AgentError m => m
  | EOFError => "EOF when reading a line"
  end.

(** A launched process, as the runner can observe it. *)
Record running : Type := {
  exits_after : option Q;     (* seconds until it exits by itself, if ever *)
  returncode : Z;
  stdout_bytes : string;      (* what communicate() yields on completion *)
  stderr_bytes : string;
  killed_stdout : string;     (* what communicate() yields after kill() *)
  killed_stderr : string
}.

Inductive process : Type :=
| SpawnFails (msg : string)
| Starts (p : running).

Inductive action : Type :=
| Printed (text : string)
| Input (prompt : string) (answer : option string)
| Gate (commands : list string) (granted : bool)
| Checked (command : string) (hit : bool)
| Spawn (args : list string) (cwd : string) (started : bool)
| Kill (args : list string)
| Drain (args : list string)
| AgentRun (input_text : string) (max_turns : Z)
| PrintRetry (exception_class : string) (sleep_s : Q)
| Sleep (seconds : Q)
| ConnectServers (names : list string)
| CloseServers.

Inductive fs_write : Type :=
| AppendJsonl (path : string) (line : json)
| WriteJson (path : string) (doc : json)
| WriteText (path : string) (text : string).

Record world : Type := {
  os_name : string;                          (* os.name *)
  pwsh_on_path : bool;                       (* shutil.which("pwsh") *)
  SHELL_AUTO_APPROVE : option string;        (* os.environ.get(...) *)
  utcnow : string;                           (* the clock, ISO seconds *)
  console_in : list string;                  (* lines still to be typed *)
  host : list string -> process;             (* what each argv does here *)
  runner_run : nat -> string + exn;          (* outcome of the n-th Runner.run *)
  agent_runs : nat;                          (* Runner.run calls so far *)
  mcp_installed : bool;                      (* both server scripts exist *)
  mcp_connects : list string;                (* servers that start when asked *)
  files : string -> option string;           (* text other programs leave at a path *)
  write_error : string -> option string;     (* the OSError of writing to a path *)
  log_path : string;                         (* logger.log_path *)
  max_output_chars : Z;                      (* logger.max_output_chars *)
  events : list json;                        (* logger.events *)
  disk : list fs_write;                      (* file writes, oldest first *)
  trace : list action                        (* interactions, oldest first *)
}.

Definition with_console_in (l : list string) (w : world) : world :=
  {| os_name := os_name w; pwsh_on_path := pwsh_on_path w;
     SHELL_AUTO_APPROVE := SHELL_AUTO_APPROVE w; utcnow := utcnow w;
     console_in := l; host := host w; runner_run := runner_run w;
     agent_runs := agent_runs w; mcp_installed := mcp_installed w;
     mcp_connects := mcp_connects w; files := files w;
     write_error := write_error w; log_path := log_path w;
     max_output_chars := max_output_chars w; events := events w;
     disk := disk w; trace := trace w |}.

Definition with_agent_runs (n : nat) (w : world) : world :=
  {| os_name := os_name w; pwsh_on_path := pwsh_on_path w;
     SHELL_AUTO_APPROVE := SHELL_AUTO_APPROVE w; utcnow := utcnow w;
     console_in := console_in w; host := host w; runner_run := runner_run w;
     agent_runs := n; mcp_installed := mcp_installed w;
     mcp_connects := mcp_connects w; files := files w;
     write_error := write_error w; log_path := log_path w;
     max_output_chars := max_output_chars w; events := events w;
     disk := disk w; trace := trace w |}.

Definition with_events (l : list json) (w : world) : world :=
  {| os_name := os_name w; pwsh_on_path := pwsh_on_path w;
     SHELL_AUTO_APPROVE := SHELL_AUTO_APPROVE w; utcnow := utcnow w;
     console_in := console_in w; host := host w; runner_run := runner_run w;
     agent_runs := agent_runs w; mcp_installed := mcp_installed w;
     mcp_connects := mcp_connects w; files := files w;
     write_error := write_error w; log_path := log_path w;
     max_output_chars := max_output_chars w; events := l;
     disk := disk w; trace := trace w |}.

Definition with_disk (l : list fs_write) (w : world) : world :=
  {| os_name := os_name w; pwsh_on_path := pwsh_on_path w;
     SHELL_AUTO_APPROVE := SHELL_AUTO_APPROVE w; utcnow := utcnow w;
     console_in := console_in w; host := host w; runner_run := runner_run w;
     agent_runs := agent_runs w; mcp_installed := mcp_installed w;
     mcp_connects := mcp_connects w; files := files w;
     write_error := write_error w; log_path := log_path w;
     max_output_chars := max_output_chars w; events := events w;
     disk := l; trace := trace w |}.

Definition with_trace (l : list action) (w : world) : world :=
  {| os_name := os_name w; pwsh_on_path := pwsh_on_path w;
     SHELL_AUTO_APPROVE := SHELL_AUTO_APPROVE w; utcnow := utcnow w;
     console_in := console_in w; host := host w; runner_run := runner_run w;
     agent_runs := agent_runs w; mcp_installed := mcp_installed w;
     mcp_connects := mcp_connects w; files := files w;
     write_error := write_error w; log_path := log_path w;
     max_output_chars := max_output_chars w; events := events w;
     disk := disk w; trace := l |}.

(** ** Coroutines: state and exceptions *)

Inductive result (A : Type) : Type :=
| Ok (a : A)
| Raise (e : exn).

Arguments Ok {A} a.
Arguments Raise {A} e.

Definition M (S A : Type) : Type := S -> result A * S.

Definition ret {S A : Type} (a : A) : M S A := fun s => (Ok a, s).

Definition bind {S A B : Type} (m : M S A) (f : A -> M S B) : M S B :=
  fun s =>
    match m s with
    | (Ok a, s') => f a s'
    | (Raise e, s') => (Raise e, s')
    end.

Definition raise {S A : Type} (e : exn) : M S A := fun s => (Raise e, s).

Definition gets {S A : Type} (f : S -> A) : M S A := fun s => (Ok (f s), s).

Definition modify {S : Type} (f : S -> S) : M S unit := fun s => (Ok tt, f s).

Declare Scope py_scope.
Delimit Scope py_scope with py.
Notation "x <- c1 ;; c2" := (bind c1 (fun x => c2))
  (at level 61, c1 at next level, right associativity) : py_scope.
Notation "' pat <- c1 ;; c2" := (bind c1 (fun x => match x with pat => c2 end))
  (at level 61, pat pattern, c1 at next level, right associativity) : py_scope.
Notation "c1 ;; c2" := (bind c1 (fun _ => c2))
  (at level 61, right associativity) : py_scope.
Local Open Scope py_scope.

Definition emit (a : action) : M world unit :=
  modify (fun w => with_trace (trace w ++ [a])%list w).

Definition write (f : fs_write) : M world unit :=
  modify (fun w => with_disk (disk w ++ [f]) w).

Definition print (text : string) : M world unit := emit (Printed text).

(** [input(prompt)]: the next console line, or EOFError at end of input. *)
Definition input (prompt : string) : M world string :=
  fun w =>
    match console_in w with
    | [] => (Raise EOFError, with_trace (trace w ++ [Input prompt None]) w)
    | line :: rest =>
        (Ok line,
         with_trace (trace w ++ [Input prompt (Some line)])
           (with_console_in rest w))
    end.

(** ** main.py: platform, audit log, approval *)

Definition _is_windows (w : world) : bool := String.eqb (os_name w) "nt".

Definition _shell_invocation (w : world) (command : string) : list string :=
  if _is_windows w then
    if pwsh_on_path w then ["pwsh"; "-NoProfile"; "-Command"; command]
    else ["powershell"; "-NoProfile"; "-Command"; command]
  else ["/bin/sh"; "-lc"; command].

Definition _append_jsonl (path : string) (payload : json) : M world unit :=
  write (AppendJsonl path payload).

(** The dictionary built by [ShellCommandLogger.log]. *)
Definition command_event (now : string) (budget : Z)
    (source cwd command : string) (timeout_ms : Z)
    (timed_out : bool) (exit_code : option Z) (duration_ms : Z)
    (stdout stderr : string) (blocked : bool) (block_reason : string) : json :=
  JObj [ ("timestamp_utc", JStr (now ++ "Z")%string);
         ("source", JStr source);
         ("cwd", JStr cwd);
         ("command", JStr command);
         ("timeout_ms", JInt timeout_ms);
         ("timed_out", JBool timed_out);
         ("exit_code", JOptInt exit_code);
         ("duration_ms", JInt duration_ms);
         ("blocked", JBool blocked);
         ("block_reason", JStr block_reason);
         ("stdout", JStr (_truncate_text stdout budget));
         ("stderr", JStr (_truncate_text stderr budget)) ].

(** [ShellCommandLogger.log] *)
Definition log (source cwd command : string) (timeout_ms : Z)
    (timed_out : bool) (exit_code : option Z) (duration_ms : Z)
    (stdout stderr : string) (blocked : bool) (block_reason : string)
  : M world unit :=
  now <- gets utcnow ;;
  budget <- gets max_output_chars ;;
  let event :=
    command_event now budget source cwd command timeout_ms timed_out
      exit_code duration_ms stdout stderr blocked block_reason in
  modify (fun w => with_events (events w ++ [event]) w) ;;
  path <- gets log_path ;;
  _append_jsonl path event.

Definition count (p : json -> bool) (l : list json) : Z :=
  Z.of_nat (List.length (filter p l)).

Definition is_int (v : json) : bool :=
  match v with JInt _ | JBool _ => true | _ => false end.

Definition json_nonzero (v : json) : bool :=
  match v with JInt n => negb (n =? 0) | JBool b => b | _ => true end.

(** [ShellCommandLogger.write_summary] *)
Definition write_summary (run_dir : string) : M world string :=
  let summary_path := (run_dir ++ "/command-diagnostics.json")%string in
  evs <- gets events ;;
  let total := Z.of_nat (List.length evs) in
  let timed_out := count (fun e => truthy (get "timed_out" e)) evs in
  let blocked := count (fun e => truthy (get "blocked" e)) evs in
  let failures :=
    count (fun e => negb (truthy (get "blocked" e))
                    && negb (truthy (get "timed_out" e))
                    && is_int (get "exit_code" e)
                    && json_nonzero (get "exit_code" e)) evs in
  now <- gets utcnow ;;
  path <- gets log_path ;;
  let summary :=
    JObj [ ("generated_at_utc", JStr (now ++ "Z")%string);
           ("log_path", JStr path);
           ("total_commands", JInt total);
           ("failed_commands", JInt failures);
           ("timed_out_commands", JInt timed_out);
           ("blocked_commands", JInt blocked) ] in
  write (WriteJson summary_path summary) ;;
  ret summary_path.

Fixpoint print_all (lines : list string) : M world unit :=
  match lines with
  | [] => ret tt
  | l :: rest => print l ;; print_all rest
  end.

Definition said_yes (response : string) : bool :=
  String.eqb response "y" || String.eqb response "yes".

(** [os.environ.get(name) == value] *)
Definition env_is (flag : option string) (value : string) : bool :=
  match flag with
  | Some v => String.eqb v value
  | None => false
  end.

Definition require_approval (commands : list string) : M world unit :=
  flag <- gets SHELL_AUTO_APPROVE ;;
  if env_is flag "1" then emit (Gate commands true)
  else
    print "Shell command approval required:" ;;
    print_all (map (fun command => ("  " ++ command)%string) commands) ;;
    line <- input "Proceed? [y/N] " ;;
    let response := PyStr.lower (PyStr.strip line) in
    if said_yes response then emit (Gate commands true)
    else
      emit (Gate commands false) ;;
      raise (RuntimeError "Shell command execution rejected by user.").

(** ** Processes *)

(** [max(1, x)] on seconds. *)
Definition max1 (x : Q) : Q := if Qle_bool x 1 then 1%Q else x.

(** [int(x)]: truncation towards zero. *)
Definition int_of (x : Q) : Z := Z.quot (Qnum x) (Z.pos (Qden x)).

(** [timeout_ms / 1000] *)
Definition seconds_of_ms (timeout_ms : Z) : Q := Qmake timeout_ms 1000.

(** A process handle: the argv it was started with and what it does. *)
Record Process : Type := { argv : list string; behaviour : running }.

(** [asyncio.create_subprocess_exec] on an argv and a working directory. *)
Definition create_subprocess_exec (args : list string) (cwd : string)
  : M world Process :=
  h <- gets host ;;
  match h args with
  | SpawnFails msg => emit (Spawn args cwd false) ;; raise (OSError msg)
  | Starts p => emit (Spawn args cwd true) ;;
                ret {| argv := args; behaviour := p |}
  end.

(** Does the process exit by itself within [timeout_s] seconds? *)
Definition finishes_within (p : running) (timeout_s : Q) : bool :=
  match exits_after p with
  | Some d => Qle_bool d timeout_s
  | None => false
  end.

(** [asyncio.wait_for(proc.communicate(), timeout=timeout_s)]:
    the two outputs, or [None] for asyncio.TimeoutError. *)
Definition wait_for_communicate (proc : Process) (timeout_s : Q)
  : M world (option (string * string)) :=
  if finishes_within (behaviour proc) timeout_s
  then ret (Some (stdout_bytes (behaviour proc), stderr_bytes (behaviour proc)))
  else ret None.

Definition kill (proc : Process) : M world unit := emit (Kill (argv proc)).

(** [proc.communicate()] after a kill: what this second call yields. The
    first call was cancelled by the timeout, and how much of the output of
    the process is left for the second one is the affair of the runtime:
    [killed_stdout] and [killed_stderr] are not tied to what the process
    wrote. *)
Definition communicate (proc : Process) : M world (string * string) :=
  emit (Drain (argv proc)) ;;
  ret (killed_stdout (behaviour proc), killed_stderr (behaviour proc)).

(** [int((time.perf_counter() - started) * 1000)], spawning, killing and
    draining taking no time: the process ran until it exited or until the
    wait gave up. *)
Definition elapsed_ms (proc : Process) (timeout_s : Q) : Z :=
  match exits_after (behaviour proc) with
  | Some d => if Qle_bool d timeout_s then int_of (d * 1000)
              else int_of (timeout_s * 1000)
  | None => int_of (timeout_s * 1000)
  end.

(** ** code_agent.py: the runner and its shell tool *)

Definition _run_exec (args : list string) (cwd : string) (timeout_ms : Z)
    (stdin_text : option string)
  : M world (option Z * string * string * bool * Z) :=
  proc <- create_subprocess_exec args cwd ;;
  let timeout_s := max1 (seconds_of_ms timeout_ms) in
  waited <- wait_for_communicate proc timeout_s ;;
  '(stdout_b, stderr_b, timed_out) <-
    match waited with
    | Some (o, e) => ret (o, e, false)
    | None =>
        kill proc ;;
        '(o, e) <- communicate proc ;;
        ret (o, e, true)
    end ;;
  let duration_ms := elapsed_ms proc timeout_s in
  ret (if timed_out then None else Some (returncode (behaviour proc)),
       stdout_b, stderr_b, timed_out, duration_ms).

(** The first lines of both shell tools: the list of commands to run. *)
Definition command_list (command : option string)
    (commands : option (list string)) : list string :=
  (match command with
   | Some c => if PyStr.truthy c && PyStr.truthy (PyStr.strip c)
               then [PyStr.strip c] else []
   | None => []
   end)
  ++
  (match commands with
   | Some cs =>
       map PyStr.strip
         (filter (fun c => PyStr.truthy c && PyStr.truthy (PyStr.strip c)) cs)
   | None => []
   end).

(** [pattern.search(command_text)], recorded in the trace. *)
Definition check (pattern : Re.regex) (command_text : string) : M world bool :=
  let hit := Re.search pattern command_text in
  emit (Checked command_text hit) ;; ret hit.

(** The deny-list loop of a shell tool: the reply of the first command that
    matches, if any. *)
Fixpoint deny_loop (pattern : Re.regex) (source cwd : string) (timeout_ms : Z)
    (cmds : list string) : M world (option string) :=
  match cmds with
  | [] => ret None
  | command_text :: rest =>
      hit <- check pattern command_text ;;
      if hit then
        log source cwd command_text timeout_ms false None 0 "" ""
            true "unsafe_command_pattern" ;;
        ret (Some ("Blocked unsafe command: " ++ command_text)%string)
      else deny_loop pattern source cwd timeout_ms rest
  end.

(** The execution loop of [shell] in [code_agent.py]. *)
Fixpoint code_exec_loop (cwd : string) (timeout_ms : Z) (cmds : list string)
    (output_parts : list string) : M world (list string) :=
  match cmds with
  | [] => ret output_parts
  | command_text :: rest =>
      let output_parts := (output_parts ++ [("$ " ++ command_text)%string])%list in
      w <- gets (fun w => w) ;;
      '(exit_code, stdout, stderr, timed_out, duration_ms) <-
        _run_exec (_shell_invocation w command_text) cwd timeout_ms None ;;
      log "code_shell_function" cwd command_text timeout_ms timed_out
          exit_code duration_ms stdout stderr false "" ;;
      if timed_out then
        ret (output_parts
             ++ [("Command timed out after "
                  ++ PyStr.of_int (Z.max 1 (int_of (seconds_of_ms timeout_ms)))
                  ++ "s")%string;
                 "[exit_code=124]"])%list
      else
        let merged := PyStr.strip (stdout ++ stderr) in
        code_exec_loop cwd timeout_ms rest
          (output_parts
           ++ [PyStr.or_else merged "(no output)";
               ("[exit_code=" ++ PyStr.of_opt_int exit_code ++ "]")%string])%list
  end.

(** [shell] of [build_code_shell_function_tool(cwd, logger)]. *)
Definition build_code_shell_function_tool (cwd : string)
    (command : option string) (commands : option (list string))
    (timeout_ms : Z) : M world string :=
  let cmds := command_list command commands in
  match cmds with
  | [] => ret "No command provided."
  | _ =>
      blocked <- deny_loop unsafe "code_shell_function" cwd timeout_ms cmds ;;
      match blocked with
      | Some reply => ret reply
      | None =>
          require_approval cmds ;;
          output_parts <- code_exec_loop cwd timeout_ms cmds [] ;;
          ret (PyStr.join_lines output_parts)
      end
  end.

(** ** main.py: the chat shell tool and the ShellTool executor *)

(** The execution loop of [shell] in [main.py]. *)
Fixpoint chat_exec_loop (cwd : string) (timeout_ms : Z) (timeout_s : Q)
    (cmds : list string) (output_parts : list string) : M world (list string) :=
  match cmds with
  | [] => ret output_parts
  | command_text :: rest =>
      let output_parts := (output_parts ++ [("$ " ++ command_text)%string])%list in
      w <- gets (fun w => w) ;;
      proc <- create_subprocess_exec (_shell_invocation w command_text) cwd ;;
      waited <- wait_for_communicate proc timeout_s ;;
      match waited with
      | Some (stdout, stderr) =>
          let duration_ms := elapsed_ms proc timeout_s in
          log "azure_shell_function" cwd command_text timeout_ms false
              (Some (returncode (behaviour proc))) duration_ms stdout stderr
              false "" ;;
          chat_exec_loop cwd timeout_ms timeout_s rest
            (output_parts
             ++ [PyStr.or_else (PyStr.strip (stdout ++ stderr)) "(no output)";
                 ("[exit_code=" ++ PyStr.of_int (returncode (behaviour proc))
                  ++ "]")%string])%list
      | None =>
          kill proc ;;
          '(stdout, stderr) <- communicate proc ;;
          let duration_ms := elapsed_ms proc timeout_s in
          let message :=
            ("Command timed out after " ++ PyStr.of_int (int_of timeout_s)
             ++ "s")%string in
          log "azure_shell_function" cwd command_text timeout_ms true None
              duration_ms stdout (PyStr.or_else stderr message) false "" ;;
          ret (output_parts ++ [message; "[exit_code=124]"])%list
      end
  end.

(** [shell] of [build_chat_shell_function_tool(cwd, logger)]. *)
Definition build_chat_shell_function_tool (cwd : string)
    (command : option string) (commands : option (list string))
    (timeout_ms : Z) : M world string :=
  let cmds := command_list command commands in
  match cmds with
  | [] => ret "No command provided."
  | _ =>
      blocked <- deny_loop disallowed "azure_shell_function" cwd timeout_ms cmds ;;
      match blocked with
      | Some reply => ret reply
      | None =>
          require_approval cmds ;;
          let timeout_s := max1 (seconds_of_ms timeout_ms) in
          output_parts <- chat_exec_loop cwd timeout_ms timeout_s cmds [] ;;
          ret (PyStr.join_lines output_parts)
      end
  end.

(** The request and reply types of the Agents SDK ShellTool. *)
Record ShellAction : Type := {
  action_commands : list string;
  action_timeout_ms : option Z
}.

Record ShellCallOutcome : Type := {
  outcome_type : string;
  outcome_exit_code : option Z
}.

Record ShellCommandOutput : Type := {
  out_command : string;
  out_stdout : string;
  out_stderr : string;
  out_outcome : ShellCallOutcome
}.

Record ShellResult : Type := {
  output : list ShellCommandOutput;
  working_directory : string
}.

(** [action.timeout_ms or self.default_timeout_ms] *)
Definition timeout_or (t : option Z) (default_timeout_ms : Z) : Z :=
  match t with
  | Some n => if n =? 0 then default_timeout_ms else n
  | None => default_timeout_ms
  end.

(** The loop of [ShellExecutor.__call__]. *)
Fixpoint executor_loop (cwd : string) (default_timeout_ms : Z)
    (action : ShellAction) (cmds : list string)
    (outputs : list ShellCommandOutput) : M world (list ShellCommandOutput) :=
  match cmds with
  | [] => ret outputs
  | command :: rest =>
      let timeout_ms := timeout_or (action_timeout_ms action) default_timeout_ms in
      let timeout_s := max1 (seconds_of_ms timeout_ms) in
      w <- gets (fun w => w) ;;
      proc <- create_subprocess_exec (_shell_invocation w command) cwd ;;
      waited <- wait_for_communicate proc timeout_s ;;
      '(stdout, stderr, timed_out) <-
        match waited with
        | Some (o, e) => ret (o, e, false)
        | None =>
            kill proc ;;
            '(o, e) <- communicate proc ;;
            ret (o, e, true)
        end ;;
      let '(outcome, stderr, exit_code) :=
        if (timed_out : bool) then
          ({| outcome_type := "timeout"; outcome_exit_code := None |},
           (if PyStr.truthy (PyStr.strip stderr) then stderr
            else ("Command timed out after " ++ PyStr.of_int (int_of timeout_s)
                  ++ "s")%string),
           None)
        else
          ({| outcome_type := "exit";
              outcome_exit_code := Some (returncode (behaviour proc)) |},
           stderr,
           Some (returncode (behaviour proc))) in
      let duration_ms := elapsed_ms proc timeout_s in
      log "shell_tool" cwd command timeout_ms timed_out exit_code duration_ms
          stdout stderr false "" ;;
      let outputs :=
        (outputs ++ [ {| out_command := command; out_stdout := stdout;
                         out_stderr := stderr; out_outcome := outcome |} ])%list in
      if timed_out then ret outputs
      else executor_loop cwd default_timeout_ms action rest outputs
  end.

(** [ShellExecutor.__call__] *)
Definition ShellExecutor_call (cwd : string) (default_timeout_ms : Z)
    (action : ShellAction) : M world ShellResult :=
  require_approval (action_commands action) ;;
  outputs <- executor_loop cwd default_timeout_ms action
               (action_commands action) [] ;;
  ret {| output := outputs; working_directory := cwd |}.

(** ** main.py: the retrying run driver *)

(** [Runner.run(agent, input=input_text, max_turns=max_turns)]: the agent
    runtime is opaque; the world says how its n-th call ends. *)
Definition Runner_run (input_text : string) (max_turns : Z) : M world string :=
  fun w =>
    let n := agent_runs w in
    let w' := with_trace (trace w ++ [AgentRun input_text max_turns])
                (with_agent_runs (S n) w) in
    match runner_run w n with
    | inl final_output => (Ok final_output, w')
    | inr exc => (Raise exc, w')
    end.

(** [except (RateLimitError, APIConnectionError)] *)
Definition is_transient (exc : exn) : bool :=
  match exc with
  | RateLimitError _ | APIConnectionError _ => true
  | _ => false
  end.

Definition class_name (exc : exn) : string :=
  match exc with
  | RuntimeError _ => "RuntimeError"
  | OSError _ => "OSError"
  | EOFError => "EOFError"
  | FileNotFoundError _ => "FileNotFoundError"
  | ValueError _ => "ValueError"
  | RateLimitError _ => "RateLimitError"
  | APIConnectionError _ => "APIConnectionError"
  | AgentError _ => "AgentError"
  end.

(** [time.sleep(seconds)] *)
Definition sleep (seconds : Q) : M world unit :=
  if Qle_bool 0 seconds then emit (Sleep seconds)
  else raise (ValueError "sleep length must be non-negative").

(** [backoff_seconds * (2 ** (attempt - 1))] *)
Definition backoff_delay (backoff_seconds : Q) (attempt : Z) : Q :=
  (backoff_seconds * inject_Z (2 ^ (attempt - 1)))%Q.

(** What the [except] clause does after [attempt += 1] when attempts remain. *)
Definition back_off (exc : exn) (backoff_seconds : Q) (attempt : Z)
  : M world unit :=
  let sleep_s := backoff_delay backoff_seconds attempt in
  emit (PrintRetry (class_name exc) sleep_s) ;;
  sleep sleep_s.

(** The [while True] loop of [run_with_retries], entered with the current
    value of [attempt]. *)
Equations? retry_loop (input_text : string) (max_turns retries : Z)
    (backoff_seconds : Q) (attempt : Z) (w : world)
  : result string * world by wf (Z.to_nat (retries - attempt)) lt :=
retry_loop input_text max_turns retries backoff_seconds attempt w
  with Runner_run input_text max_turns w := {
  | (Ok final_output, w1) => (Ok final_output, w1)
  | (Raise exc, w1) with is_transient exc := {
    | false => (Raise exc, w1)
    | true with Z_gt_dec (attempt + 1) retries := {
      | left _ => (Raise exc, w1)
      | right _ with back_off exc backoff_seconds (attempt + 1) w1 := {
        | (Ok _, w2) =>
            retry_loop input_text max_turns retries backoff_seconds
              (attempt + 1) w2
        | (Raise exc', w2) => (Raise exc', w2) } } } }.
Proof. lia. Qed.

Definition run_with_retries (input_text : string) (max_turns retries : Z)
    (backoff_seconds : Q) : M world string :=
  retry_loop input_text max_turns retries backoff_seconds 0.

(** ** The two run functions and their [finally] block *)

(** A coroutine with local variables [L] that stay readable in its
    [except] and [finally] clauses. *)
Definition lift {L A : Type} (m : M world A) : M (L * world) A :=
  fun s => let '(r, w') := m (snd s) in (r, (fst s, w')).

Definition local {L A : Type} (f : L -> A) : M (L * world) A :=
  gets (fun s => f (fst s)).

Definition assign {L : Type} (f : L -> L) : M (L * world) unit :=
  modify (fun s => (f (fst s), snd s)).

(** [try: body / except Exception as exc: handler(exc); raise / finally: final] *)
Definition try_except_finally {S A : Type} (body : M S A)
    (handler : exn -> M S unit) (final : M S unit) : M S A :=
  fun s =>
    match body s with
    | (Ok a, s1) =>
        match final s1 with
        | (Ok _, s2) => (Ok a, s2)
        | (Raise e, s2) => (Raise e, s2)
        end
    | (Raise exc, s1) =>
        let '(raised, s2) :=
          match handler exc s1 with
          | (Ok _, s2) => (exc, s2)
          | (Raise e', s2) => (e', s2)
          end in
        match final s2 with
        | (Ok _, s3) => (Raise raised, s3)
        | (Raise e, s3) => (Raise e, s3)
        end
    end.

(** [path.exists()] for a file that only this program writes: it is there
    when some write of the history of the world, of this run or of an
    earlier one, went to that path. *)
Definition path_exists (path : string) (w : world) : bool :=
  existsb (fun f => match f with
                    | AppendJsonl p _ | WriteJson p _ | WriteText p _ =>
                        String.eqb p path
                    end) (disk w).

(** quality.py *)
Record ValidationResult : Type := {
  v_min_stories : Z;
  v_min_evidence : Z;
  story_count : Z;
  evidence_count : Z;
  errors : list string
}.

Definition passed (v : ValidationResult) : bool :=
  match errors v with [] => true | _ => false end.

Record AnalysisRunResult : Type := {
  res_report : string;
  res_run_dir : string;
  res_report_path : string;
  res_output_copy_path : option string;
  res_validation_result : option ValidationResult
}.

(** The command-line arguments the run functions read. *)
Record Namespace : Type := {
  repo : string;
  model : string;
  output_arg : string;
  max_turns_arg : Z;
  min_stories : Z;
  min_evidence : Z;
  retries_arg : Z;
  retry_backoff_seconds : Q;
  task : string;
  analysis_report : string;
  codex_profile : string;
  codex_timeout_seconds : Z
}.

(** What a run function has computed when it reaches its [try]. *)
Record Prepared : Type := {
  run_id : string;                 (* run_dir.name *)
  run_dir : string;
  repo_path : string;
  scan_path : string;
  started_at : string;
  using_azure : bool;
  api_mode : string;
  endpoint_used : string;
  model_name : string;
  azure_deployment : string;
  backend : string
}.

Record analysis_locals : Type := {
  report : string;
  output_copy_path : option string;
  validation_result : option ValidationResult;
  run_status : string;
  error_message : string
}.

Record code_locals : Type := {
  final_output : string;
  status : string;
  code_error_message : string;
  output_path : option string;
  mcp_server_names : list string
}.

Definition JOptStr (x : option string) : json :=
  match x with Some s => JStr s | None => JStr "" end.

(** [path.write_text(text)]: the text is written, or an OSError is raised
    and nothing is written. *)
Definition write_text (path text : string) : M world unit :=
  err <- gets (fun w => write_error w path) ;;
  match err with
  | Some msg => raise (OSError msg)
  | None => write (WriteText path text)
  end.

(** [path.parent.mkdir(parents=True, exist_ok=True)] and then
    [path.write_text(text)], for the path given with --output: a failure
    of either step is, for the world, a failure of writing [path]. *)
Definition save_output (path text : string) : M world unit :=
  write_text path text.

Section Runs.

(** Collaborators outside the core: report validation ([quality.py]) and
    path resolution. *)
Variable validate_report : string -> Z -> Z -> ValidationResult.
Variable append_quality_warning : string -> ValidationResult -> string.
Variable resolve : string -> string.

Definition validation_json (v : option ValidationResult) : json :=
  match v with
  | Some r =>
      JObj [ ("passed", JBool (passed r));
             ("story_count", JInt (story_count r));
             ("min_stories", JInt (v_min_stories r));
             ("evidence_count", JInt (evidence_count r));
             ("min_evidence", JInt (v_min_evidence r));
             ("errors", JList (map JStr (errors r))) ]
  | None =>
      JObj [ ("passed", JNull); ("story_count", JNull);
             ("min_stories", JNull); ("evidence_count", JNull);
             ("min_evidence", JNull); ("errors", JList []) ]
  end.

(** The [try] suite of [run_analysis]. *)
Definition run_analysis_body (args : Namespace) (pre : Prepared)
  : M (analysis_locals * world) AnalysisRunResult :=
  let report_path := (run_dir pre ++ "/report.md")%string in
  result <- lift (run_with_retries
                    "Analyze the target repository now and produce the full markdown report."
                    (max_turns_arg args) (retries_arg args)
                    (retry_backoff_seconds args)) ;;
  assign (fun l => {| report := result;
                      output_copy_path := output_copy_path l;
                      validation_result := validation_result l;
                      run_status := run_status l;
                      error_message := error_message l |}) ;;
  let v := validate_report result (min_stories args) (min_evidence args) in
  assign (fun l => {| report := report l;
                      output_copy_path := output_copy_path l;
                      validation_result := Some v;
                      run_status := run_status l;
                      error_message := error_message l |}) ;;
  (if passed v then
     lift (print "Quality validation passed.") ;;
     assign (fun l => {| report := report l;
                         output_copy_path := output_copy_path l;
                         validation_result := validation_result l;
                         run_status := "completed";
                         error_message := error_message l |})
   else
     lift (print "Quality validation warnings:") ;;
     lift (print_all (map (fun err => (" - " ++ err)%string) (errors v))) ;;
     assign (fun l => {| report := append_quality_warning (report l) v;
                         output_copy_path := output_copy_path l;
                         validation_result := validation_result l;
                         run_status := "completed_with_warnings";
                         error_message := error_message l |})) ;;
  text <- local report ;;
  lift (write_text report_path text) ;;
  lift (print ("Saved run report to " ++ report_path)) ;;
  (if PyStr.truthy (output_arg args) then
     let copy := resolve (output_arg args) in
     assign (fun l => {| report := report l;
                         output_copy_path := Some copy;
                         validation_result := validation_result l;
                         run_status := run_status l;
                         error_message := error_message l |}) ;;
     lift (save_output copy text) ;;
     lift (print ("Saved output copy to " ++ copy))
   else ret tt) ;;
  l <- local (fun l => l) ;;
  ret {| res_report := report l; res_run_dir := run_dir pre;
         res_report_path := report_path;
         res_output_copy_path := output_copy_path l;
         res_validation_result := validation_result l |}.

(** The [finally] suite of [run_analysis]. *)
Definition run_analysis_finally (args : Namespace) (pre : Prepared)
  : M (analysis_locals * world) unit :=
  let report_path := (run_dir pre ++ "/report.md")%string in
  diagnostics_path <- lift (write_summary (run_dir pre)) ;;
  let summary_path := (run_dir pre ++ "/run-summary.json")%string in
  l <- local (fun l => l) ;;
  now <- lift (gets utcnow) ;;
  command_log_path <- lift (gets log_path) ;;
  report_exists <- lift (gets (path_exists report_path)) ;;
  let summary_payload :=
    JObj [ ("run_id", JStr (run_id pre));
           ("run_dir", JStr (run_dir pre));
           ("started_at_utc", JStr (started_at pre ++ "Z")%string);
           ("finished_at_utc", JStr (now ++ "Z")%string);
           ("repo_input", JStr (repo args));
           ("repo_path", JStr (repo_path pre));
           ("scan_path", JStr (scan_path pre));
           ("report_path", JStr (if report_exists : bool then report_path else ""));
           ("output_copy_path", JOptStr (output_copy_path l));
           ("provider", JStr (if using_azure pre then "azure" else "openai"));
           ("api_mode", JStr (api_mode pre));
           ("endpoint_used", JStr (endpoint_used pre));
           ("model_requested", JStr (model args));
           ("model_used", JStr (model_name pre));
           ("azure_deployment", JStr (azure_deployment pre));
           ("run_status", JStr (run_status l));
           ("error_message", JStr (error_message l));
           ("validation", validation_json (validation_result l));
           ("command_log_path", JStr command_log_path);
           ("command_diagnostics_path", JStr diagnostics_path) ] in
  lift (write (WriteJson summary_path summary_payload)) ;;
  lift (print ("Command log written to " ++ command_log_path)) ;;
  lift (print ("Command diagnostics written to " ++ diagnostics_path)) ;;
  lift (print ("Run summary written to " ++ summary_path)).

(** [run_analysis] from the line that initialises [report]. *)
Definition run_analysis (args : Namespace) (pre : Prepared)
  : M world AnalysisRunResult :=
  fun w =>
    let locals0 := {| report := ""; output_copy_path := None;
                      validation_result := None; run_status := "failed";
                      error_message := "" |} in
    let '(r, (_, w')) :=
      try_except_finally
        (run_analysis_body args pre)
        (fun exc =>
           assign (fun l => {| report := report l;
                               output_copy_path := output_copy_path l;
                               validation_result := validation_result l;
                               run_status := run_status l;
                               error_message := exn_message exc |}))
        (run_analysis_finally args pre)
        (locals0, w) in
    (r, w').

(** [build_local_mcp_servers]: fails when the server scripts are missing. *)
Definition build_local_mcp_servers : M world (list string) :=
  installed <- gets mcp_installed ;;
  if installed : bool then ret ["filesystem"; "git"]
  else raise (FileNotFoundError "MCP servers are not installed.").

(** [async with MCPServerManager(..., drop_failed_servers=True) as m]:
    the body sees the servers that connected; they are closed on exit. *)
Definition with_mcp_manager {L A : Type} (servers : list string)
    (body : list string -> M (L * world) A) : M (L * world) A :=
  connects <- lift (gets mcp_connects) ;;
  let active_servers :=
    filter (fun s => existsb (String.eqb s) connects) servers in
  lift (emit (ConnectServers active_servers)) ;;
  try_except_finally (body active_servers) (fun _ => ret tt)
    (lift (emit CloseServers)).

Record CodeRunResult : Type := {
  code_run_dir : string;
  code_repo_path : string;
  code_final_output : string;
  code_output_path : option string
}.

(** The argv of [codex exec]; [cmd[2:2] = ["--profile", profile]] puts the
    profile right after [exec]. *)
Definition codex_command (args : Namespace) (pre : Prepared) : list string :=
  let profile := PyStr.strip (codex_profile args) in
  ["codex"; "exec"]
  ++ (if PyStr.truthy profile then ["--profile"; profile] else [])
  ++ ["--full-auto"; "--cd"; repo_path pre; "--output-last-message";
      (run_dir pre ++ "/codex-last-message.txt")%string; "--json"; "-m";
      model_name pre; "-"].

(** The end of both branches of the [try] suite: [if args.output: ...] and
    the value returned. *)
Definition save_and_return (args : Namespace) (pre : Prepared)
  : M (code_locals * world) CodeRunResult :=
  (if PyStr.truthy (output_arg args) then
     let out := resolve (output_arg args) in
     assign (fun l => {| final_output := final_output l;
                         status := status l;
                         code_error_message := code_error_message l;
                         output_path := Some out;
                         mcp_server_names := mcp_server_names l |}) ;;
     text <- local final_output ;;
     lift (save_output out text) ;;
     lift (print ("Saved output to " ++ out))
   else ret tt) ;;
  l <- local (fun l => l) ;;
  ret {| code_run_dir := run_dir pre; code_repo_path := repo_path pre;
         code_final_output := final_output l;
         code_output_path := output_path l |}.

(** The branch [if backend == "codex_cli"] of the [try] suite. The prompt
    goes to the standard input of the process; what the process does is
    the host's affair. *)
Definition run_codex_cli (args : Namespace) (pre : Prepared)
  : M (code_locals * world) CodeRunResult :=
  let last_message_path := (run_dir pre ++ "/codex-last-message.txt")%string in
  let codex_stdout_path := (run_dir pre ++ "/codex-cli.stdout.log")%string in
  let codex_stderr_path := (run_dir pre ++ "/codex-cli.stderr.log")%string in
  let see := ("See " ++ codex_stdout_path ++ " and " ++ codex_stderr_path
              ++ ".")%string in
  proc <- lift (create_subprocess_exec (codex_command args pre) (repo_path pre)) ;;
  waited <- lift (wait_for_communicate proc
                    (inject_Z (Z.max 30 (codex_timeout_seconds args)))) ;;
  match waited with
  | None =>
      lift (kill proc) ;;
      '(stdout_b, stderr_b) <- lift (communicate proc) ;;
      lift (write_text codex_stdout_path stdout_b) ;;
      lift (write_text codex_stderr_path stderr_b) ;;
      raise (RuntimeError
               ("codex exec timed out after "
                ++ PyStr.of_int (codex_timeout_seconds args) ++ "s. " ++ see))
  | Some (stdout, stderr) =>
      lift (write_text codex_stdout_path stdout) ;;
      lift (write_text codex_stderr_path stderr) ;;
      if negb (returncode (behaviour proc) =? 0) then
        raise (RuntimeError
                 ("codex exec failed with exit code "
                  ++ PyStr.of_int (returncode (behaviour proc)) ++ ". " ++ see))
      else
        last_message <- lift (gets (fun w => files w last_message_path)) ;;
        assign (fun l => {| final_output :=
                              match last_message with
                              | Some text => text
                              | None => PyStr.strip stdout
                              end;
                            status := "completed";
                            code_error_message := code_error_message l;
                            output_path := output_path l;
                            mcp_server_names := ["codex_cli"] |}) ;;
        save_and_return args pre
  end.

(** The rest of the [try] suite, for any other backend: the MCP servers
    and the agent. *)
Definition run_with_mcp (args : Namespace) (pre : Prepared)
  : M (code_locals * world) CodeRunResult :=
  mcp_servers <- lift build_local_mcp_servers ;;
  with_mcp_manager mcp_servers (fun active_servers =>
    match active_servers with
    | [] => raise (RuntimeError "No MCP servers connected successfully.")
    | _ =>
        assign (fun l => {| final_output := final_output l;
                            status := status l;
                            code_error_message := code_error_message l;
                            output_path := output_path l;
                            mcp_server_names := active_servers |}) ;;
        result <- lift (run_with_retries
                          "Start now. Make the required code changes and then summarize exactly what changed."
                          (max_turns_arg args) (retries_arg args)
                          (retry_backoff_seconds args)) ;;
        assign (fun l => {| final_output := result;
                            status := "completed";
                            code_error_message := code_error_message l;
                            output_path := output_path l;
                            mcp_server_names := mcp_server_names l |}) ;;
        save_and_return args pre
    end).

(** The [try] suite of [run_code_agent]. *)
Definition run_code_agent_body (args : Namespace) (pre : Prepared)
  : M (code_locals * world) CodeRunResult :=
  if String.eqb (backend pre) "codex_cli" then run_codex_cli args pre
  else run_with_mcp args pre.

(** The [finally] suite of [run_code_agent]. *)
Definition run_code_agent_finally (args : Namespace) (pre : Prepared)
  : M (code_locals * world) unit :=
  diagnostics_path <- lift (write_summary (run_dir pre)) ;;
  let summary_path := (run_dir pre ++ "/run-summary.json")%string in
  l <- local (fun l => l) ;;
  now <- lift (gets utcnow) ;;
  command_log_path <- lift (gets log_path) ;;
  let summary_payload :=
    JObj [ ("run_id", JStr (run_id pre));
           ("run_dir", JStr (run_dir pre));
           ("started_at_utc", JStr (started_at pre ++ "Z")%string);
           ("finished_at_utc", JStr (now ++ "Z")%string);
           ("repo_input", JStr (repo args));
           ("repo_path", JStr (repo_path pre));
           ("analysis_report", JStr (analysis_report args));
           ("provider", JStr (if using_azure pre then "azure" else "openai"));
           ("api_mode", JStr (api_mode pre));
           ("endpoint_used", JStr (endpoint_used pre));
           ("model_requested", JStr (model args));
           ("model_used", JStr (model_name pre));
           ("backend", JStr (backend pre));
           ("mcp_servers_active", JList (map JStr (mcp_server_names l)));
           ("run_status", JStr (status l));
           ("error_message", JStr (code_error_message l));
           ("output_path", JOptStr (output_path l));
           ("command_log_path", JStr command_log_path);
           ("command_diagnostics_path", JStr diagnostics_path) ] in
  lift (write (WriteJson summary_path summary_payload)) ;;
  lift (print ("Command log written to " ++ command_log_path)) ;;
  lift (print ("Command diagnostics written to " ++ diagnostics_path)) ;;
  lift (print ("Run summary written to " ++ summary_path)).

(** [run_code_agent] from the line that initialises [final_output]. *)
Definition run_code_agent (args : Namespace) (pre : Prepared)
  : M world CodeRunResult :=
  fun w =>
    let locals0 := {| final_output := ""; status := "failed";
                      code_error_message := ""; output_path := None;
                      mcp_server_names := [] |} in
    let '(r, (_, w')) :=
      try_except_finally
        (run_code_agent_body args pre)
        (fun exc =>
           assign (fun l => {| final_output := final_output l;
                               status := status l;
                               code_error_message := exn_message exc;
                               output_path := output_path l;
                               mcp_server_names := mcp_server_names l |}))
        (run_code_agent_finally args pre)
        (locals0, w) in
    (r, w').

End Runs.

(** * Specification vocabulary *)

(** [advance w evs acts]: [w] after the events [evs] were logged and the
    interactions [acts] took place. *)
Definition advance (w : world) (evs : list json) (acts : list action) : world :=
  with_disk (disk w ++ map (AppendJsonl (log_path w)) evs)
    (with_events (events w ++ evs) (with_trace (trace w ++ acts) w)).

(** The command an argv of [_shell_invocation] runs. *)
Definition command_of (args : list string) : string := last args "".

(** Commands the tool acted on: stopped by the deny-list, or handed to the
    process launcher. *)
Definition attempted (t : list action) : list string :=
  flat_map (fun a => match a with
                     | Checked c true => [c]
                     | Spawn args _ _ => [command_of args]
                     | _ => []
                     end) t.

(** Commands stopped by the deny-list or whose process did start. *)
Definition recorded (t : list action) : list string :=
  flat_map (fun a => match a with
                     | Checked c true => [c]
                     | Spawn args _ true => [command_of args]
                     | _ => []
                     end) t.

Definition logged_commands (evs : list json) : list json :=
  map (get "command") evs.

Definition is_spawn (a : action) : bool :=
  match a with Spawn _ _ _ => true | _ => false end.

Definition is_check (a : action) : bool :=
  match a with Checked _ _ => true | _ => false end.

Definition is_gate (a : action) : bool :=
  match a with Gate _ _ => true | _ => false end.

Definition is_console (a : action) : bool :=
  match a with Printed _ | Input _ _ => true | _ => false end.

Definition is_proc_action (a : action) : bool :=
  match a with Spawn _ _ _ | Kill _ | Drain _ => true | _ => false end.

(** The event an execution loop logs for a process that did start. *)
Definition run_event (source : string) (w : world) (cwd c : string)
    (timeout_ms : Z) (timeout_s : Q) (p : running) (timeout_stderr : string -> string)
  : json :=
  let proc := {| argv := _shell_invocation w c; behaviour := p |} in
  if finishes_within p timeout_s then
    command_event (utcnow w) (max_output_chars w) source cwd c timeout_ms
      false (Some (returncode p)) (elapsed_ms proc timeout_s)
      (stdout_bytes p) (stderr_bytes p) false ""
  else
    command_event (utcnow w) (max_output_chars w) source cwd c timeout_ms
      true None (elapsed_ms proc timeout_s)
      (killed_stdout p) (timeout_stderr (killed_stderr p)) false "".

Definition code_event (w : world) (cwd c : string) (timeout_ms : Z)
    (p : running) : json :=
  run_event "code_shell_function" w cwd c timeout_ms
    (max1 (seconds_of_ms timeout_ms)) p (fun e => e).

Definition code_timeout_reply (timeout_ms : Z) : list string :=
  [ ("Command timed out after "
     ++ PyStr.of_int (Z.max 1 (int_of (seconds_of_ms timeout_ms))) ++ "s")%string;
    "[exit_code=124]" ].

Definition exit_reply (p : running) : list string :=
  [ PyStr.or_else (PyStr.strip (stdout_bytes p ++ stderr_bytes p)) "(no output)";
    ("[exit_code=" ++ PyStr.of_int (returncode p) ++ "]")%string ].

Definition chat_timeout_text (timeout_s : Q) : string :=
  "Command timed out after " ++ PyStr.of_int (int_of timeout_s) ++ "s".

Definition chat_event (w : world) (cwd c : string) (timeout_ms : Z)
    (timeout_s : Q) (p : running) : json :=
  run_event "azure_shell_function" w cwd c timeout_ms timeout_s p
    (fun e => PyStr.or_else e (chat_timeout_text timeout_s)).

Definition executor_timeout (action : ShellAction) (default_timeout_ms : Z) : Q :=
  max1 (seconds_of_ms (timeout_or (action_timeout_ms action) default_timeout_ms)).

Definition executor_stderr (timeout_s : Q) (stderr : string) : string :=
  if PyStr.truthy (PyStr.strip stderr) then stderr
  else ("Command timed out after " ++ PyStr.of_int (int_of timeout_s) ++ "s")%string.

Definition executor_event (w : world) (cwd c : string)
    (action : ShellAction) (default_timeout_ms : Z) (p : running) : json :=
  run_event "shell_tool" w cwd c
    (timeout_or (action_timeout_ms action) default_timeout_ms)
    (executor_timeout action default_timeout_ms) p
    (executor_stderr (executor_timeout action default_timeout_ms)).

Definition executor_output (c : string) (action : ShellAction)
    (default_timeout_ms : Z) (p : running) : ShellCommandOutput :=
  if finishes_within p (executor_timeout action default_timeout_ms) then
    {| out_command := c; out_stdout := stdout_bytes p;
       out_stderr := stderr_bytes p;
       out_outcome := {| outcome_type := "exit";
                         outcome_exit_code := Some (returncode p) |} |}
  else
    {| out_command := c; out_stdout := killed_stdout p;
       out_stderr := executor_stderr (executor_timeout action default_timeout_ms)
                       (killed_stderr p);
       out_outcome := {| outcome_type := "timeout";
                         outcome_exit_code := None |} |}.

Record exec_shape (cmds : list string) (evs : list json) (acts : list action)
  : Prop := {
  shape_proc : forallb is_proc_action acts = true;
  shape_logged : logged_commands evs = map JStr (recorded acts);
  shape_attempted : exists k, attempted acts = firstn k cmds;
  shape_recorded : exists k, recorded acts = firstn k cmds;
  shape_unblocked : Forall (fun e => get "blocked" e = JBool false) evs
}.

Definition spawn_error {A : Type} (r : result A) : Prop :=
  match r with
  | Ok _ => True
  | Raise e => exists msg, e = OSError msg
  end.

(** The checks the deny-list loop makes: it stops at the first hit. *)
Fixpoint checks (pattern : Re.regex) (cmds : list string) : list action :=
  match cmds with
  | [] => []
  | c :: rest =>
      if Re.search pattern c then [Checked c true]
      else Checked c false :: checks pattern rest
  end.

Definition blocked_event (w : world) (source cwd c : string) (timeout_ms : Z)
  : json :=
  command_event (utcnow w) (max_output_chars w) source cwd c timeout_ms
    false None 0 "" "" true "unsafe_command_pattern".

Definition blocked_reply (c : string) : string := "Blocked unsafe command: " ++ c.

Definition approval_prompt (cmds : list string) : list action :=
  Printed "Shell command approval required:"
  :: map Printed (map (fun c => ("  " ++ c)%string) cmds).

Definition answer_of (line : string) : bool :=
  said_yes (PyStr.lower (PyStr.strip line)).

Definition rejected : exn :=
  RuntimeError "Shell command execution rejected by user.".

(** The ways through [require_approval]: result, world left behind (before
    its interactions are appended) and interactions. *)
Inductive gate_run (cmds : list string) (w : world)
  : result unit -> world -> list action -> Prop :=
| gate_auto :
    env_is (SHELL_AUTO_APPROVE w) "1" = true ->
    gate_run cmds w (Ok tt) w [Gate cmds true]
| gate_yes line rest :
    env_is (SHELL_AUTO_APPROVE w) "1" = false ->
    console_in w = line :: rest -> answer_of line = true ->
    gate_run cmds w (Ok tt) (with_console_in rest w)
      (approval_prompt cmds
       ++ [Input "Proceed? [y/N] " (Some line); Gate cmds true])
| gate_no line rest :
    env_is (SHELL_AUTO_APPROVE w) "1" = false ->
    console_in w = line :: rest -> answer_of line = false ->
    gate_run cmds w (Raise rejected) (with_console_in rest w)
      (approval_prompt cmds
       ++ [Input "Proceed? [y/N] " (Some line); Gate cmds false])
| gate_eof :
    env_is (SHELL_AUTO_APPROVE w) "1" = false ->
    console_in w = [] ->
    gate_run cmds w (Raise EOFError) w
      (approval_prompt cmds ++ [Input "Proceed? [y/N] " None]).

(** The common skeleton of the two [shell] function tools. *)
Definition shell_tool (pattern : Re.regex) (source : string)
    (exec : list string -> M world (list string)) (cwd : string)
    (timeout_ms : Z) (cmds : list string) : M world string :=
  match cmds with
  | [] => ret "No command provided."
  | _ =>
      blocked <- deny_loop pattern source cwd timeout_ms cmds ;;
      match blocked with
      | Some reply => ret reply
      | None =>
          require_approval cmds ;;
          output_parts <- exec cmds ;;
          ret (PyStr.join_lines output_parts)
      end
  end.

(** The four ways through a function tool. The world [w0] is [w] with the
    console line consumed, if one was; the events and interactions come on
    top of it. *)
Inductive tool_path (pattern : Re.regex) (source cwd : string)
    (timeout_ms : Z) (cmds : list string) (w : world)
  : result string -> world -> list json -> list action -> Prop :=
| path_empty :
    cmds = [] ->
    tool_path pattern source cwd timeout_ms cmds w
      (Ok "No command provided.") w [] []
| path_blocked c0 :
    cmds <> [] -> find (Re.search pattern) cmds = Some c0 ->
    tool_path pattern source cwd timeout_ms cmds w
      (Ok (blocked_reply c0)) w
      [blocked_event w source cwd c0 timeout_ms] (checks pattern cmds)
| path_refused e w0 ga :
    cmds <> [] -> find (Re.search pattern) cmds = None ->
    gate_run cmds w (Raise e) w0 ga ->
    tool_path pattern source cwd timeout_ms cmds w
      (Raise e) w0 [] (checks pattern cmds ++ ga)
| path_executed r w0 ga evs xa :
    cmds <> [] -> find (Re.search pattern) cmds = None ->
    gate_run cmds w (Ok tt) w0 ga ->
    exec_shape cmds evs xa -> spawn_error r ->
    tool_path pattern source cwd timeout_ms cmds w
      r w0 evs (checks pattern cmds ++ ga ++ xa).

(** The two ways through [ShellExecutor.__call__]. *)
Inductive executor_path (cmds : list string) (w : world)
  : result ShellResult -> world -> list json -> list action -> Prop :=
| executor_refused e w0 ga :
    gate_run cmds w (Raise e) w0 ga ->
    executor_path cmds w (Raise e) w0 [] ga
| executor_executed r w0 ga evs xa :
    gate_run cmds w (Ok tt) w0 ga ->
    exec_shape cmds evs xa -> spawn_error r ->
    executor_path cmds w r w0 evs (ga ++ xa).

Definition exits (after : Q) (code : Z) (out err : string) : process :=
  Starts {| exits_after := Some after; returncode := code;
            stdout_bytes := out; stderr_bytes := err;
            killed_stdout := ""; killed_stderr := "" |}.

Definition hangs (partial : string) : process :=
  Starts {| exits_after := None; returncode := 0;
            stdout_bytes := ""; stderr_bytes := "";
            killed_stdout := partial; killed_stderr := "" |}.

(** A host with a working shell. *)
Definition sample_host (args : list string) : process :=
  let c := command_of args in
  if String.eqb c "ls" then exits (1 # 10) 0 "README.md" ""
  else if String.eqb c "false" then exits (1 # 10) 1 "" ""
  else if String.eqb c "sleep 0.7" then exits (7 # 10) 0 "" ""
  else if String.eqb c "sleep 999" then hangs "partial"
  else exits (1 # 10) 127 "" "command not found".

(** A host on which no process can be launched (the working directory is
    gone, or there is no /bin/sh). *)
Definition broken_host (args : list string) : process :=
  SpawnFails "[Errno 2] No such file or directory".

Definition sample_world (h : list string -> process) (flag : option string)
    (typed : list string) (budget : Z) (agent : nat -> string + exn) : world :=
  {| os_name := "posix"; pwsh_on_path := false;
     SHELL_AUTO_APPROVE := flag; utcnow := "2026-01-01T00:00:00";
     console_in := typed; host := h; runner_run := agent; agent_runs := 0;
     mcp_installed := true; mcp_connects := ["filesystem"; "git"];
     files := fun _ => None; write_error := fun _ => None;
     log_path := "/ws/run/commands.jsonl"; max_output_chars := budget;
     events := []; disk := []; trace := [] |}.

Definition idle_agent (n : nat) : string + exn := inl "done".

(** Auto-approved, working shell. *)
Definition calm : world := sample_world sample_host (Some "1") [] 4000 idle_agent.

(** Auto-approved, no process can be launched. *)
Definition stranded : world := sample_world broken_host (Some "1") [] 4000 idle_agent.

(** Every character of [s] is whitespace. *)
Definition blank (s : string) : Prop :=
  Forall (fun c => PyStr.isspace c = true) (list_ascii_of_string s).

(** The marker of [_truncate_text]. *)
Definition marker (dropped : Z) : string :=
  PyStr.nl ++ "... [truncated " ++ PyStr.of_int dropped ++ " chars]".

(** The claim, for one stored text. *)
Definition stored_as_claimed (budget : Z) (text : string) (stored : json) : Prop :=
  (PyStr.len text <= budget -> stored = JStr text)
  /\ (budget < PyStr.len text ->
      exists kept dropped,
        text = kept ++ dropped /\ PyStr.len kept = budget
        /\ stored = JStr (kept ++ marker (PyStr.len dropped))).

(** What the code stores. *)
Definition stored_within (budget : Z) (text : string) (stored : json) : Prop :=
  (budget <= 0 -> stored = JStr "")
  /\ (0 < budget -> stored_as_claimed budget text stored).

(** The counterexample world: a budget of zero characters. *)
Definition no_budget : world := sample_world sample_host (Some "1") [] 0 idle_agent.

(** [w'] is [w] with the events [evs] and the interactions [acts] added. *)
Definition adds (w w' : world) (evs : list json) (acts : list action) : Prop :=
  events w' = (events w ++ evs)%list /\ trace w' = (trace w ++ acts)%list.

(** A contiguous run of the batch, in the order of the batch. *)
Definition segment_of (l cmds : list string) : Prop :=
  exists k n, l = firstn n (skipn k cmds).

(** The claim: the run logged one event per attempted command, in order. *)
Definition audit_as_claimed (w w' : world) : Prop :=
  exists evs acts,
    adds w w' evs acts /\ logged_commands evs = map JStr (attempted acts).

(** What the code does: one event per command that was stopped by the
    deny-list or whose process started, in the order of the batch. *)
Definition audit_complete (cmds : list string) (w w' : world) : Prop :=
  exists evs acts,
    adds w w' evs acts
    /\ logged_commands evs = map JStr (recorded acts)
    /\ segment_of (recorded acts) cmds.

(** Events logged for the command [c] as blocked. *)
Definition blocked_events_for (c : string) (evs : list json) : list json :=
  filter (fun e => match get "command" e, get "blocked" e with
                   | JStr c', JBool true => String.eqb c c'
                   | _, _ => false
                   end) evs.

(** The outcome of a batch stopped at the command [c0]: the explanatory
    reply, one blocked event for [c0], and nothing but deny-list checks. *)
Definition blocked_at (c0 : string) (w : world) (run : result string * world)
  : Prop :=
  exists e acts,
    fst run = Ok ("Blocked unsafe command: " ++ c0)
    /\ adds w (snd run) [e] acts
    /\ get "command" e = JStr c0
    /\ get "blocked" e = JBool true
    /\ get "block_reason" e = JStr "unsafe_command_pattern"
    /\ get "exit_code" e = JNull
    /\ forallb is_check acts = true.

(** In [t], every action that satisfies [Q] comes after an action that [R]
    accepts for it. *)
Definition preceded (R : action -> action -> Prop) (Q : action -> Prop)
    (t : list action) : Prop :=
  forall pre a post,
    t = (pre ++ a :: post)%list -> Q a -> exists b, In b pre /\ R a b.

Definition spawned_command (a : action) : string :=
  match a with Spawn args _ _ => command_of args | _ => "" end.

Definition on_spawn (a : action) : Prop := is_spawn a = true.

Definition on_gate (a : action) : Prop := is_gate a = true.

Definition on_check (a : action) : Prop := is_check a = true.

Definition is_input (a : action) : bool :=
  match a with Input _ _ => true | _ => false end.

(** What the gate guarantees to a batch [cmds]: at most one question, put
    to the whole batch; no process before approval; and after a refusal an
    exception, no event and no process. *)
Definition gated {A : Type} (cmds : list string) (r : result A)
    (evs : list json) (acts : list action) : Prop :=
  (List.length (filter is_input acts) <= 1)%nat
  /\ (forall cs b, In (Gate cs b) acts -> cs = cmds)
  /\ preceded (fun _ b => b = Gate cmds true) on_spawn acts
  /\ (In (Gate cmds false) acts ->
      r = Raise rejected /\ evs = []
      /\ forall a, In a acts -> ~ on_spawn a).


(** The order as the claim states it: no deny-list check before the gate
    has granted, and no process before the gate has granted and the
    command has passed the deny-list. *)
Definition gate_filter_runner (t : list action) : Prop :=
  preceded (fun _ b => exists cs, b = Gate cs true) on_check t
  /\ preceded (fun _ b => exists cs, b = Gate cs true) on_spawn t
  /\ preceded (fun a b => b = Checked (spawned_command a) false) on_spawn t.

(** The order of the function tools: the whole batch passes the deny-list
    before the gate is reached, and no process starts before its command
    has passed the deny-list and the gate has granted. *)
Definition filter_gate_runner (cmds : list string) (t : list action) : Prop :=
  (forall c, In c cmds -> preceded (fun _ b => b = Checked c false) on_gate t)
  /\ preceded (fun _ b => b = Gate cmds true) on_spawn t
  /\ preceded (fun a b => b = Checked (spawned_command a) false) on_spawn t.

(** The order of the ShellTool executor: the gate, then the runner; no
    deny-list check at all. *)
Definition gate_runner (cmds : list string) (t : list action) : Prop :=
  preceded (fun _ b => b = Gate cmds true) on_spawn t
  /\ forall a, In a t -> ~ on_check a.

(** The marks of a timed-out command in the audit log. *)
Definition timed_out_event (c : string) (w : world) (p : running) (e : json)
  : Prop :=
  get "command" e = JStr c
  /\ get "timed_out" e = JBool true
  /\ get "exit_code" e = JNull
  /\ get "stdout" e = JStr (_truncate_text (killed_stdout p) (max_output_chars w)).

(** The interactions of a timed-out command: spawn, kill, drain. *)
Definition killed (w : world) (c cwd : string) : list action :=
  [ Spawn (_shell_invocation w c) cwd true;
    Kill (_shell_invocation w c); Drain (_shell_invocation w c) ].

(** The claim about a spawn failure: a normal event with a non-zero status
    is logged for the command and the call returns. *)
Definition spawn_failure_reported {A : Type} (c : string)
    (run : result A * world) : Prop :=
  (exists a, fst run = Ok a)
  /\ exists e n,
       In e (events (snd run)) /\ get "command" e = JStr c
       /\ get "exit_code" e = JInt n /\ n <> 0.

(** The interactions of a run of the driver that met the transient
    [failures] before its last call of the agent. *)
Fixpoint retry_trace (input_text : string) (max_turns : Z)
    (backoff_seconds : Q) (attempt : Z) (failures : list exn) : list action :=
  match failures with
  | [] => [AgentRun input_text max_turns]
  | exc :: rest =>
      AgentRun input_text max_turns
      :: PrintRetry (class_name exc) (backoff_delay backoff_seconds (attempt + 1))
      :: Sleep (backoff_delay backoff_seconds (attempt + 1))
      :: retry_trace input_text max_turns backoff_seconds (attempt + 1) rest
  end.

(** The delays of a trace, in order. *)
Definition sleeps (t : list action) : list Q :=
  flat_map (fun a => match a with Sleep s => [s] | _ => [] end) t.

(** [run] is a run of the loop entered with [attempt] in the world [w],
    retried after each of the [failures]. *)
Record retry_run (input_text : string) (max_turns retries : Z)
    (backoff_seconds : Q) (attempt : Z) (w : world)
    (run : result string * world) (failures : list exn) : Prop := {
  retry_interactions :
    trace (snd run)
    = (trace w
       ++ retry_trace input_text max_turns backoff_seconds attempt failures)%list;
  retry_calls :
    agent_runs (snd run) = (agent_runs w + List.length failures + 1)%nat;
  retry_oracle : runner_run (snd run) = runner_run w;
  retry_transient : Forall (fun exc => is_transient exc = true) failures;
  retry_failed :
    forall i exc, nth_error failures i = Some exc ->
                  runner_run w (agent_runs w + i)%nat = inr exc;
  retry_bound :
    Z.of_nat (List.length failures) <= Z.max 0 (retries - attempt);
  retry_outcome :
    match runner_run w (agent_runs w + List.length failures)%nat with
    | inl final_output => fst run = Ok final_output
    | inr exc =>
        fst run = Raise exc
        /\ (is_transient exc = true ->
            retries - attempt <= Z.of_nat (List.length failures))
    end
}.



Definition always_rate_limited (n : nat) : string + exn :=
  inr (RateLimitError "429 Too Many Requests").

(** A world whose agent runtime is rate-limited at every call. *)
Definition throttled : world :=
  sample_world sample_host (Some "1") [] 4000 always_rate_limited.

(** What a call leaves untouched when it only talks to the agent and
    sleeps. *)
Definition same_store (w w' : world) : Prop :=
  disk w' = disk w /\ events w' = events w
  /\ log_path w' = log_path w /\ utcnow w' = utcnow w
  /\ files w' = files w /\ write_error w' = write_error w.

Definition summary_path (pre : Prepared) : string :=
  run_dir pre ++ "/run-summary.json".

(** The JSON documents written to the summary path, oldest first. *)
Definition summaries (pre : Prepared) (writes : list fs_write) : list json :=
  flat_map (fun f => match f with
                     | WriteJson p doc =>
                         if String.eqb p (summary_path pre) then [doc] else []
                     | _ => []
                     end) writes.



(** [exc] is the error of writing a file that cannot be written. *)
Definition failed_writing (w : world) (exc : exn) : Prop :=
  exists path msg, write_error w path = Some msg /\ exc = OSError msg.




Definition sample_args : Namespace :=
  {| repo := "https://example.org/demo.git"; model := "gpt-5.1-codex";
     output_arg := ""; max_turns_arg := 30; min_stories := 15;
     min_evidence := 25; retries_arg := 3; retry_backoff_seconds := 2;
     task := "Fix the build"; analysis_report := ""; codex_profile := "";
     codex_timeout_seconds := 600 |}.

Definition sample_prepared : Prepared :=
  {| run_id := "run-20260101-000000"; run_dir := "/ws/run";
     repo_path := "/ws/run/repo"; scan_path := "/ws/run/scan.json";
     started_at := "2026-01-01T00:00:00"; using_azure := false;
     api_mode := "responses"; endpoint_used := "https://api.openai.com/v1";
     model_name := "gpt-5.1-codex"; azure_deployment := "";
     backend := "agents_sdk" |}.

Definition accepts_all (report : string) (stories evidence : Z)
  : ValidationResult :=
  {| v_min_stories := stories; v_min_evidence := evidence;
     story_count := stories; evidence_count := evidence; errors := [] |}.

Definition no_warning (report : string) (v : ValidationResult) : string :=
  report.

Definition auth_error (n : nat) : string + exn :=
  inr (AgentError "401 Unauthorized").

(** A world whose agent runtime fails with a non-retryable error. *)
Definition locked_out : world :=
  sample_world sample_host (Some "1") [] 4000 auth_error.

Definition status_of_summaries (pre : Prepared) (w : world) : list json :=
  map (get "run_status") (summaries pre (disk w)).

(** ** quality.py: report validation *)

(** The fragment of [re] used by [validate_report]: character classes,
    greedy repetition of a class, sequence, alternative and the MULTILINE
    [^]; [findall] returns the matched texts, leftmost first, without
    overlap. *)
Module Rx.

Inductive regex : Type :=
| Chr (p : ascii -> bool)       (* one character of a class *)
| Plus (p : ascii -> bool)      (* [class]+, greedy *)
| Cat (r1 r2 : regex)
| Or (r1 r2 : regex)
| Bol.                          (* ^ under MULTILINE *)

(** Zero or more characters of the class, the longest run first. *)
Fixpoint star (p : ascii -> bool) (prev : option ascii) (s : string)
    (k : option ascii -> string -> option string) : option string :=
  match s with
  | String c s' =>
      if p c then
        match star p (Some c) s' k with
        | Some rest => Some rest
        | None => k prev s
        end
      else k prev s
  | EmptyString => k prev s
  end.

(** [run r prev s k]: the first way, in the order of a backtracking
    matcher, in which [r] matches a prefix of [s] and [k] accepts what
    follows; the result is what [k] returns, the text left over. *)
Fixpoint run (r : regex) (prev : option ascii) (s : string)
    (k : option ascii -> string -> option string) : option string :=
  match r with
  | Chr p =>
      match s with
      | String c s' => if p c then k (Some c) s' else None
      | EmptyString => None
      end
  | Plus p =>
      match s with
      | String c s' => if p c then star p (Some c) s' k else None
      | EmptyString => None
      end
  | Cat r1 r2 => run r1 prev s (fun p s' => run r2 p s' k)
  | Or r1 r2 =>
      match run r1 prev s k with
      | Some rest => Some rest
      | None => run r2 prev s k
      end
  | Bol =>
      match prev with
      | None => k prev s
      | Some c => if Ascii.eqb c (ascii_of_nat 10) then k prev s else None
      end
  end.

(** The length of the match of [r] at the start of [s], if any. *)
Definition match_length (r : regex) (prev : option ascii) (s : string)
  : option nat :=
  match run r prev s (fun _ rest => Some rest) with
  | Some rest => Some (String.length s - String.length rest)%nat
  | None => None
  end.

(** [findall]: scan from left to right; [skip] characters still belong to
    the last match. An empty match is recorded and the scan moves on by
    one character. *)
Fixpoint scan (r : regex) (skip : nat) (prev : option ascii) (s : string)
  : list string :=
  match skip with
  | S n =>
      match s with
      | String c s' => scan r n (Some c) s'
      | EmptyString => []
      end
  | O =>
      match match_length r prev s with
      | Some n =>
          substring 0 n s
          :: match s with
             | String c s' => scan r (Nat.pred n) (Some c) s'
             | EmptyString => []
             end
      | None =>
          match s with
          | String c s' => scan r O (Some c) s'
          | EmptyString => []
          end
      end
  end.

Definition findall (r : regex) (s : string) : list string := scan r O None s.

(** The text [l], character by character. *)
Fixpoint lit (same : ascii -> ascii -> bool) (l : string) (last : regex)
  : regex :=
  match l with
  | EmptyString => last
  | String c l' => Cat (Chr (same c)) (lit same l' last)
  end.

End Rx.

Module Quality.

(** Two characters are the same under re.IGNORECASE. *)
Definition same_ignoring_case (a c : ascii) : bool :=
  Ascii.eqb (PyStr.lower_char a) (PyStr.lower_char c).

Definition backtick : ascii := ascii_of_nat 96.

(** r"As a " with re.IGNORECASE *)
Definition story_pattern : Rx.regex :=
  Rx.lit same_ignoring_case "As a" (Rx.Chr (same_ignoring_case " ")).

(** r"`[^`]+(?:/|\\)[^`]+`" *)
Definition evidence_path_pattern : Rx.regex :=
  Rx.Cat (Rx.Chr (Ascii.eqb backtick))
    (Rx.Cat (Rx.Plus (fun c => negb (Ascii.eqb c backtick)))
       (Rx.Cat (Rx.Or (Rx.Chr (Ascii.eqb "/")) (Rx.Chr (Ascii.eqb "\")))
          (Rx.Cat (Rx.Plus (fun c => negb (Ascii.eqb c backtick)))
             (Rx.Chr (Ascii.eqb backtick))))).

(** r"^\|" with re.MULTILINE *)
Definition table_row_pattern : Rx.regex :=
  Rx.Cat Rx.Bol (Rx.Chr (Ascii.eqb "|")).

(** [sub in s] *)
Fixpoint contains (sub s : string) : bool :=
  PyStr.is_prefix sub s
  || match s with
     | String _ s' => contains sub s'
     | EmptyString => false
     end.

Definition required_sections : list string :=
  ["## 1."; "## 2."; "## 3."; "## 4."; "## 5."; "## 6."; "## 7."; "## 8."].

Definition missing_section (section : string) : string :=
  "Missing required section heading: " ++ section.

(** [validate_report] *)
Definition validate_report (report : string) (min_stories min_evidence : Z)
  : ValidationResult :=
  let errors :=
    map missing_section
      (filter (fun section => negb (contains section report)) required_sections) in
  let story_count := Z.of_nat (List.length (Rx.findall story_pattern report)) in
  let errors :=
    if story_count <? min_stories then
      (errors ++ [("User story count too low: " ++ PyStr.of_int story_count
                   ++ " < " ++ PyStr.of_int min_stories)%string])%list
    else errors in
  let evidence_paths := Rx.findall evidence_path_pattern report in
  let evidence_rows :=
    Z.of_nat (List.length (Rx.findall table_row_pattern report)) in
  let evidence_count :=
    Z.max (Z.of_nat (List.length (nodup string_dec evidence_paths)))
          evidence_rows in
  let errors :=
    if evidence_count <? min_evidence then
      (errors ++ [("Evidence count too low: " ++ PyStr.of_int evidence_count
                   ++ " < " ++ PyStr.of_int min_evidence)%string])%list
    else errors in
  {| v_min_stories := min_stories; v_min_evidence := min_evidence;
     story_count := story_count; evidence_count := evidence_count;
     errors := errors |}.

(** [append_quality_warning] *)
Definition append_quality_warning (report : string) (validation : ValidationResult)
  : string :=
  if passed validation then report
  else
    let lines :=
      ([ ""; "---"; ""; "## Quality Warning"; "";
         "This report failed one or more automatic quality checks.";
         ("- Story count: " ++ PyStr.of_int (story_count validation)
          ++ " (minimum " ++ PyStr.of_int (v_min_stories validation) ++ ")")%string;
         ("- Evidence count: " ++ PyStr.of_int (evidence_count validation)
          ++ " (minimum " ++ PyStr.of_int (v_min_evidence validation) ++ ")")%string;
         ""; "Validation issues:" ]
       ++ map (fun err => ("- " ++ err)%string) (errors validation))%list in
    (PyStr.rstrip report ++ PyStr.nl ++ PyStr.join_lines lines ++ PyStr.nl)%string.

(** The places of [s] at which [sub] starts. *)
Fixpoint occurrences (sub s : string) : nat :=
  (if PyStr.is_prefix sub s then 1 else 0)
  + match s with
    | String _ s' => occurrences sub s'
    | EmptyString => 0
    end.

(** The last character of [h] is not whitespace. *)
Fixpoint ends_solid (h : string) : bool :=
  match h with
  | EmptyString => false
  | String a EmptyString => negb (PyStr.isspace a)
  | String _ h' => ends_solid h'
  end.

(** A short report, for the examples. *)
Definition sample_report : string :=
  "## 1. Summary" ++ PyStr.nl
  ++ "as a user, AS A admin" ++ PyStr.nl
  ++ "| story | `src/app.py` |" ++ PyStr.nl
  ++ "| story | `src\app.py` and `src/app.py` and `README` |" ++ PyStr.nl.

End Quality.

(** ** Kinds of audit event *)

(** The three kinds of event the shell entry points log: a command stopped
    by the deny-list (no process: no status, no duration, no output), a
    command that timed out (no status) and a command that exited (a
    status). *)
Definition well_formed_event (e : json) : bool :=
  match get "blocked" e, get "timed_out" e, get "exit_code" e with
  | JBool true, JBool false, JNull =>
      match get "duration_ms" e, get "stdout" e, get "stderr" e,
            get "block_reason" e with
      | JInt 0, JStr "", JStr "", JStr "unsafe_command_pattern" => true
      | _, _, _, _ => false
      end
  | JBool false, JBool true, JNull =>
      match get "block_reason" e with JStr "" => true | _ => false end
  | JBool false, JBool false, JInt _ =>
      match get "block_reason" e with JStr "" => true | _ => false end
  | _, _, _ => false
  end.

(** Every event of the logger is of one of the three kinds. *)
Definition well_kept (w : world) : Prop :=
  forallb well_formed_event (events w) = true.

(** The event exited with status zero. *)
Definition succeeded (e : json) : bool :=
  match get "exit_code" e with JInt 0 => true | _ => false end.

(** The world after a batch with a success, a failure and a timeout. *)
Definition busy : world :=
  snd (build_code_shell_function_tool "/repo" None
         (Some ["ls"; "false"; "sleep 999"; "ls"]) 2000 calm).

(** ** Time spent waiting by the run driver *)

(** The sum of a list of delays. *)
Definition total (delays : list Q) : Q := fold_right Qplus 0%Q delays.

(** The calls of the agent in a trace. *)
Definition agent_calls (t : list action) : nat :=
  List.length (filter (fun a => match a with AgentRun _ _ => true | _ => false end) t).

(** What the driver did in a run: it called the agent [k + 1] times and
    slept backoff x (2^k - 1) seconds in all, which is at most
    backoff x (2^retries - 1). *)
Definition waited_in_all (retries : Z) (backoff_seconds : Q) (w : world)
    (run : result string * world) : Prop :=
  exists acts k,
    trace (snd run) = (trace w ++ acts)%list
    /\ 0 <= k <= Z.max 0 retries
    /\ Z.of_nat (agent_calls acts) = k + 1
    /\ (total (sleeps acts) == backoff_seconds * inject_Z (2 ^ k - 1))%Q
    /\ (total (sleeps acts)
        <= backoff_seconds * inject_Z (2 ^ Z.max 0 retries - 1))%Q.

(** ** What a run leaves on disk *)

(** [after w writes acts]: [w] after the file writes [writes] and the
    interactions [acts]. *)
Definition after (w : world) (writes : list fs_write) (acts : list action)
  : world :=
  with_disk (disk w ++ writes) (with_trace (trace w ++ acts) w).

(** The text files among some writes: path and content, oldest first. *)
Definition text_writes (writes : list fs_write) : list (string * string) :=
  flat_map (fun f => match f with
                     | WriteText p text => [(p, text)]
                     | _ => []
                     end) writes.

(** The input of the agent in [run_analysis]. *)
Definition analysis_input : string :=
  "Analyze the target repository now and produce the full markdown report.".

(** The input of the agent in [run_code_agent]. *)
Definition coding_input : string :=
  "Start now. Make the required code changes and then summarize exactly what changed.".


(** [run_analysis] after an agent run that raised [exc]: the same exception
    is raised, no text file is written, and the summary has the status
    failed, the message of the exception, no validation and no report path
    (unless a report was already there). *)
Definition analysis_failed (pre : Prepared) (w : world) (exc : exn)
    (run : result AnalysisRunResult * world) : Prop :=
  exists writes payload,
    fst run = Raise exc
    /\ disk (snd run) = (disk w ++ writes)%list
    /\ text_writes writes = []
    /\ summaries pre writes = [payload]
    /\ get "run_status" payload = JStr "failed"
    /\ get "error_message" payload = JStr (exn_message exc)
    /\ get "report_path" payload
       = JStr (if path_exists (run_dir pre ++ "/report.md") w
               then (run_dir pre ++ "/report.md")%string else "")
    /\ get "output_copy_path" payload = JStr ""
    /\ get "passed" (get "validation" payload) = JNull.


(** Arguments with an output copy. *)
Definition copy_args : Namespace :=
  {| repo := "https://example.org/demo.git"; model := "gpt-5.1-codex";
     output_arg := "out/report.md"; max_turns_arg := 30; min_stories := 15;
     min_evidence := 25; retries_arg := 3; retry_backoff_seconds := 2;
     task := "Fix the build"; analysis_report := ""; codex_profile := "";
     codex_timeout_seconds := 600 |}.

(** ** The MCP servers of a coding run *)

Definition is_print (a : action) : bool :=
  match a with Printed _ => true | _ => false end.



(** What the run driver does: call the agent, announce a retry, sleep. *)
Definition is_driver_action (a : action) : bool :=
  match a with AgentRun _ _ | PrintRetry _ _ | Sleep _ => true | _ => false end.

(** The servers of [build_local_mcp_servers] that connect in [w]. *)
Definition active_servers_of (w : world) : list string :=
  filter (fun s => existsb (String.eqb s) (mcp_connects w)) ["filesystem"; "git"].

(** The life of the MCP servers in a coding run: not installed, nothing is
    connected and the agent is not called; otherwise the servers that
    connect are connected once, closed once, and the agent is called only
    in between, and not at all when no server connected. *)
Definition mcp_session (w : world) (run : result CodeRunResult * world)
  : Prop :=
  exists acts,
    trace (snd run) = (trace w ++ acts)%list
    /\ if mcp_installed w then
         exists session tail,
           acts = (ConnectServers (active_servers_of w)
                   :: session ++ CloseServers :: tail)%list
           /\ forallb is_print tail = true
           /\ forallb (fun a => is_driver_action a || is_print a) session = true
           /\ (active_servers_of w = [] ->
               session = []
               /\ fst run
                  = Raise (RuntimeError "No MCP servers connected successfully."))
       else
         forallb is_print acts = true
         /\ exists msg, fst run = Raise (FileNotFoundError msg).

(** A world in which no MCP server starts. *)
Definition offline : world :=
  {| os_name := "posix"; pwsh_on_path := false;
     SHELL_AUTO_APPROVE := Some "1"; utcnow := "2026-01-01T00:00:00";
     console_in := []; host := sample_host; runner_run := idle_agent;
     agent_runs := 0; mcp_installed := true; mcp_connects := [];
     files := fun _ => None; write_error := fun _ => None;
     log_path := "/ws/run/commands.jsonl"; max_output_chars := 4000;
     events := []; disk := []; trace := [] |}.

(** ** The commands of a batch *)

(** A command as the function tools issue it: not empty, and with no
    whitespace at either end. *)
Definition clean (c : string) : Prop := c <> "" /\ PyStr.strip c = c.

(** The arguments of a tool call, in the order the tool reads them. *)
Definition given (command : option string) (commands : option (list string))
  : list string :=
  (match command with Some c => [c] | None => [] end)
  ++ (match commands with Some cs => cs | None => [] end).

(** The commands a trace speaks of: checked against a deny-list, shown at
    the gate, or handed to the process launcher. *)
Definition commands_in (t : list action) : list string :=
  flat_map (fun a => match a with
                     | Checked c _ => [c]
                     | Gate cs _ => cs
                     | Spawn args _ _ => [command_of args]
                     | _ => []
                     end) t.

(** ** What the agent sees and what the log keeps *)

(** The event [e] is the record of the output [o], under a budget of
    [budget] characters: the same command and exit code, the same outputs
    cut to the budget, and timed_out set exactly for a timeout. *)
Definition logged_as (budget : Z) (o : ShellCommandOutput) (e : json) : Prop :=
  get "command" e = JStr (out_command o)
  /\ get "stdout" e = JStr (_truncate_text (out_stdout o) budget)
  /\ get "stderr" e = JStr (_truncate_text (out_stderr o) budget)
  /\ get "exit_code" e = JOptInt (outcome_exit_code (out_outcome o))
  /\ get "timed_out" e
     = JBool (String.eqb (outcome_type (out_outcome o)) "timeout").

(** The outcome is an exit with a status, or a timeout without one. *)
Definition outcome_ok (o : ShellCommandOutput) : Prop :=
  (outcome_type (out_outcome o) = "exit"
   /\ exists n, outcome_exit_code (out_outcome o) = Some n)
  \/ (outcome_type (out_outcome o) = "timeout"
      /\ outcome_exit_code (out_outcome o) = None).

(** The reply [res] of [ShellExecutor.__call__] and the events it logged
    between the worlds [w] and [w']. *)
Definition reply_matches_log (cwd : string) (w : world) (res : ShellResult)
    (w' : world) : Prop :=
  working_directory res = cwd
  /\ exists evs,
       events w' = (events w ++ evs)%list
       /\ Forall2 (logged_as (max_output_chars w)) (output res) evs
       /\ Forall outcome_ok (output res)
       /\ Forall (fun o => outcome_type (out_outcome o) = "exit")
            (removelast (output res)).

(** A request for one command. *)
Definition ls_request : ShellAction :=
  {| action_commands := ["ls"]; action_timeout_ms := None |}.

(** ** The two deny-lists, read as predicates on the command text *)

(** The text does not go on with a word character. *)
Definition word_ends (rest : string) : bool :=
  negb (Re.is_word_opt (Re.next_char rest)).

(** [s] starts with the word [kw]: the text [kw], and then no word
    character. *)
Definition starts_with_word (kw s : string) : bool :=
  PyStr.is_prefix kw s && word_ends (PyStr.drop (String.length kw) s).

(** [s] starts with whitespace. *)
Definition starts_blank (s : string) : bool :=
  match s with String c _ => PyStr.isspace c | EmptyString => false end.

(** [s] starts with "git", whitespace and the word [sub]. *)
Definition starts_with_git (sub s : string) : bool :=
  PyStr.is_prefix "git" s
  && starts_blank (PyStr.drop 3 s)
  && starts_with_word sub (PyStr.lstrip (PyStr.drop 3 s)).

(** The commands the chat tool refuses: after leading whitespace, the first
    word is rm, mv, dd, mkfs, shutdown or reboot, or the command starts
    with git reset or git clean. *)
Definition first_word_denied (command_text : string) : bool :=
  let s := PyStr.lstrip command_text in
  existsb (fun kw => starts_with_word kw s)
    ["rm"; "mv"; "dd"; "mkfs"; "shutdown"; "reboot"]
  || starts_with_git "reset" s
  || starts_with_git "clean" s.

(** The first character after leading whitespace, if any. *)
Definition first_char (command_text : string) : option ascii :=
  Re.next_char (PyStr.lstrip command_text).

Definition is_one_of (letters : string) (c : option ascii) : bool :=
  match c with
  | Some c => existsb (Ascii.eqb c) (list_ascii_of_string letters)
  | None => false
  end.

(** [s] starts with the text [w], then whitespace, then what [next]
    accepts. *)
Definition word_then (w : string) (next : string -> bool) (s : string) : bool :=
  PyStr.is_prefix w s
  && starts_blank (PyStr.drop (String.length w) s)
  && next (PyStr.lstrip (PyStr.drop (String.length w) s)).

(** The seven forms the code tool refuses, at the start of [s]. *)
Definition dangerous (s : string) : bool :=
  word_then "rm" (word_then "-rf" (PyStr.is_prefix "/")) s
  || starts_with_word "mkfs" s
  || starts_with_word "shutdown" s
  || starts_with_word "reboot" s
  || word_then "dd" (PyStr.is_prefix "if=") s
  || word_then "git" (word_then "reset" (starts_with_word "--hard")) s
  || word_then "git" (word_then "clean" (starts_with_word "-fdx")) s.

(** One of the forms starts right after a whitespace character of [s]. *)
Fixpoint dangerous_after_blank (s : string) : bool :=
  match s with
  | EmptyString => false
  | String c s' => (PyStr.isspace c && dangerous s') || dangerous_after_blank s'
  end.

(** The commands the code tool refuses: one of the forms at the very start
    or right after whitespace. *)
Definition danger_in (command_text : string) : bool :=
  dangerous command_text || dangerous_after_blank command_text.

(** A pattern that starts with a literal whose first character is not
    whitespace. *)
Definition solid (r : Re.regex) : Prop :=
  exists a w, PyStr.isspace a = false
              /\ (r = Re.Lit (String a w) \/ exists r', r = Re.Seq (Re.Lit (String a w)) r').

(** A test of the start of a text that more text after it cannot undo. *)
Definition lasting (x : string) (next : string -> bool) : Prop :=
  next "" = false /\ forall t, next t = true -> next (t ++ x)%string = true.

(** Writes of text files only. *)
Definition texts_only (writes : list fs_write) : Prop :=
  forall f, In f writes -> exists p t, f = WriteText p t.

(** ** The codex_cli backend of a coding run *)






(** * Verification *)



(** ** The effect of a coroutine on the world *)

Lemma advance_nil w : advance w [] [] = w.
Proof. destruct w; unfold advance; cbn. now rewrite !app_nil_r. Qed.

Lemma advance_advance w e1 t1 e2 t2 :
  advance (advance w e1 t1) e2 t2 = advance w (e1 ++ e2) (t1 ++ t2).
Proof.
  destruct w; unfold advance; cbn.
  now rewrite map_app, !app_assoc.
Qed.

Lemma emit_advance a w : emit a w = (Ok tt, advance w [] [a]).
Proof. destruct w; unfold emit, modify, advance; cbn. now rewrite !app_nil_r. Qed.

Lemma log_advance source cwd command timeout_ms timed_out exit_code
      duration_ms stdout stderr blocked reason w :
  log source cwd command timeout_ms timed_out exit_code duration_ms
      stdout stderr blocked reason w
  = (Ok tt,
     advance w
       [command_event (utcnow w) (max_output_chars w) source cwd command
          timeout_ms timed_out exit_code duration_ms stdout stderr blocked
          reason] []).
Proof. destruct w; unfold advance; cbn. now rewrite !app_nil_r. Qed.

Lemma with_console_in_same w : with_console_in (console_in w) w = w.
Proof. now destruct w. Qed.

Ltac exec :=
  repeat first
    [ rewrite emit_advance
    | rewrite log_advance
    | rewrite advance_advance
    | progress cbn [ret raise behaviour argv app] ].

Ltac open_step :=
  unfold _run_exec, create_subprocess_exec, wait_for_communicate, kill,
    communicate, check, print;
  unfold bind, gets.

(** ** What the trace and the log say *)

Lemma command_of_invocation w c : command_of (_shell_invocation w c) = c.
Proof.
  unfold command_of, _shell_invocation.
  destruct (_is_windows w); [destruct (pwsh_on_path w)|]; reflexivity.
Qed.

Lemma attempted_app t1 t2 : attempted (t1 ++ t2) = (attempted t1 ++ attempted t2)%list.
Proof. apply flat_map_app. Qed.

Lemma recorded_app t1 t2 : recorded (t1 ++ t2) = (recorded t1 ++ recorded t2)%list.
Proof. apply flat_map_app. Qed.

(** ** One iteration of each execution loop *)

Lemma code_exec_step_fail cwd timeout_ms c rest parts w msg :
  host w (_shell_invocation w c) = SpawnFails msg ->
  code_exec_loop cwd timeout_ms (c :: rest) parts w
  = (Raise (OSError msg),
     advance w [] [Spawn (_shell_invocation w c) cwd false]).
Proof.
  intros H. cbn [code_exec_loop]. open_step. rewrite H. now exec.
Qed.

Lemma code_exec_step_timeout cwd timeout_ms c rest parts w p :
  host w (_shell_invocation w c) = Starts p ->
  finishes_within p (max1 (seconds_of_ms timeout_ms)) = false ->
  code_exec_loop cwd timeout_ms (c :: rest) parts w
  = (Ok ((parts ++ [("$ " ++ c)%string]) ++ code_timeout_reply timeout_ms)%list,
     advance w [code_event w cwd c timeout_ms p]
       [Spawn (_shell_invocation w c) cwd true;
        Kill (_shell_invocation w c); Drain (_shell_invocation w c)]).
Proof.
  intros H Hf. cbn [code_exec_loop]. open_step. rewrite H. exec.
  unfold code_event, run_event. rewrite Hf. now exec.
Qed.

Lemma code_exec_step_done cwd timeout_ms c rest parts w p :
  host w (_shell_invocation w c) = Starts p ->
  finishes_within p (max1 (seconds_of_ms timeout_ms)) = true ->
  code_exec_loop cwd timeout_ms (c :: rest) parts w
  = code_exec_loop cwd timeout_ms rest
      ((parts ++ [("$ " ++ c)%string]) ++ exit_reply p)%list
      (advance w [code_event w cwd c timeout_ms p]
         [Spawn (_shell_invocation w c) cwd true]).
Proof.
  intros H Hf. cbn [code_exec_loop]. open_step. rewrite H. exec.
  unfold code_event, run_event. rewrite Hf. now exec.
Qed.

Lemma chat_exec_step_fail cwd timeout_ms timeout_s c rest parts w msg :
  host w (_shell_invocation w c) = SpawnFails msg ->
  chat_exec_loop cwd timeout_ms timeout_s (c :: rest) parts w
  = (Raise (OSError msg),
     advance w [] [Spawn (_shell_invocation w c) cwd false]).
Proof.
  intros H. cbn [chat_exec_loop]. open_step. rewrite H. now exec.
Qed.

Lemma chat_exec_step_timeout cwd timeout_ms timeout_s c rest parts w p :
  host w (_shell_invocation w c) = Starts p ->
  finishes_within p timeout_s = false ->
  chat_exec_loop cwd timeout_ms timeout_s (c :: rest) parts w
  = (Ok ((parts ++ [("$ " ++ c)%string])
         ++ [chat_timeout_text timeout_s; "[exit_code=124]"])%list,
     advance w [chat_event w cwd c timeout_ms timeout_s p]
       [Spawn (_shell_invocation w c) cwd true;
        Kill (_shell_invocation w c); Drain (_shell_invocation w c)]).
Proof.
  intros H Hf. cbn [chat_exec_loop]. open_step. rewrite H. exec.
  unfold chat_event, run_event. rewrite Hf. now exec.
Qed.

Lemma chat_exec_step_done cwd timeout_ms timeout_s c rest parts w p :
  host w (_shell_invocation w c) = Starts p ->
  finishes_within p timeout_s = true ->
  chat_exec_loop cwd timeout_ms timeout_s (c :: rest) parts w
  = chat_exec_loop cwd timeout_ms timeout_s rest
      ((parts ++ [("$ " ++ c)%string]) ++ exit_reply p)%list
      (advance w [chat_event w cwd c timeout_ms timeout_s p]
         [Spawn (_shell_invocation w c) cwd true]).
Proof.
  intros H Hf. cbn [chat_exec_loop]. open_step. rewrite H. exec.
  unfold chat_event, run_event. rewrite Hf. now exec.
Qed.

Lemma executor_step_fail cwd dflt action c rest outs w msg :
  host w (_shell_invocation w c) = SpawnFails msg ->
  executor_loop cwd dflt action (c :: rest) outs w
  = (Raise (OSError msg),
     advance w [] [Spawn (_shell_invocation w c) cwd false]).
Proof.
  intros H. cbn [executor_loop]. open_step. rewrite H. now exec.
Qed.

Lemma executor_step_timeout cwd dflt action c rest outs w p :
  host w (_shell_invocation w c) = Starts p ->
  finishes_within p (executor_timeout action dflt) = false ->
  executor_loop cwd dflt action (c :: rest) outs w
  = (Ok (outs ++ [executor_output c action dflt p])%list,
     advance w [executor_event w cwd c action dflt p]
       [Spawn (_shell_invocation w c) cwd true;
        Kill (_shell_invocation w c); Drain (_shell_invocation w c)]).
Proof.
  intros H Hf. cbn [executor_loop]. open_step. rewrite H. exec.
  unfold executor_event, executor_output, run_event, executor_timeout in *.
  rewrite Hf. now exec.
Qed.

Lemma executor_step_done cwd dflt action c rest outs w p :
  host w (_shell_invocation w c) = Starts p ->
  finishes_within p (executor_timeout action dflt) = true ->
  executor_loop cwd dflt action (c :: rest) outs w
  = executor_loop cwd dflt action rest
      (outs ++ [executor_output c action dflt p])%list
      (advance w [executor_event w cwd c action dflt p]
         [Spawn (_shell_invocation w c) cwd true]).
Proof.
  intros H Hf. cbn [executor_loop]. open_step. rewrite H. exec.
  unfold executor_event, executor_output, run_event, executor_timeout in *.
  rewrite Hf. now exec.
Qed.

(** ** The shape of an execution loop *)

Lemma run_event_command source w cwd c timeout_ms timeout_s p f :
  get "command" (run_event source w cwd c timeout_ms timeout_s p f) = JStr c.
Proof. unfold run_event; now destruct (finishes_within p timeout_s). Qed.

Lemma run_event_blocked source w cwd c timeout_ms timeout_s p f :
  get "blocked" (run_event source w cwd c timeout_ms timeout_s p f) = JBool false.
Proof. unfold run_event; now destruct (finishes_within p timeout_s). Qed.

Lemma attempted_spawn args cwd ok t :
  attempted (Spawn args cwd ok :: t) = command_of args :: attempted t.
Proof. reflexivity. Qed.

Lemma recorded_spawn args cwd t :
  recorded (Spawn args cwd true :: t) = command_of args :: recorded t.
Proof. reflexivity. Qed.

Section ExecLoop.

Context {A : Type}.
Variable loop : list string -> A -> M world A.
Variable cwd : string.
Variable timeout_s : Q.
Variable event : world -> string -> running -> json.

Hypothesis loop_nil : forall acc w, loop [] acc w = (Ok acc, w).
Hypothesis loop_fail : forall c rest acc w msg,
  host w (_shell_invocation w c) = SpawnFails msg ->
  loop (c :: rest) acc w
  = (Raise (OSError msg),
     advance w [] [Spawn (_shell_invocation w c) cwd false]).
Hypothesis loop_timeout : forall c rest acc w p,
  host w (_shell_invocation w c) = Starts p ->
  finishes_within p timeout_s = false ->
  exists acc',
    loop (c :: rest) acc w
    = (Ok acc',
       advance w [event w c p]
         [Spawn (_shell_invocation w c) cwd true;
          Kill (_shell_invocation w c); Drain (_shell_invocation w c)]).
Hypothesis loop_done : forall c rest acc w p,
  host w (_shell_invocation w c) = Starts p ->
  finishes_within p timeout_s = true ->
  exists acc',
    loop (c :: rest) acc w
    = loop rest acc'
        (advance w [event w c p] [Spawn (_shell_invocation w c) cwd true]).
Hypothesis event_command : forall w c p, get "command" (event w c p) = JStr c.
Hypothesis event_blocked : forall w c p, get "blocked" (event w c p) = JBool false.

Lemma exec_loop_shape cmds :
  forall acc w,
  exists r evs acts,
    loop cmds acc w = (r, advance w evs acts)
    /\ exec_shape cmds evs acts /\ spawn_error r.
Proof.
  induction cmds as [|c rest IH]; intros acc w.
  - exists (Ok acc), [], []. rewrite loop_nil, advance_nil.
    repeat split; cbn; auto; exists 0%nat; reflexivity.
  - destruct (host w (_shell_invocation w c)) as [msg|p] eqn:Hh.
    + exists (Raise (OSError msg)), [], [Spawn (_shell_invocation w c) cwd false].
      rewrite (loop_fail _ _ _ _ _ Hh). split; [reflexivity|]. split.
      * split; cbn; auto.
        -- exists 1%nat. now rewrite command_of_invocation.
        -- exists 0%nat. reflexivity.
      * cbn. eauto.
    + destruct (finishes_within p timeout_s) eqn:Hf.
      * destruct (loop_done c rest acc w p Hh Hf) as [acc' Hd].
        destruct (IH acc' (advance w [event w c p]
                             [Spawn (_shell_invocation w c) cwd true]))
          as (r & evs & acts & Hr & [Hp Hl [ka Ha] [kr Hk] Hu] & He).
        exists r, (event w c p :: evs),
          (Spawn (_shell_invocation w c) cwd true :: acts).
        rewrite Hd, Hr, advance_advance. split; [reflexivity|].
        split; [|exact He]. split.
        -- exact Hp.
        -- unfold logged_commands in *. rewrite recorded_spawn. cbn [map].
           now rewrite event_command, Hl, command_of_invocation.
        -- exists (S ka).
           now rewrite attempted_spawn, Ha, command_of_invocation.
        -- exists (S kr).
           now rewrite recorded_spawn, Hk, command_of_invocation.
        -- constructor; auto.
      * destruct (loop_timeout c rest acc w p Hh Hf) as [acc' Ht].
        exists (Ok acc'), [event w c p],
          [Spawn (_shell_invocation w c) cwd true;
           Kill (_shell_invocation w c); Drain (_shell_invocation w c)].
        rewrite Ht. split; [reflexivity|]. split; [|exact I].
        split; cbn; auto.
        -- unfold logged_commands. cbn.
           now rewrite event_command, command_of_invocation.
        -- exists 1%nat. now rewrite command_of_invocation.
        -- exists 1%nat. now rewrite command_of_invocation.
Qed.

End ExecLoop.

Lemma code_exec_loop_shape cwd timeout_ms cmds parts w :
  exists r evs acts,
    code_exec_loop cwd timeout_ms cmds parts w = (r, advance w evs acts)
    /\ exec_shape cmds evs acts /\ spawn_error r.
Proof.
  apply (exec_loop_shape (code_exec_loop cwd timeout_ms) cwd
           (max1 (seconds_of_ms timeout_ms))
           (fun w c p => code_event w cwd c timeout_ms p)).
  - reflexivity.
  - intros. now apply code_exec_step_fail.
  - intros. eexists. now apply code_exec_step_timeout.
  - intros. eexists. now apply code_exec_step_done.
  - intros. apply run_event_command.
  - intros. apply run_event_blocked.
Qed.

Lemma chat_exec_loop_shape cwd timeout_ms timeout_s cmds parts w :
  exists r evs acts,
    chat_exec_loop cwd timeout_ms timeout_s cmds parts w = (r, advance w evs acts)
    /\ exec_shape cmds evs acts /\ spawn_error r.
Proof.
  apply (exec_loop_shape (chat_exec_loop cwd timeout_ms timeout_s) cwd timeout_s
           (fun w c p => chat_event w cwd c timeout_ms timeout_s p)).
  - reflexivity.
  - intros. now apply chat_exec_step_fail.
  - intros. eexists. now apply chat_exec_step_timeout.
  - intros. eexists. now apply chat_exec_step_done.
  - intros. apply run_event_command.
  - intros. apply run_event_blocked.
Qed.

Lemma executor_loop_shape cwd dflt action cmds outs w :
  exists r evs acts,
    executor_loop cwd dflt action cmds outs w = (r, advance w evs acts)
    /\ exec_shape cmds evs acts /\ spawn_error r.
Proof.
  apply (exec_loop_shape (executor_loop cwd dflt action) cwd
           (executor_timeout action dflt)
           (fun w c p => executor_event w cwd c action dflt p)).
  - reflexivity.
  - intros. now apply executor_step_fail.
  - intros. eexists. now apply executor_step_timeout.
  - intros. eexists. now apply executor_step_done.
  - intros. apply run_event_command.
  - intros. apply run_event_blocked.
Qed.

(** ** The deny-list loop *)

Lemma deny_loop_run pattern source cwd timeout_ms cmds :
  forall w,
  deny_loop pattern source cwd timeout_ms cmds w =
  match find (Re.search pattern) cmds with
  | Some c0 =>
      (Ok (Some (blocked_reply c0)),
       advance w [blocked_event w source cwd c0 timeout_ms] (checks pattern cmds))
  | None => (Ok None, advance w [] (checks pattern cmds))
  end.
Proof.
  induction cmds as [|c rest IH]; intros w.
  - cbn. now rewrite advance_nil.
  - cbn [deny_loop find checks]. open_step. exec.
    destruct (Re.search pattern c).
    + now exec.
    + rewrite IH. destruct (find (Re.search pattern) rest); now exec.
Qed.

Lemma checks_miss pattern cmds :
  find (Re.search pattern) cmds = None ->
  checks pattern cmds = map (fun c => Checked c false) cmds.
Proof.
  induction cmds as [|c rest IH]; cbn; [easy|].
  destruct (Re.search pattern c); [discriminate|]. intros H. now rewrite IH.
Qed.

Lemma checks_only pattern cmds : forallb is_check (checks pattern cmds) = true.
Proof.
  induction cmds as [|c rest IH]; cbn; [easy|].
  now destruct (Re.search pattern c).
Qed.

Lemma checks_recorded pattern cmds :
  recorded (checks pattern cmds)
  = match find (Re.search pattern) cmds with Some c0 => [c0] | None => [] end.
Proof.
  induction cmds as [|c rest IH]; cbn; [easy|].
  destruct (Re.search pattern c); [reflexivity|]. exact IH.
Qed.

Lemma checks_attempted pattern cmds :
  attempted (checks pattern cmds) = recorded (checks pattern cmds).
Proof.
  induction cmds as [|c rest IH]; cbn; [easy|].
  destruct (Re.search pattern c); [reflexivity|]. exact IH.
Qed.

(** ** The approval gate *)

Lemma print_all_run lines :
  forall w, print_all lines w = (Ok tt, advance w [] (map Printed lines)).
Proof.
  induction lines as [|l rest IH]; intros w; cbn [print_all map].
  - cbn. now rewrite advance_nil.
  - open_step. exec. rewrite IH. now exec.
Qed.

Lemma input_line prompt w line rest :
  console_in w = line :: rest ->
  input prompt w
  = (Ok line, advance (with_console_in rest w) [] [Input prompt (Some line)]).
Proof.
  intros H. unfold input. rewrite H. destruct w; unfold advance; cbn.
  now rewrite !app_nil_r.
Qed.

Lemma input_eof prompt w :
  console_in w = [] ->
  input prompt w = (Raise EOFError, advance w [] [Input prompt None]).
Proof.
  intros H. unfold input. rewrite H. destruct w; unfold advance; cbn.
  now rewrite !app_nil_r.
Qed.

Lemma require_approval_run cmds w :
  exists r w0 acts,
    gate_run cmds w r w0 acts
    /\ require_approval cmds w = (r, advance w0 [] acts).
Proof.
  unfold require_approval. open_step.
  destruct (env_is (SHELL_AUTO_APPROVE w) "1") eqn:Hflag.
  - exists (Ok tt), w, [Gate cmds true]. split; [now constructor|]. now exec.
  - exec. rewrite print_all_run. exec.
    destruct (console_in w) as [|line rest] eqn:Hin.
    + exists (Raise EOFError), w, (approval_prompt cmds ++ [Input "Proceed? [y/N] " None])%list.
      split; [now constructor|].
      rewrite input_eof by exact Hin. now exec.
    + rewrite (input_line _ _ line rest) by exact Hin.
      fold (answer_of line).
      destruct (answer_of line) eqn:Hans.
      * exists (Ok tt), (with_console_in rest w),
          (approval_prompt cmds
           ++ [Input "Proceed? [y/N] " (Some line); Gate cmds true])%list.
        split; [now constructor|].
        change (advance (with_console_in rest (advance w [] ?t)) [] ?u)
          with (advance (advance (with_console_in rest w) [] t) [] u).
        now exec.
      * exists (Raise rejected), (with_console_in rest w),
          (approval_prompt cmds
           ++ [Input "Proceed? [y/N] " (Some line); Gate cmds false])%list.
        split; [now constructor|].
        change (advance (with_console_in rest (advance w [] ?t)) [] ?u)
          with (advance (advance (with_console_in rest w) [] t) [] u).
        now exec.
Qed.

(** Facts about the interactions of the gate. *)
Lemma approval_prompt_console cmds :
  forallb is_console (approval_prompt cmds) = true.
Proof.
  unfold approval_prompt. cbn. induction cmds; cbn; auto.
Qed.

Lemma gate_run_granted cmds w w0 acts :
  gate_run cmds w (Ok tt) w0 acts ->
  exists pre, acts = (pre ++ [Gate cmds true])%list
              /\ forallb is_console pre = true.
Proof.
  inversion 1; subst.
  - exists []. now split.
  - exists (approval_prompt cmds ++ [Input "Proceed? [y/N] " (Some line)])%list.
    rewrite <- app_assoc. split; [reflexivity|].
    rewrite forallb_app, approval_prompt_console. reflexivity.
Qed.

Lemma gate_run_refused cmds w e w0 acts :
  gate_run cmds w (Raise e) w0 acts ->
  forallb (fun a => is_console a || is_gate a) acts = true
  /\ ~ In (Gate cmds true) acts.
Proof.
  assert (Hc : forall l, forallb is_console l = true ->
                         forallb (fun a => is_console a || is_gate a) l = true).
  { induction l; cbn; auto. destruct (is_console a); cbn; auto. discriminate. }
  assert (Hn : forall l b, forallb is_console l = true -> ~ In (Gate cmds b) l).
  { induction l; cbn; [tauto|]. intros b Hl [->|Hin]; [discriminate|].
    apply andb_prop in Hl. now apply (IHl b). }
  inversion 1; subst.
  - split.
    + rewrite forallb_app, Hc by apply approval_prompt_console. reflexivity.
    + intros Hin. apply in_app_or in Hin as [Hin|[Hin|[Hin|[]]]]; try discriminate.
      now apply (Hn _ _ (approval_prompt_console cmds)) in Hin.
  - split.
    + rewrite forallb_app, Hc by apply approval_prompt_console. reflexivity.
    + intros Hin. apply in_app_or in Hin as [Hin|[Hin|[]]]; try discriminate.
      now apply (Hn _ _ (approval_prompt_console cmds)) in Hin.
Qed.

(** ** The paths through the shell entry points *)

Lemma code_tool_skeleton cwd command commands timeout_ms :
  build_code_shell_function_tool cwd command commands timeout_ms
  = shell_tool unsafe "code_shell_function"
      (fun cmds => code_exec_loop cwd timeout_ms cmds []) cwd timeout_ms
      (command_list command commands).
Proof. reflexivity. Qed.

Lemma chat_tool_skeleton cwd command commands timeout_ms :
  build_chat_shell_function_tool cwd command commands timeout_ms
  = shell_tool disallowed "azure_shell_function"
      (fun cmds => chat_exec_loop cwd timeout_ms
                     (max1 (seconds_of_ms timeout_ms)) cmds [])
      cwd timeout_ms (command_list command commands).
Proof. reflexivity. Qed.

Lemma gate_run_advance cmds w evs acts r w0 ga :
  gate_run cmds (advance w evs acts) r w0 ga ->
  exists w1, gate_run cmds w r w1 ga /\ w0 = advance w1 evs acts.
Proof.
  inversion 1; subst; eexists;
    (split; [econstructor; eassumption | reflexivity]).
Qed.

Section Skeleton.

Variable pattern : Re.regex.
Variable source : string.
Variable exec : list string -> M world (list string).
Variable cwd : string.
Variable timeout_ms : Z.

Hypothesis exec_loop_shape : forall cmds w,
  exists r evs acts,
    exec cmds w = (r, advance w evs acts)
    /\ exec_shape cmds evs acts /\ spawn_error r.

Lemma shell_tool_path cmds w :
  exists r w0 evs acts,
    shell_tool pattern source exec cwd timeout_ms cmds w
    = (r, advance w0 evs acts)
    /\ tool_path pattern source cwd timeout_ms cmds w r w0 evs acts.
Proof.
  destruct cmds as [|c rest].
  - exists (Ok "No command provided."), w, [], []. cbn.
    rewrite advance_nil. split; [reflexivity|now constructor].
  - unfold shell_tool. cbv iota.
    remember (c :: rest) as cmds eqn:Hc.
    assert (Hne : cmds <> []) by (rewrite Hc; discriminate).
    clear Hc. unfold bind at 1.
    rewrite deny_loop_run.
    destruct (find (Re.search pattern) cmds) as [c0|] eqn:Hfind.
    + exists (Ok (blocked_reply c0)), w,
        [blocked_event w source cwd c0 timeout_ms], (checks pattern cmds).
      split; [reflexivity|now constructor].
    + unfold bind at 1.
      destruct (require_approval_run cmds (advance w [] (checks pattern cmds)))
        as (rg & w0 & ga & Hg & Hrun).
      rewrite Hrun.
      destruct (gate_run_advance _ _ _ _ _ _ _ Hg) as (w1 & Hg1 & ->). rewrite advance_advance. cbn [app].
      destruct rg as [[]|e].
      * unfold bind.
        destruct (exec_loop_shape cmds (advance w1 [] (checks pattern cmds ++ ga)))
          as (r & evs & xa & Hx & Hs & He).
        rewrite Hx, advance_advance. cbn [app].
        exists (match r with Ok parts => Ok (PyStr.join_lines parts)
                        | Raise e => Raise e end), w1, evs,
          (checks pattern cmds ++ ga ++ xa)%list.
        rewrite <- app_assoc. split; [now destruct r|].
        apply path_executed; auto. now destruct r.
      * exists (Raise e), w1, [], (checks pattern cmds ++ ga)%list.
        split; [reflexivity|]. now apply path_refused.
Qed.

End Skeleton.

Lemma code_tool_path cwd command commands timeout_ms w :
  exists r w0 evs acts,
    build_code_shell_function_tool cwd command commands timeout_ms w
    = (r, advance w0 evs acts)
    /\ tool_path unsafe "code_shell_function" cwd timeout_ms
         (command_list command commands) w r w0 evs acts.
Proof.
  rewrite code_tool_skeleton. apply shell_tool_path.
  intros. apply code_exec_loop_shape.
Qed.

Lemma chat_tool_path cwd command commands timeout_ms w :
  exists r w0 evs acts,
    build_chat_shell_function_tool cwd command commands timeout_ms w
    = (r, advance w0 evs acts)
    /\ tool_path disallowed "azure_shell_function" cwd timeout_ms
         (command_list command commands) w r w0 evs acts.
Proof.
  rewrite chat_tool_skeleton. apply shell_tool_path.
  intros. apply chat_exec_loop_shape.
Qed.

Lemma ShellExecutor_path cwd dflt action w :
  exists r w0 evs acts,
    ShellExecutor_call cwd dflt action w = (r, advance w0 evs acts)
    /\ executor_path (action_commands action) w r w0 evs acts.
Proof.
  unfold ShellExecutor_call. unfold bind at 1.
  destruct (require_approval_run (action_commands action) w)
    as (rg & w0 & ga & Hg & Hrun).
  rewrite Hrun. destruct rg as [[]|e].
  - unfold bind.
    destruct (executor_loop_shape cwd dflt action (action_commands action) []
                (advance w0 [] ga)) as (r & evs & xa & Hx & Hs & He).
    rewrite Hx, advance_advance. cbn [app].
    exists (match r with
            | Ok outs => Ok {| output := outs; working_directory := cwd |}
            | Raise e => Raise e end), w0, evs, (ga ++ xa)%list.
    split; [now destruct r|].
    apply executor_executed; auto. now destruct r.
  - exists (Raise e), w0, [], ga. split; [reflexivity|now constructor].
Qed.

(** ** Sample hosts and worlds *)

(** ** C10: no command *)

Lemma lstrip_blank s : blank s -> PyStr.lstrip s = "".
Proof.
  induction s as [|c s IH]; cbn; [easy|].
  intros H. inversion H as [|? ? Hc Hs]; subst. rewrite Hc. now apply IH.
Qed.

Lemma strip_blank s : blank s -> PyStr.strip s = "".
Proof. intros H. unfold PyStr.strip. now rewrite lstrip_blank. Qed.

Lemma command_list_blank command commands :
  (forall c, command = Some c -> blank c) ->
  (forall cs c, commands = Some cs -> In c cs -> blank c) ->
  command_list command commands = [].
Proof.
  intros H1 H2. unfold command_list.
  replace (match command with
           | Some c => if PyStr.truthy c && PyStr.truthy (PyStr.strip c)
                       then [PyStr.strip c] else []
           | None => [] end) with (@nil string).
  2:{ destruct command as [c|]; [|reflexivity].
      rewrite (strip_blank c) by now apply H1. cbn. now rewrite andb_false_r. }
  destruct commands as [cs|]; [|reflexivity]. cbn [app].
  assert (H : forall c, In c cs -> blank c) by (intros; now apply (H2 cs)).
  clear H1 H2. induction cs as [|c cs IH]; [reflexivity|]. cbn [filter].
  rewrite (strip_blank c) by (apply H; now left). cbn.
  rewrite andb_false_r. apply IH. intros; apply H; now right.
Qed.

(** C10. Called with neither [command] nor [commands], or with only
    whitespace strings in them, each shell tool returns the string
    "No command provided." and leaves the world as it was: no approval is
    requested, no event is logged, no process is spawned. *)
Theorem C10_no_command_no_effect :
  forall cwd command commands timeout_ms w,
    (forall c, command = Some c -> blank c) ->
    (forall cs c, commands = Some cs -> In c cs -> blank c) ->
    build_code_shell_function_tool cwd command commands timeout_ms w
    = (Ok "No command provided.", w)
    /\ build_chat_shell_function_tool cwd command commands timeout_ms w
       = (Ok "No command provided.", w).
Proof.
  intros cwd command commands timeout_ms w H1 H2.
  unfold build_code_shell_function_tool, build_chat_shell_function_tool.
  rewrite (command_list_blank _ _ H1 H2). split; reflexivity.
Qed.

Lemma C10_no_command_no_effect_witness :
  build_code_shell_function_tool "/repo" (Some "   ") (Some [""; "  "]) 120000 calm
  = (Ok "No command provided.", calm)
  /\ build_chat_shell_function_tool "/repo" (Some "   ") (Some [""; "  "]) 120000 calm
     = (Ok "No command provided.", calm).
Proof.
  apply C10_no_command_no_effect.
  - intros c Hc. injection Hc as <-. repeat constructor.
  - intros cs c Hcs Hin. injection Hcs as <-.
    destruct Hin as [<-|[<-|[]]]; repeat constructor.
Defined.

(** ** C9: truncation of the stored output *)

Lemma substring_split n : forall s,
  (n <= String.length s)%nat ->
  exists dropped,
    s = substring 0 n s ++ dropped
    /\ String.length (substring 0 n s) = n
    /\ String.length dropped = (String.length s - n)%nat.
Proof.
  induction n as [|n IH]; intros s Hn.
  - exists s. destruct s; cbn; auto.
  - destruct s as [|c s]; cbn in Hn; [lia|].
    destruct (IH s) as (d & Hs & Hk & Hd); [lia|].
    exists d. cbn. repeat split; auto. now rewrite <- Hs.
Qed.

Lemma truncate_text_stored text budget :
  stored_within budget text (JStr (_truncate_text text budget)).
Proof.
  unfold stored_within, stored_as_claimed, _truncate_text. split.
  - intros H. apply Z.leb_le in H. now rewrite H.
  - intros H. assert (Hb : (budget <=? 0) = false) by now apply Z.leb_gt.
    rewrite Hb. split.
    + intros Hl. apply Z.leb_le in Hl. now rewrite Hl.
    + intros Hl. assert (Hx : (PyStr.len text <=? budget) = false)
        by now apply Z.leb_gt.
      rewrite Hx. unfold PyStr.len in *.
      destruct (substring_split (Z.to_nat budget) text) as (d & Hs & Hk & Hd);
        [lia|].
      exists (PyStr.take budget text), d. unfold PyStr.take.
      repeat split; auto; [lia|].
      change truncation_marker with marker. rewrite Hd.
      replace (Z.of_nat (String.length text - Z.to_nat budget))
        with (Z.of_nat (String.length text) - budget) by lia.
      reflexivity.
Qed.

(** C9 as stated fails: with a budget of 0 the three characters of "abc"
    are dropped and nothing is stored, no marker either. *)
Lemma C9_counterexample :
  let w' := snd (log "shell_tool" "/repo" "ls" 120000 false (Some 0) 100
                     "abc" "" false "" no_budget) in
  exists e, events w' = [e]
            /\ get "stdout" e = JStr ""
            /\ ~ stored_as_claimed (max_output_chars no_budget) "abc"
                   (get "stdout" e).
Proof.
  cbn. eexists. split; [reflexivity|]. split; [reflexivity|].
  intros [_ H]. destruct H as (k & d & _ & _ & H); [reflexivity|].
  destruct k; discriminate H.
Qed.

(** C9, amended. [log] stores exactly one event, whose stdout and stderr are
    the given texts cut to the positive budget [max_output_chars]: a text
    within the budget is stored unchanged, a longer one as its first
    budget-many characters followed by the marker that states how many
    characters were dropped. With a budget of zero or less the stored text
    is empty, without a marker. *)
Theorem C9_stored_output_truncated :
  forall source cwd command timeout_ms timed_out exit_code duration_ms
         stdout stderr blocked reason w,
  exists e,
    log source cwd command timeout_ms timed_out exit_code duration_ms
        stdout stderr blocked reason w
    = (Ok tt, advance w [e] [])
    /\ stored_within (max_output_chars w) stdout (get "stdout" e)
    /\ stored_within (max_output_chars w) stderr (get "stderr" e).
Proof.
  intros. eexists. rewrite log_advance. split; [reflexivity|].
  split; apply truncate_text_stored.
Qed.

(** ** What a run adds to the log and to the trace *)

Lemma gate_run_world cmds w r w0 ga :
  gate_run cmds w r w0 ga -> events w0 = events w /\ trace w0 = trace w.
Proof. inversion 1; subst; split; reflexivity. Qed.

Lemma adds_advance w w0 evs acts :
  events w0 = events w -> trace w0 = trace w ->
  adds w (advance w0 evs acts) evs acts.
Proof. intros He Ht. unfold adds. cbn. now rewrite He, Ht. Qed.

Lemma tool_path_adds pattern source cwd timeout_ms cmds w r w0 evs acts :
  tool_path pattern source cwd timeout_ms cmds w r w0 evs acts ->
  adds w (advance w0 evs acts) evs acts.
Proof.
  inversion 1; subst; try (now apply adds_advance);
    match goal with H : gate_run _ _ _ _ _ |- _ =>
      apply gate_run_world in H as [? ?] end; now apply adds_advance.
Qed.

Lemma executor_path_adds cmds w r w0 evs acts :
  executor_path cmds w r w0 evs acts ->
  adds w (advance w0 evs acts) evs acts.
Proof.
  inversion 1; subst;
    match goal with H : gate_run _ _ _ _ _ |- _ =>
      apply gate_run_world in H as [? ?] end; now apply adds_advance.
Qed.

Lemma quiet_recorded acts :
  forallb (fun a => is_console a || is_gate a) acts = true ->
  recorded acts = [] /\ attempted acts = [].
Proof.
  induction acts as [|a acts IH]; [easy|].
  intros H. cbn [forallb] in H. apply andb_prop in H as [Ha Hr].
  change (a :: acts) with ([a] ++ acts)%list.
  rewrite recorded_app, attempted_app. destruct (IH Hr) as [-> ->].
  destruct a; try discriminate; easy.
Qed.

Lemma gate_run_quiet cmds w r w0 ga :
  gate_run cmds w r w0 ga ->
  forallb (fun a => is_console a || is_gate a) ga = true.
Proof.
  intros H. destruct r as [[]|e].
  - apply gate_run_granted in H as (pre & -> & Hpre).
    rewrite forallb_app. cbn. rewrite andb_true_r.
    clear -Hpre. induction pre as [|a pre IH]; cbn in *; [easy|].
    apply andb_prop in Hpre as [-> ?]. cbn. auto.
  - now apply gate_run_refused in H.
Qed.

Lemma find_segment {A} (f : A -> bool) l c0 :
  find f l = Some c0 -> exists k, firstn 1 (skipn k l) = [c0].
Proof.
  induction l as [|a l IH]; cbn; [discriminate|].
  destruct (f a).
  - intros [= ->]. now exists 0%nat.
  - intros H. destruct (IH H) as [k Hk]. now exists (S k).
Qed.

(** ** C1: one event per command *)

Lemma tool_path_audit pattern source cwd timeout_ms cmds w r w0 evs acts :
  tool_path pattern source cwd timeout_ms cmds w r w0 evs acts ->
  logged_commands evs = map JStr (recorded acts)
  /\ segment_of (recorded acts) cmds.
Proof.
  inversion 1; subst.
  - split; [reflexivity|]. now exists 0%nat, 0%nat.
  - rewrite checks_recorded.
    match goal with H : find _ _ = Some _ |- _ => rewrite H end.
    split; [reflexivity|].
    match goal with H : find _ _ = Some _ |- _ =>
      destruct (find_segment _ _ _ H) as [k Hk] end.
    now exists k, 1%nat.
  - rewrite recorded_app, checks_recorded.
    match goal with H : find _ _ = None |- _ => rewrite H end.
    match goal with H : gate_run _ _ _ _ _ |- _ =>
      apply gate_run_quiet, quiet_recorded in H as [-> _] end.
    split; [reflexivity|]. now exists 0%nat, 0%nat.
  - rewrite !recorded_app, checks_recorded.
    match goal with H : find _ _ = None |- _ => rewrite H end.
    match goal with H : gate_run _ _ _ _ _ |- _ =>
      apply gate_run_quiet, quiet_recorded in H as [-> _] end.
    match goal with H : exec_shape _ _ _ |- _ =>
      destruct H as [_ Hl _ [k Hk] _] end.
    cbn [app]. split; [exact Hl|]. now exists 0%nat, k.
Qed.

Lemma executor_path_audit cmds w r w0 evs acts :
  executor_path cmds w r w0 evs acts ->
  logged_commands evs = map JStr (recorded acts)
  /\ segment_of (recorded acts) cmds.
Proof.
  inversion 1; subst.
  - match goal with H : gate_run _ _ _ _ _ |- _ =>
      apply gate_run_quiet, quiet_recorded in H as [-> _] end.
    split; [reflexivity|]. now exists 0%nat, 0%nat.
  - rewrite recorded_app.
    match goal with H : gate_run _ _ _ _ _ |- _ =>
      apply gate_run_quiet, quiet_recorded in H as [-> _] end.
    match goal with H : exec_shape _ _ _ |- _ =>
      destruct H as [_ Hl _ [k Hk] _] end.
    cbn [app]. split; [exact Hl|]. now exists 0%nat, k.
Qed.

(** C1 as stated fails: on a host where no process can be launched the
    command "ls" is attempted and nothing is logged for it. *)
Lemma C1_counterexample :
  let w' := snd (build_code_shell_function_tool "/repo" (Some "ls") None
                   120000 stranded) in
  attempted (trace w') = ["ls"]
  /\ events w' = []
  /\ ~ audit_as_claimed stranded w'.
Proof.
  cbn. split; [reflexivity|]. split; [reflexivity|].
  intros (evs & acts & [He Ht] & Hl). cbn in He, Ht. subst.
  discriminate Hl.
Qed.

(** C1, amended. Through each of the three shell entry points, a batch adds
    to the audit log exactly one event per command that was stopped by the
    deny-list or whose process was started (timed out or not), in the order
    of the batch; a command whose process could not be launched adds none. *)
Theorem C1_one_event_per_recorded_command :
  forall w,
    (forall cwd command commands timeout_ms,
        audit_complete (command_list command commands) w
          (snd (build_code_shell_function_tool cwd command commands timeout_ms w)))
    /\ (forall cwd command commands timeout_ms,
        audit_complete (command_list command commands) w
          (snd (build_chat_shell_function_tool cwd command commands timeout_ms w)))
    /\ (forall cwd default_timeout_ms act,
        audit_complete (action_commands act) w
          (snd (ShellExecutor_call cwd default_timeout_ms act w))).
Proof.
  intros w. split; [|split].
  - intros cwd command commands timeout_ms.
    destruct (code_tool_path cwd command commands timeout_ms w)
      as (r & w0 & evs & acts & -> & Hp).
    exists evs, acts. split; [now apply (tool_path_adds _ _ _ _ _ _ _ _ _ _ Hp)|].
    now apply (tool_path_audit _ _ _ _ _ _ _ _ _ _ Hp).
  - intros cwd command commands timeout_ms.
    destruct (chat_tool_path cwd command commands timeout_ms w)
      as (r & w0 & evs & acts & -> & Hp).
    exists evs, acts. split; [now apply (tool_path_adds _ _ _ _ _ _ _ _ _ _ Hp)|].
    now apply (tool_path_audit _ _ _ _ _ _ _ _ _ _ Hp).
  - intros cwd default_timeout_ms act.
    destruct (ShellExecutor_path cwd default_timeout_ms act w)
      as (r & w0 & evs & acts & -> & Hp).
    exists evs, acts. split; [now apply (executor_path_adds _ _ _ _ _ _ Hp)|].
    now apply (executor_path_audit _ _ _ _ _ _ Hp).
Qed.

(** ** C5: a command on the deny-list *)

(** C5 as stated fails: in the batch [mkfs; reboot] both commands match the
    deny-list, and no event is logged for "reboot": the loop returns at the
    first match. *)
Lemma C5_counterexample :
  let w' := snd (build_code_shell_function_tool "/repo" None
                   (Some ["mkfs"; "reboot"]) 120000 calm) in
  Re.search unsafe "reboot" = true
  /\ In "reboot" (command_list None (Some ["mkfs"; "reboot"]))
  /\ List.length (blocked_events_for "mkfs" (events w')) = 1%nat
  /\ List.length (blocked_events_for "reboot" (events w')) <> 1%nat.
Proof.
  vm_compute. repeat split; auto. discriminate.
Qed.

Lemma tool_path_blocked pattern source cwd timeout_ms cmds w r w0 evs acts c :
  tool_path pattern source cwd timeout_ms cmds w r w0 evs acts ->
  In c cmds -> Re.search pattern c = true ->
  exists c0,
    find (Re.search pattern) cmds = Some c0
    /\ blocked_at c0 w (r, advance w0 evs acts).
Proof.
  intros Hp Hin Hhit.
  assert (Hsome : find (Re.search pattern) cmds <> None).
  { intros Hnone. now rewrite (find_none _ _ Hnone c Hin) in Hhit. }
  inversion Hp; subst; try contradiction; try (now destruct Hin).
  exists c0. split; [assumption|].
  exists (blocked_event w0 source cwd c0 timeout_ms), (checks pattern cmds).
  repeat split; try reflexivity. apply checks_only.
Qed.

(** C5, amended. When a command of the batch matches the deny-list of a
    function shell tool, the tool stops at the first such command: no
    process is spawned and approval is not requested for any command of the
    batch, exactly one event is logged, for that first command, with
    blocked = true and the reason "unsafe_command_pattern", and the
    explanatory string naming it is returned. *)
Theorem C5_first_match_blocks_the_batch :
  forall cwd command commands timeout_ms w c,
    In c (command_list command commands) ->
    (Re.search unsafe c = true ->
     exists c0,
       find (Re.search unsafe) (command_list command commands) = Some c0
       /\ blocked_at c0 w
            (build_code_shell_function_tool cwd command commands timeout_ms w))
    /\ (Re.search disallowed c = true ->
        exists c0,
          find (Re.search disallowed) (command_list command commands) = Some c0
          /\ blocked_at c0 w
               (build_chat_shell_function_tool cwd command commands timeout_ms w)).
Proof.
  intros cwd command commands timeout_ms w c Hin. split; intros Hhit.
  - destruct (code_tool_path cwd command commands timeout_ms w)
      as (r & w0 & evs & acts & -> & Hp).
    now apply (tool_path_blocked _ _ _ _ _ _ _ _ _ _ c Hp).
  - destruct (chat_tool_path cwd command commands timeout_ms w)
      as (r & w0 & evs & acts & -> & Hp).
    now apply (tool_path_blocked _ _ _ _ _ _ _ _ _ _ c Hp).
Qed.

Lemma C5_first_match_blocks_the_batch_witness :
  In "git reset --hard" (command_list (Some "ls") (Some ["git reset --hard"; "rm -rf /"]))
  /\ Re.search unsafe "git reset --hard" = true
  /\ exists c0,
       find (Re.search unsafe)
            (command_list (Some "ls") (Some ["git reset --hard"; "rm -rf /"]))
       = Some c0
       /\ blocked_at c0 calm
            (build_code_shell_function_tool "/repo" (Some "ls")
               (Some ["git reset --hard"; "rm -rf /"]) 120000 calm).
Proof.
  assert (Hin : In "git reset --hard"
                  (command_list (Some "ls") (Some ["git reset --hard"; "rm -rf /"])))
    by (right; left; reflexivity).
  split; [exact Hin|]. split; [reflexivity|].
  apply (proj1 (C5_first_match_blocks_the_batch "/repo" (Some "ls")
                  (Some ["git reset --hard"; "rm -rf /"]) 120000 calm
                  "git reset --hard" Hin)).
  reflexivity.
Defined.

(** ** Order of the interactions *)

Lemma split_in_app {A} (l1 : list A) :
  forall pre a post l2,
    (pre ++ a :: post = l1 ++ l2)%list ->
    In a l1 \/ exists pre2, pre = (l1 ++ pre2)%list /\ l2 = (pre2 ++ a :: post)%list.
Proof.
  induction l1 as [|x l1 IH]; intros pre a post l2 H.
  - right. now exists pre.
  - destruct pre as [|y pre]; cbn in H; injection H as <- H.
    + left. now left.
    + destruct (IH _ _ _ _ H) as [Hin|(pre2 & -> & ->)].
      * left. now right.
      * right. now exists pre2.
Qed.

Lemma forallb_In {A} (P : A -> bool) l a :
  forallb P l = true -> In a l -> P a = true.
Proof. intros H. now apply forallb_forall. Qed.

Lemma preceded_none R (Q : action -> Prop) (P : action -> bool) t :
  forallb P t = true -> (forall a, P a = true -> ~ Q a) -> preceded R Q t.
Proof.
  intros Hall Hno pre a post -> Qa. exfalso.
  apply (Hno a); [|exact Qa]. apply (forallb_In _ _ _ Hall).
  apply in_or_app. right. now left.
Qed.

Lemma preceded_after R (Q : action -> Prop) l1 l2 :
  (forall a, In a l1 -> ~ Q a) ->
  (forall a, In a l2 -> Q a -> exists b, In b l1 /\ R a b) ->
  preceded R Q (l1 ++ l2).
Proof.
  intros Hno Hyes pre a post Heq Qa. symmetry in Heq.
  destruct (split_in_app _ _ _ _ _ Heq) as [Hin|(pre2 & -> & ->)].
  - now destruct (Hno a Hin).
  - destruct (Hyes a) as (b & Hb & Hr); [apply in_or_app; right; now left|exact Qa|].
    exists b. split; [|exact Hr]. apply in_or_app. now left.
Qed.

Lemma preceded_skip R (Q : action -> Prop) l1 l2 :
  (forall a, In a l1 -> ~ Q a) -> preceded R Q l2 -> preceded R Q (l1 ++ l2).
Proof.
  intros Hno H2 pre a post Heq Qa. symmetry in Heq.
  destruct (split_in_app _ _ _ _ _ Heq) as [Hin|(pre2 & -> & Hl2)].
  - now destruct (Hno a Hin).
  - destruct (H2 _ _ _ Hl2 Qa) as (b & Hb & Hr).
    exists b. split; [|exact Hr]. apply in_or_app. now right.
Qed.

Lemma checks_no (Q : action -> bool) pattern cmds a :
  (forall c b, Q (Checked c b) = false) ->
  In a (checks pattern cmds) -> Q a <> true.
Proof.
  intros HQ Hin Hq.
  pose proof (forallb_In _ _ _ (checks_only pattern cmds) Hin) as Hc.
  destruct a; try discriminate. now rewrite HQ in Hq.
Qed.

Lemma quiet_no_spawn acts a :
  forallb (fun a => is_console a || is_gate a) acts = true ->
  In a acts -> ~ on_spawn a.
Proof.
  intros H Hin Hs. pose proof (forallb_In _ _ _ H Hin) as Hc.
  unfold on_spawn in Hs. destruct a; discriminate.
Qed.

Lemma proc_only acts a :
  forallb is_proc_action acts = true -> In a acts ->
  is_proc_action a = true.
Proof. apply forallb_In. Qed.

Lemma spawn_attempted acts args cwd ok :
  In (Spawn args cwd ok) acts -> In (command_of args) (attempted acts).
Proof.
  intros Hin. unfold attempted. apply in_flat_map.
  exists (Spawn args cwd ok). split; [exact Hin|now left].
Qed.

Lemma in_firstn {A} (a : A) k : forall l, In a (firstn k l) -> In a l.
Proof.
  induction k as [|k IH]; intros [|x l]; cbn; try tauto.
  intros [->|H]; [now left|right; now apply IH].
Qed.

Lemma exec_shape_spawned cmds evs xa a :
  exec_shape cmds evs xa -> In a xa -> on_spawn a ->
  In (spawned_command a) cmds.
Proof.
  intros [_ _ [k Hk] _ _] Hin Hs. destruct a; try discriminate Hs.
  cbn. apply spawn_attempted in Hin. rewrite Hk in Hin.
  now apply in_firstn in Hin.
Qed.

(** ** C7: the approval gate *)

Lemma filter_none {A} (P Q : A -> bool) l :
  forallb P l = true -> (forall a, P a = true -> Q a = false) ->
  filter Q l = [].
Proof.
  intros Hall Himp. induction l as [|a l IH]; [reflexivity|].
  cbn in *. apply andb_prop in Hall as [Ha Hl].
  rewrite (Himp a Ha). now apply IH.
Qed.

Lemma prompt_prints cmds a :
  In a (approval_prompt cmds) -> exists text, a = Printed text.
Proof.
  unfold approval_prompt. intros [<-|Hin]; [eauto|].
  apply in_map_iff in Hin as (text & <- & _). eauto.
Qed.

Lemma prompt_inputs cmds : filter is_input (approval_prompt cmds) = [].
Proof.
  assert (H : forall l, (forall a, In a l -> exists text, a = Printed text) ->
                        filter is_input l = []).
  { induction l as [|a l IH]; [reflexivity|]. intros Hl.
    destruct (Hl a (or_introl eq_refl)) as [text ->]. cbn.
    apply IH. intros; apply Hl; now right. }
  apply H, prompt_prints.
Qed.

Ltac in_cases H :=
  repeat match type of H with
         | In _ (_ ++ _) => apply in_app_or in H as [H|H]
         | In _ (approval_prompt _) => apply prompt_prints in H as [? H]
         | In _ (_ :: _) => destruct H as [H|H]
         | In _ [] => destruct H
         end.

Lemma gate_run_facts cmds w r w0 ga :
  gate_run cmds w r w0 ga ->
  (List.length (filter is_input ga) <= 1)%nat
  /\ (forall cs b, In (Gate cs b) ga -> cs = cmds)
  /\ (forall a, In a ga -> ~ on_spawn a)
  /\ (forall a, In a ga -> ~ on_check a)
  /\ (r = Ok tt -> In (Gate cmds true) ga /\ ~ In (Gate cmds false) ga)
  /\ (In (Gate cmds false) ga -> r = Raise rejected).
Proof.
  inversion 1; subst.
  all: split;
    [rewrite ?filter_app, ?prompt_inputs; cbn [app filter is_input length]; lia|].
  all: split; [intros cs b Hin; in_cases Hin; congruence|].
  all: split; [intros a Hin Hs; in_cases Hin; subst; discriminate Hs|].
  all: split; [intros a Hin Hs; in_cases Hin; subst; discriminate Hs|].
  all: split; [|intros Hin; in_cases Hin; congruence].
  all: try discriminate.
  all: intros _; split; [|intros Hin; in_cases Hin; congruence].
  - now left.
  - apply in_or_app. right. right. now left.
Qed.

Lemma checks_facts pattern cmds a :
  In a (checks pattern cmds) ->
  exists c b, a = Checked c b.
Proof.
  intros Hin. pose proof (forallb_In _ _ _ (checks_only pattern cmds) Hin) as Hc.
  destruct a; try discriminate. eauto.
Qed.

Lemma exec_facts cmds evs xa a :
  exec_shape cmds evs xa -> In a xa -> is_proc_action a = true.
Proof. intros [Hp _ _ _ _]. now apply forallb_In. Qed.

Ltac trace_cases H :=
  repeat match type of H with
         | In _ (_ ++ _) => apply in_app_or in H as [H|H]
         | In _ (checks _ _) => apply checks_facts in H as (? & ? & H)
         | In _ [] => destruct H
         end.

Lemma filter_inputs_checks pattern cmds :
  filter is_input (checks pattern cmds) = [].
Proof.
  apply (filter_none is_check); [apply checks_only|].
  now intros [].
Qed.

Lemma filter_inputs_exec cmds evs xa :
  exec_shape cmds evs xa -> filter is_input xa = [].
Proof.
  intros [Hp _ _ _ _]. apply (filter_none is_proc_action); [exact Hp|].
  now intros [].
Qed.

Lemma tool_path_gated pattern source cwd timeout_ms cmds w r w0 evs acts :
  tool_path pattern source cwd timeout_ms cmds w r w0 evs acts ->
  gated cmds r evs acts.
Proof.
  inversion 1 as [ | c0 Hne Hfind | e w1 ga Hne Hfind Hg
                   | r1 w1 ga evs1 xa Hne Hfind Hg Hs He ]; subst.
  - split; [cbn; lia|]. split; [intros cs b []|].
    split; [intros pre a post Heq; now destruct pre|]. intros [].
  - split; [rewrite filter_inputs_checks; cbn; lia|].
    split; [intros cs b Hin; trace_cases Hin; discriminate|].
    split.
    + apply (preceded_none _ _ is_check); [apply checks_only|].
      now intros [].
    + intros Hin. trace_cases Hin. discriminate.
  - destruct (gate_run_facts _ _ _ _ _ Hg) as (Hi & Hc & Hsp & _ & _ & Hrej).
    split; [now rewrite filter_app, filter_inputs_checks|].
    split; [intros cs b Hin; trace_cases Hin; [discriminate|now apply (Hc cs b)]|].
    assert (Hno : forall a, In a (checks pattern cmds ++ ga)%list -> ~ on_spawn a).
    { intros a Hin Hsa. trace_cases Hin; [subst; discriminate|].
      now apply (Hsp a). }
    split.
    + intros pre a post Heq Hsa. exfalso. apply (Hno a); [|exact Hsa].
      rewrite Heq. apply in_or_app. right. now left.
    + intros Hin. trace_cases Hin; [discriminate|].
      injection (Hrej Hin) as ->. split; [reflexivity|].
      split; [reflexivity|exact Hno].
  - destruct (gate_run_facts _ _ _ _ _ Hg) as (Hi & Hc & Hsp & _ & Hok & _).
    destruct (Hok eq_refl) as [Hyes Hnot].
    split.
    { rewrite !filter_app, filter_inputs_checks,
        (filter_inputs_exec _ _ _ Hs), app_nil_r. exact Hi. }
    split.
    { intros cs b Hin. trace_cases Hin; [discriminate|now apply (Hc cs b)|].
      now pose proof (exec_facts _ _ _ _ Hs Hin). }
    split.
    { apply preceded_skip.
      - intros a Hin Hsa. trace_cases Hin. subst. discriminate.
      - apply preceded_after; [exact Hsp|].
        intros a _ _. now exists (Gate cmds true). }
    intros Hin. exfalso. trace_cases Hin; [discriminate|now apply Hnot|].
    now pose proof (exec_facts _ _ _ _ Hs Hin).
Qed.

Lemma executor_path_gated cmds w r w0 evs acts :
  executor_path cmds w r w0 evs acts -> gated cmds r evs acts.
Proof.
  inversion 1 as [ e w1 ga Hg | r1 w1 ga evs1 xa Hg Hs He ]; subst.
  - destruct (gate_run_facts _ _ _ _ _ Hg) as (Hi & Hc & Hsp & _ & _ & Hrej).
    split; [exact Hi|]. split; [exact Hc|]. split.
    + intros pre a post Heq Hsa. exfalso. apply (Hsp a); [|exact Hsa].
      rewrite Heq. apply in_or_app. right. now left.
    + intros Hin. injection (Hrej Hin) as ->. split; [reflexivity|].
      split; [reflexivity|exact Hsp].
  - destruct (gate_run_facts _ _ _ _ _ Hg) as (Hi & Hc & Hsp & _ & Hok & _).
    destruct (Hok eq_refl) as [Hyes Hnot].
    split.
    { now rewrite filter_app, (filter_inputs_exec _ _ _ Hs), app_nil_r. }
    split.
    { intros cs b Hin. trace_cases Hin; [now apply (Hc cs b)|].
      now pose proof (exec_facts _ _ _ _ Hs Hin). }
    split.
    { apply preceded_after; [exact Hsp|].
      intros a _ _. now exists (Gate cmds true). }
    intros Hin. exfalso. trace_cases Hin; [now apply Hnot|].
    now pose proof (exec_facts _ _ _ _ Hs Hin).
Qed.




(** ** C8: the order gate, filter, runner *)

(** C8 as stated fails: the code tool checks "ls" against the deny-list
    before the gate is reached, and the executor spawns "mkfs" with no
    deny-list check at all. *)
Lemma C8_counterexample :
  ~ gate_filter_runner
      (trace (snd (build_code_shell_function_tool "/repo" (Some "ls") None
                     120000 calm)))
  /\ ~ gate_filter_runner
         (trace (snd (ShellExecutor_call "/repo" 120000
                        {| action_commands := ["mkfs"];
                           action_timeout_ms := None |} calm))).
Proof.
  split.
  - intros [H _]. cbn in H.
    destruct (H [] (Checked "ls" false)
                [Gate ["ls"] true; Spawn ["/bin/sh"; "-lc"; "ls"] "/repo" true]
                eq_refl eq_refl) as (b & [] & _).
  - intros (_ & _ & H). cbn in H.
    destruct (H [Gate ["mkfs"] true]
                (Spawn ["/bin/sh"; "-lc"; "mkfs"] "/repo" true) []
                eq_refl eq_refl) as (b & [<-|[]] & Hb).
    discriminate Hb.
Qed.

Lemma checks_pass pattern cmds c :
  find (Re.search pattern) cmds = None -> In c cmds ->
  In (Checked c false) (checks pattern cmds).
Proof.
  intros Hfind Hin. rewrite (checks_miss _ _ Hfind).
  apply in_map_iff. now exists c.
Qed.

Lemma tool_path_order pattern source cwd timeout_ms cmds w r w0 evs acts :
  tool_path pattern source cwd timeout_ms cmds w r w0 evs acts ->
  filter_gate_runner cmds acts.
Proof.
  intros Hp. pose proof (tool_path_gated _ _ _ _ _ _ _ _ _ _ Hp) as (_ & _ & Hgs & _).
  split; [|split; [exact Hgs|]];
    inversion Hp as [ | c0 Hne Hfind | e w1 ga Hne Hfind Hg
                      | r1 w1 ga evs1 xa Hne Hfind Hg Hs He ]; subst.
  - intros c []. 
  - intros c _. apply (preceded_none _ _ is_check); [apply checks_only|].
    now intros [].
  - intros c Hin. apply preceded_after.
    + intros a Ha Hga. trace_cases Ha. subst. discriminate.
    + intros a _ _. exists (Checked c false). split; [|reflexivity].
      now apply checks_pass.
  - intros c Hin. apply preceded_after.
    + intros a Ha Hga. trace_cases Ha. subst. discriminate.
    + intros a _ _. exists (Checked c false). split; [|reflexivity].
      now apply checks_pass.
  - intros pre a post Heq. now destruct pre.
  - apply (preceded_none _ _ is_check); [apply checks_only|]. now intros [].
  - destruct (gate_run_facts _ _ _ _ _ Hg) as (_ & _ & Hsp & _).
    intros pre a post Heq Hsa. exfalso.
    assert (Hin : In a (checks pattern cmds ++ ga)%list)
      by (rewrite Heq; apply in_or_app; right; now left).
    trace_cases Hin; [subst; discriminate|]. now apply (Hsp a).
  - destruct (gate_run_facts _ _ _ _ _ Hg) as (_ & _ & Hsp & _).
    apply preceded_after.
    + intros a Ha Hsa. trace_cases Ha. subst. discriminate.
    + intros a Hin Hsa. apply in_app_or in Hin as [Hin|Hin];
        [now destruct (Hsp a Hin)|].
      exists (Checked (spawned_command a) false). split; [|reflexivity].
      apply checks_pass; [exact Hfind|].
      now apply (exec_shape_spawned _ _ _ _ Hs).
Qed.

Lemma executor_path_order cmds w r w0 evs acts :
  executor_path cmds w r w0 evs acts -> gate_runner cmds acts.
Proof.
  intros Hp. pose proof (executor_path_gated _ _ _ _ _ _ Hp) as (_ & _ & Hgs & _).
  split; [exact Hgs|].
  inversion Hp as [ e w1 ga Hg | r1 w1 ga evs1 xa Hg Hs He ]; subst;
    destruct (gate_run_facts _ _ _ _ _ Hg) as (_ & _ & _ & Hck & _).
  - exact Hck.
  - intros a Hin Hca. apply in_app_or in Hin as [Hin|Hin];
      [now apply (Hck a)|].
    pose proof (exec_facts _ _ _ _ Hs Hin). destruct a; discriminate.
Qed.

(** C8, amended. Through a function shell tool every command goes through
    the deny-list first, then the approval gate, then the runner: the gate
    is not reached before every command of the batch has passed the
    deny-list, and no process is spawned before its command has passed the
    deny-list and the gate has granted the batch. Through the ShellTool
    executor every command goes through the gate and then the runner, and
    no deny-list check is made. *)
Theorem C8_filter_then_gate_then_runner :
  forall w,
    (forall cwd command commands timeout_ms,
        exists evs acts,
          adds w (snd (build_code_shell_function_tool cwd command commands
                         timeout_ms w)) evs acts
          /\ filter_gate_runner (command_list command commands) acts)
    /\ (forall cwd command commands timeout_ms,
           exists evs acts,
             adds w (snd (build_chat_shell_function_tool cwd command commands
                            timeout_ms w)) evs acts
             /\ filter_gate_runner (command_list command commands) acts)
    /\ (forall cwd default_timeout_ms act,
           exists evs acts,
             adds w (snd (ShellExecutor_call cwd default_timeout_ms act w))
               evs acts
             /\ gate_runner (action_commands act) acts).
Proof.
  intros w. split; [|split].
  - intros cwd command commands timeout_ms.
    destruct (code_tool_path cwd command commands timeout_ms w)
      as (r & w0 & evs & acts & -> & Hp).
    exists evs, acts. split; [now apply (tool_path_adds _ _ _ _ _ _ _ _ _ _ Hp)|].
    now apply (tool_path_order _ _ _ _ _ _ _ _ _ _ Hp).
  - intros cwd command commands timeout_ms.
    destruct (chat_tool_path cwd command commands timeout_ms w)
      as (r & w0 & evs & acts & -> & Hp).
    exists evs, acts. split; [now apply (tool_path_adds _ _ _ _ _ _ _ _ _ _ Hp)|].
    now apply (tool_path_order _ _ _ _ _ _ _ _ _ _ Hp).
  - intros cwd default_timeout_ms act.
    destruct (ShellExecutor_path cwd default_timeout_ms act w)
      as (r & w0 & evs & acts & -> & Hp).
    exists evs, acts. split; [now apply (executor_path_adds _ _ _ _ _ _ Hp)|].
    now apply (executor_path_order _ _ _ _ _ _ Hp).
Qed.

(** ** C4: timeouts *)

Lemma run_exec_fail args cwd timeout_ms stdin_text w msg :
  host w args = SpawnFails msg ->
  _run_exec args cwd timeout_ms stdin_text w
  = (Raise (OSError msg), advance w [] [Spawn args cwd false]).
Proof. intros H. open_step. rewrite H. now exec. Qed.

Lemma run_exec_timeout args cwd timeout_ms stdin_text w p :
  host w args = Starts p ->
  finishes_within p (max1 (seconds_of_ms timeout_ms)) = false ->
  _run_exec args cwd timeout_ms stdin_text w
  = (Ok (None, killed_stdout p, killed_stderr p, true,
         elapsed_ms {| argv := args; behaviour := p |}
           (max1 (seconds_of_ms timeout_ms))),
     advance w [] [Spawn args cwd true; Kill args; Drain args]).
Proof. intros H Hf. open_step. rewrite H. exec. rewrite Hf. now exec. Qed.

Lemma run_exec_done args cwd timeout_ms stdin_text w p :
  host w args = Starts p ->
  finishes_within p (max1 (seconds_of_ms timeout_ms)) = true ->
  _run_exec args cwd timeout_ms stdin_text w
  = (Ok (Some (returncode p), stdout_bytes p, stderr_bytes p, false,
         elapsed_ms {| argv := args; behaviour := p |}
           (max1 (seconds_of_ms timeout_ms))),
     advance w [] [Spawn args cwd true]).
Proof. intros H Hf. open_step. rewrite H. exec. rewrite Hf. now exec. Qed.

Lemma run_event_timed_out source w cwd c timeout_ms timeout_s p f :
  finishes_within p timeout_s = false ->
  let e := run_event source w cwd c timeout_ms timeout_s p f in
  get "command" e = JStr c
  /\ get "timed_out" e = JBool true
  /\ get "exit_code" e = JNull
  /\ get "stdout" e = JStr (_truncate_text (killed_stdout p) (max_output_chars w)).
Proof. intros Hf. unfold run_event. rewrite Hf. now repeat split. Qed.

Lemma run_event_exited source w cwd c timeout_ms timeout_s p f :
  finishes_within p timeout_s = true ->
  let e := run_event source w cwd c timeout_ms timeout_s p f in
  get "command" e = JStr c
  /\ get "timed_out" e = JBool false
  /\ get "exit_code" e = JInt (returncode p)
  /\ get "blocked" e = JBool false.
Proof. intros Hf. unfold run_event. rewrite Hf. now repeat split. Qed.

(** C4 as stated fails: with a configured timeout of 500 ms a process that
    exits after 0.7 s is not killed, since the runner waits at least one
    second; it is reported with its exit code and timedOut = false. *)
Lemma C4_counterexample :
  let args := ["/bin/sh"; "-lc"; "sleep 0.7"] in
  let run := _run_exec args "/repo" 500 None calm in
  exists p,
    host calm args = Starts p
    /\ finishes_within p (seconds_of_ms 500) = false
    /\ fst run = Ok (Some 0, "", "", false, 700)
    /\ ~ In (Kill args) (trace (snd run)).
Proof.
  cbv zeta. eexists. split; [reflexivity|]. split; [reflexivity|].
  split; [reflexivity|]. cbn. intros [[=]|[]].
Qed.

(** C4, amended. For every command whose process does not exit within the
    effective timeout, max(1 s, timeout_ms / 1000), the runner sends a kill
    signal, calls communicate() once more and returns what that second call
    yields, with timedOut = true and an absent exit code (the result of the
    first, cancelled call is never bound, so nothing here says that this is
    all the process wrote); the batch loop of each shell entry point logs
    the command as timed out with no exit code (the "124" appears only in
    the text returned to the caller), issues none of the remaining commands
    of the batch and returns normally. *)
Theorem C4_timeout_kills_drains_and_stops_the_batch :
  forall w cwd timeout_ms p,
    finishes_within p (max1 (seconds_of_ms timeout_ms)) = false ->
    (forall args stdin_text,
        host w args = Starts p ->
        exists duration_ms,
          _run_exec args cwd timeout_ms stdin_text w
          = (Ok (None, killed_stdout p, killed_stderr p, true, duration_ms),
             advance w [] [Spawn args cwd true; Kill args; Drain args]))
    /\ (forall c rest parts,
           host w (_shell_invocation w c) = Starts p ->
           exists e,
             code_exec_loop cwd timeout_ms (c :: rest) parts w
             = (Ok ((parts ++ [("$ " ++ c)%string])
                    ++ [("Command timed out after "
                         ++ PyStr.of_int (Z.max 1 (int_of (seconds_of_ms timeout_ms)))
                         ++ "s")%string;
                        "[exit_code=124]"])%list,
                advance w [e] (killed w c cwd))
             /\ timed_out_event c w p e)
    /\ (forall c rest parts,
           host w (_shell_invocation w c) = Starts p ->
           exists e,
             chat_exec_loop cwd timeout_ms (max1 (seconds_of_ms timeout_ms))
               (c :: rest) parts w
             = (Ok ((parts ++ [("$ " ++ c)%string])
                    ++ [chat_timeout_text (max1 (seconds_of_ms timeout_ms));
                        "[exit_code=124]"])%list,
                advance w [e] (killed w c cwd))
             /\ timed_out_event c w p e)
    /\ (forall act default_timeout_ms c rest outs,
           timeout_or (action_timeout_ms act) default_timeout_ms = timeout_ms ->
           host w (_shell_invocation w c) = Starts p ->
           exists e o,
             executor_loop cwd default_timeout_ms act (c :: rest) outs w
             = (Ok (outs ++ [o])%list, advance w [e] (killed w c cwd))
             /\ timed_out_event c w p e
             /\ out_command o = c
             /\ out_stdout o = killed_stdout p
             /\ outcome_type (out_outcome o) = "timeout"
             /\ outcome_exit_code (out_outcome o) = None).
Proof.
  intros w cwd timeout_ms p Hf. split; [|split; [|split]].
  - intros args stdin_text Hh. eexists. now apply run_exec_timeout.
  - intros c rest parts Hh. exists (code_event w cwd c timeout_ms p). split.
    + exact (code_exec_step_timeout cwd timeout_ms c rest parts w p Hh Hf).
    + now apply run_event_timed_out.
  - intros c rest parts Hh.
    exists (chat_event w cwd c timeout_ms (max1 (seconds_of_ms timeout_ms)) p).
    split.
    + exact (chat_exec_step_timeout cwd timeout_ms _ c rest parts w p Hh Hf).
    + now apply run_event_timed_out.
  - intros act default_timeout_ms c rest outs Ht Hh.
    assert (Hx : finishes_within p (executor_timeout act default_timeout_ms)
                 = false)
      by (unfold executor_timeout; now rewrite Ht).
    exists (executor_event w cwd c act default_timeout_ms p),
           (executor_output c act default_timeout_ms p).
    split; [|split].
    + exact (executor_step_timeout cwd default_timeout_ms act c rest outs w p
               Hh Hx).
    + now apply run_event_timed_out.
    + unfold executor_output. rewrite Hx. now repeat split.
Qed.

Lemma C4_timeout_kills_drains_and_stops_the_batch_witness :
  exists e,
    code_exec_loop "/repo" 2000 ["sleep 999"; "ls"] [] calm
    = (Ok ["$ sleep 999"; "Command timed out after 2s"; "[exit_code=124]"],
       advance calm [e] (killed calm "sleep 999" "/repo"))
    /\ timed_out_event "sleep 999" calm
         {| exits_after := None; returncode := 0;
            stdout_bytes := ""; stderr_bytes := "";
            killed_stdout := "partial"; killed_stderr := "" |} e.
Proof.
  apply (proj1 (proj2 (C4_timeout_kills_drains_and_stops_the_batch calm "/repo"
                         2000 _ (eq_refl : finishes_within
                            {| exits_after := None; returncode := 0;
                               stdout_bytes := ""; stderr_bytes := "";
                               killed_stdout := "partial"; killed_stderr := "" |}
                            (max1 (seconds_of_ms 2000)) = false)))
           "sleep 999" ["ls"] []).
  reflexivity.
Defined.

(** ** C6: exit codes and spawn failures *)

(** C6 as stated fails: when the process cannot be launched the executor
    raises and logs nothing. *)
Lemma C6_counterexample :
  let run := ShellExecutor_call "/repo" 120000
               {| action_commands := ["ls"]; action_timeout_ms := None |}
               stranded in
  fst run = Raise (OSError "[Errno 2] No such file or directory")
  /\ events (snd run) = []
  /\ ~ spawn_failure_reported "ls" run.
Proof.
  cbv zeta. split; [reflexivity|]. split; [reflexivity|].
  intros [[a Ha] _]. discriminate Ha.
Qed.

(** C6, amended. The process runner never raises on a non-zero exit code:
    the exit code is returned as data, and the executor logs it as a normal
    event and goes on with the batch. The runner raises exactly when the
    process cannot be launched; that exception leaves the runner and the
    batch loop of each shell entry point, no event is logged for the
    command and the remaining commands are not issued. *)
Theorem C6_exit_codes_are_data_spawn_failures_raise :
  forall w cwd timeout_ms,
    (forall args stdin_text p,
        host w args = Starts p ->
        finishes_within p (max1 (seconds_of_ms timeout_ms)) = true ->
        exists duration_ms,
          _run_exec args cwd timeout_ms stdin_text w
          = (Ok (Some (returncode p), stdout_bytes p, stderr_bytes p, false,
                 duration_ms),
             advance w [] [Spawn args cwd true]))
    /\ (forall args stdin_text,
           (exists exc w', _run_exec args cwd timeout_ms stdin_text w
                           = (Raise exc, w'))
           <-> exists msg, host w args = SpawnFails msg)
    /\ (forall c rest msg,
           host w (_shell_invocation w c) = SpawnFails msg ->
           let failed :=
             advance w [] [Spawn (_shell_invocation w c) cwd false] in
           _run_exec (_shell_invocation w c) cwd timeout_ms None w
           = (Raise (OSError msg), failed)
           /\ (forall parts,
                  code_exec_loop cwd timeout_ms (c :: rest) parts w
                  = (Raise (OSError msg), failed))
           /\ (forall timeout_s parts,
                  chat_exec_loop cwd timeout_ms timeout_s (c :: rest) parts w
                  = (Raise (OSError msg), failed))
           /\ (forall default_timeout_ms action outs,
                  executor_loop cwd default_timeout_ms action (c :: rest) outs w
                  = (Raise (OSError msg), failed)))
    /\ (forall c rest p default_timeout_ms action outs,
           host w (_shell_invocation w c) = Starts p ->
           finishes_within p (executor_timeout action default_timeout_ms) = true ->
           exists e out,
             executor_loop cwd default_timeout_ms action (c :: rest) outs w
             = executor_loop cwd default_timeout_ms action rest
                 (outs ++ [out])%list
                 (advance w [e] [Spawn (_shell_invocation w c) cwd true])
             /\ get "command" e = JStr c
             /\ get "exit_code" e = JInt (returncode p)
             /\ outcome_exit_code (out_outcome out) = Some (returncode p)).
Proof.
  intros w cwd timeout_ms. split; [|split; [|split]].
  - intros args stdin_text p Hh Hf. eexists. now apply run_exec_done.
  - intros args stdin_text. split.
    + intros (exc & w' & Hr).
      destruct (host w args) as [msg|p] eqn:Hh; [now exists msg|].
      destruct (finishes_within p (max1 (seconds_of_ms timeout_ms))) eqn:Hf.
      * rewrite (run_exec_done _ _ _ _ _ _ Hh Hf) in Hr. discriminate Hr.
      * rewrite (run_exec_timeout _ _ _ _ _ _ Hh Hf) in Hr. discriminate Hr.
    + intros (msg & Hh).
      exists (OSError msg), (advance w [] [Spawn args cwd false]).
      now apply run_exec_fail.
  - intros c rest msg Hh failed. split; [now apply run_exec_fail|].
    split; [|split]; intros.
    + now apply code_exec_step_fail.
    + now apply chat_exec_step_fail.
    + now apply executor_step_fail.
  - intros c rest p default_timeout_ms action outs Hh Hf.
    exists (executor_event w cwd c action default_timeout_ms p),
      (executor_output c action default_timeout_ms p).
    split; [now apply executor_step_done|].
    unfold executor_event, executor_output. rewrite Hf.
    destruct (run_event_exited "shell_tool" w cwd c
                (timeout_or (action_timeout_ms action) default_timeout_ms)
                (executor_timeout action default_timeout_ms) p
                (executor_stderr (executor_timeout action default_timeout_ms)) Hf)
      as (Hc & _ & Hx & _).
    now repeat split.
Qed.

Lemma C6_exit_codes_are_data_spawn_failures_raise_witness :
  (exists duration_ms,
      _run_exec ["/bin/sh"; "-lc"; "false"] "/repo" 120000 None calm
      = (Ok (Some 1, "", "", false, duration_ms),
         advance calm [] [Spawn ["/bin/sh"; "-lc"; "false"] "/repo" true]))
  /\ code_exec_loop "/repo" 120000 ["ls"; "false"] [] stranded
     = (Raise (OSError "[Errno 2] No such file or directory"),
        advance stranded [] [Spawn ["/bin/sh"; "-lc"; "ls"] "/repo" false]).
Proof.
  split.
  - apply (proj1 (C6_exit_codes_are_data_spawn_failures_raise calm "/repo" 120000)
             ["/bin/sh"; "-lc"; "false"] None
             {| exits_after := Some (1 # 10)%Q; returncode := 1;
                stdout_bytes := ""; stderr_bytes := "";
                killed_stdout := ""; killed_stderr := "" |});
      reflexivity.
  - apply (proj1 (proj2 (proj1 (proj2 (proj2
             (C6_exit_codes_are_data_spawn_failures_raise stranded "/repo" 120000)))
             "ls" ["false"] "[Errno 2] No such file or directory" eq_refl))).
Defined.

(** ** C3: the retrying run driver *)

Lemma retry_loop_step input_text max_turns retries backoff_seconds attempt w :
  retry_loop input_text max_turns retries backoff_seconds attempt w
  = match Runner_run input_text max_turns w with
    | (Ok final_output, w1) => (Ok final_output, w1)
    | (Raise exc, w1) =>
        if is_transient exc then
          if attempt + 1 >? retries then (Raise exc, w1)
          else
            match back_off exc backoff_seconds (attempt + 1) w1 with
            | (Ok _, w2) =>
                retry_loop input_text max_turns retries backoff_seconds
                  (attempt + 1) w2
            | (Raise exc', w2) => (Raise exc', w2)
            end
        else (Raise exc, w1)
    end.
Proof.
  simp retry_loop.
  destruct (Runner_run input_text max_turns w) as [[out|exc] w1];
    cbn -[back_off]; [reflexivity|].
  destruct (is_transient exc); cbn -[back_off]; [|reflexivity].
  destruct (Z_gt_dec (attempt + 1) retries) as [Hgt|Hle]; cbn -[back_off].
  - apply Z.gtb_gt in Hgt. now rewrite Hgt.
  - assert (Hb : (attempt + 1 >? retries) = false)
      by (rewrite Z.gtb_ltb; apply Z.ltb_ge; lia).
    rewrite Hb.
    destruct (back_off exc backoff_seconds (attempt + 1) w1) as [[[]|e] w2];
      reflexivity.
Qed.

Lemma Runner_run_eq input_text max_turns w :
  Runner_run input_text max_turns w
  = (match runner_run w (agent_runs w) with
     | inl final_output => Ok final_output
     | inr exc => Raise exc
     end,
     with_trace (trace w ++ [AgentRun input_text max_turns])
       (with_agent_runs (S (agent_runs w)) w)).
Proof. unfold Runner_run. now destruct (runner_run w (agent_runs w)). Qed.

Lemma backoff_delay_nonneg backoff_seconds attempt :
  (0 <= backoff_seconds)%Q ->
  Qle_bool 0 (backoff_delay backoff_seconds attempt) = true.
Proof.
  intros Hb. apply Qle_bool_iff. unfold backoff_delay.
  apply Qmult_le_0_compat; [exact Hb|].
  unfold Qle. cbn. pose proof (Z.pow_nonneg 2 (attempt - 1)). lia.
Qed.

Lemma back_off_eq exc backoff_seconds attempt w :
  (0 <= backoff_seconds)%Q ->
  back_off exc backoff_seconds attempt w
  = (Ok tt,
     with_trace
       (trace w ++ [PrintRetry (class_name exc)
                      (backoff_delay backoff_seconds attempt);
                    Sleep (backoff_delay backoff_seconds attempt)]) w).
Proof.
  intros Hb. unfold back_off, sleep, bind, emit, modify.
  rewrite (backoff_delay_nonneg _ _ Hb). destruct w; cbn.
  now rewrite <- app_assoc.
Qed.

Lemma retry_loop_run input_text max_turns retries backoff_seconds :
  (0 <= backoff_seconds)%Q ->
  forall n attempt w,
    Z.to_nat (retries - attempt) = n ->
    exists failures,
      retry_run input_text max_turns retries backoff_seconds attempt w
        (retry_loop input_text max_turns retries backoff_seconds attempt w)
        failures.
Proof.
  intros Hb n. induction n as [n IH] using lt_wf_ind. intros attempt w Hn.
  rewrite retry_loop_step, Runner_run_eq.
  set (w1 := with_trace (trace w ++ [AgentRun input_text max_turns])
               (with_agent_runs (S (agent_runs w)) w)).
  destruct (runner_run w (agent_runs w)) as [out|exc] eqn:Hrun.
  - exists []. split; cbn; auto; try lia.
    + intros [|i] exc; discriminate.
    + now rewrite Nat.add_0_r, Hrun.
  - destruct (is_transient exc) eqn:Htr.
    + destruct (attempt + 1 >? retries) eqn:Hgt.
      * apply Z.gtb_gt in Hgt.
        exists []. split; cbn; auto; try lia.
        -- intros [|i] e; discriminate.
        -- rewrite Nat.add_0_r, Hrun. split; [reflexivity|]. lia.
      * assert (Hle : attempt + 1 <= retries)
          by (rewrite Z.gtb_ltb in Hgt; apply Z.ltb_ge in Hgt; lia).
        rewrite (back_off_eq _ _ _ _ Hb).
        set (w2 := with_trace _ w1).
        destruct (IH (Z.to_nat (retries - (attempt + 1))) ltac:(lia)
                     (attempt + 1) w2 eq_refl)
          as [failures [Ht Hc Ho Hall Hf Hbd Hout]].
        exists (exc :: failures). split.
        -- rewrite Ht. cbn. now rewrite <- !app_assoc.
        -- rewrite Hc. cbn. lia.
        -- rewrite Ho. reflexivity.
        -- now constructor.
        -- intros [|i] e Hnth; cbn in Hnth.
           ++ injection Hnth as <-. now rewrite Nat.add_0_r.
           ++ rewrite <- (Hf i e Hnth). cbn. f_equal. lia.
        -- cbn [List.length]. lia.
        -- cbn [List.length].
           replace (agent_runs w + S (List.length failures))%nat
             with (agent_runs w2 + List.length failures)%nat by (cbn; lia).
           change (runner_run w) with (runner_run w2).
           destruct (runner_run w2 (agent_runs w2 + List.length failures)%nat)
             as [out|e]; [exact Hout|].
           destruct Hout as [Hr Hx]. split; [exact Hr|]. intros He.
           specialize (Hx He). lia.
    + exists []. split; cbn; auto; try lia.
      * intros [|i] e; discriminate.
      * rewrite Nat.add_0_r, Hrun. split; [reflexivity|]. intros; congruence.
Qed.

Lemma sleeps_retry_trace input_text max_turns backoff_seconds failures :
  forall attempt,
    sleeps (retry_trace input_text max_turns backoff_seconds attempt failures)
    = map (fun k => backoff_delay backoff_seconds (attempt + Z.of_nat k))
        (seq 1 (List.length failures)).
Proof.
  induction failures as [|exc rest IH]; intros attempt; [reflexivity|].
  cbn [retry_trace List.length seq map]. 
  change (sleeps (?a :: ?b :: Sleep ?d :: ?t)) with (d :: sleeps t).
  rewrite IH. f_equal. rewrite <- (seq_shift (List.length rest) 1), map_map.
  apply map_ext. intros k. f_equal. lia.
Qed.





(** ** What the run driver leaves untouched *)

Lemma back_off_store exc backoff_seconds attempt w :
  same_store w (snd (back_off exc backoff_seconds attempt w)).
Proof.
  unfold back_off, sleep, bind, emit, modify, raise.
  destruct (Qle_bool 0 (backoff_delay backoff_seconds attempt));
    now repeat split.
Qed.

Lemma same_store_trans w1 w2 w3 :
  same_store w1 w2 -> same_store w2 w3 -> same_store w1 w3.
Proof.
  unfold same_store. intros (A1 & A2 & A3 & A4 & A5 & A6)
                            (B1 & B2 & B3 & B4 & B5 & B6).
  repeat split; congruence.
Qed.

Lemma retry_loop_store input_text max_turns retries backoff_seconds :
  forall n attempt w,
    Z.to_nat (retries - attempt) = n ->
    same_store w
      (snd (retry_loop input_text max_turns retries backoff_seconds attempt w)).
Proof.
  intros n. induction n as [n IH] using lt_wf_ind. intros attempt w Hn.
  rewrite retry_loop_step, Runner_run_eq.
  destruct (runner_run w (agent_runs w)) as [out|exc]; [now repeat split|].
  destruct (is_transient exc); [|now repeat split].
  destruct (attempt + 1 >? retries) eqn:Hgt; [now repeat split|].
  assert (Hle : attempt + 1 <= retries)
    by (rewrite Z.gtb_ltb in Hgt; apply Z.ltb_ge in Hgt; lia).
  match goal with
  | |- context [back_off ?e ?b ?a ?w1] =>
      pose proof (back_off_store e b a w1) as Hs;
      destruct (back_off e b a w1) as [[[]|exc'] w2]
  end.
  - cbn [snd] in Hs. eapply same_store_trans; [exact Hs|].
    now apply (IH (Z.to_nat (retries - (attempt + 1))) ltac:(lia)
                 (attempt + 1) w2 eq_refl).
  - exact Hs.
Qed.

Lemma run_with_retries_store input_text max_turns retries backoff_seconds w :
  same_store w
    (snd (run_with_retries input_text max_turns retries backoff_seconds w)).
Proof. unfold run_with_retries. now eapply retry_loop_store. Qed.

Lemma append_inj s : forall a b, (s ++ a)%string = (s ++ b)%string -> a = b.
Proof. induction s as [|c s IH]; cbn; intros a b H; [exact H|]. injection H. apply IH. Qed.

Lemma diagnostics_not_summary pre :
  String.eqb (run_dir pre ++ "/command-diagnostics.json") (summary_path pre)
  = false.
Proof.
  apply String.eqb_neq. unfold summary_path. intros H.
  apply append_inj in H. discriminate H.
Qed.

Lemma write_summary_run d w :
  exists doc,
    write_summary d w
    = (Ok (d ++ "/command-diagnostics.json")%string,
       with_disk (disk w ++ [WriteJson (d ++ "/command-diagnostics.json") doc]) w).
Proof.
  unfold write_summary, bind, gets, write, modify, ret. cbn.
  eexists. reflexivity.
Qed.

(** ** Coroutines with local variables, step by step *)

Ltac run_steps :=
  unfold bind, assign, lift, local, gets, ret, write, print, emit, modify;
  cbn -[run_analysis_finally run_code_agent_finally print_all String.append
        filter run_with_retries path_exists].

Lemma after_nil w : after w [] [] = w.
Proof. destruct w; unfold after; cbn. now rewrite !app_nil_r. Qed.

Lemma after_after w f1 a1 f2 a2 :
  after (after w f1 a1) f2 a2 = after w (f1 ++ f2) (a1 ++ a2).
Proof. unfold after; cbn. now rewrite !app_assoc. Qed.

Lemma advance_after w acts : advance w [] acts = after w [] acts.
Proof. destruct w; unfold advance, after; cbn. now rewrite !app_nil_r. Qed.

Lemma disk_after w fs acts : disk (after w fs acts) = (disk w ++ fs)%list.
Proof. reflexivity. Qed.

Lemma trace_after w fs acts : trace (after w fs acts) = (trace w ++ acts)%list.
Proof. reflexivity. Qed.

Lemma write_error_after w fs acts : write_error (after w fs acts) = write_error w.
Proof. reflexivity. Qed.


Section Locals.

Context {L : Type}.

Lemma lift_print_after text (l : L) w :
  lift (print text) (l, w) = (Ok tt, (l, after w [] [Printed text])).
Proof.
  unfold lift, print. cbn [snd fst]. now rewrite emit_advance, advance_after.
Qed.

Lemma lift_emit_after a (l : L) w :
  lift (emit a) (l, w) = (Ok tt, (l, after w [] [a])).
Proof.
  unfold lift. cbn [snd fst]. now rewrite emit_advance, advance_after.
Qed.

Lemma lift_print_all_after lines (l : L) w :
  lift (print_all lines) (l, w) = (Ok tt, (l, after w [] (map Printed lines))).
Proof.
  unfold lift. cbn [snd fst]. now rewrite print_all_run, advance_after.
Qed.

Lemma lift_write_after f (l : L) w :
  lift (write f) (l, w) = (Ok tt, (l, after w [f] [])).
Proof.
  unfold lift, write, modify, after. cbn [snd fst].
  destruct w; cbn. now rewrite app_nil_r.
Qed.

Lemma assign_run (f : L -> L) l w : assign f (l, w) = (Ok tt, (f l, w)).
Proof. reflexivity. Qed.

Lemma local_run {A} (f : L -> A) l (w : world) :
  local f (l, w) = (Ok (f l), (l, w)).
Proof. reflexivity. Qed.

Lemma lift_gets_run {A} (f : world -> A) (l : L) w :
  lift (gets f) (l, w) = (Ok (f w), (l, w)).
Proof. reflexivity. Qed.

Lemma ret_run {A} (a : A) (s : L * world) : ret a s = (Ok a, s).
Proof. reflexivity. Qed.

Lemma raise_run {A} e (s : L * world) : @raise _ A e s = (Raise e, s).
Proof. reflexivity. Qed.

Lemma lift_write_text_run path text (l : L) w :
  lift (write_text path text) (l, w)
  = match write_error w path with
    | Some msg => (Raise (OSError msg), (l, w))
    | None => (Ok tt, (l, after w [WriteText path text] []))
    end.
Proof.
  unfold lift at 1, write_text, bind, gets. cbn [snd fst].
  destruct (write_error w path); [reflexivity|].
  change (lift (write (WriteText path text)) (l, w)
          = (Ok tt, (l, after w [WriteText path text] []))).
  apply lift_write_after.
Qed.

Lemma lift_save_output_run path text (l : L) w :
  lift (save_output path text) (l, w)
  = match write_error w path with
    | Some msg => (Raise (OSError msg), (l, w))
    | None => (Ok tt, (l, after w [WriteText path text] []))
    end.
Proof. apply lift_write_text_run. Qed.

End Locals.

Lemma bind_assoc {S A B C} (m : M S A) (f : A -> M S B) (g : B -> M S C) s :
  bind (bind m f) g s = bind m (fun x => bind (f x) g) s.
Proof. unfold bind. now destruct (m s) as [[a|e] s']. Qed.

(** One step of a coroutine with locals: open the first [bind] and run its
    first computation by one of the equations above. *)
Ltac run_one :=
  first [ rewrite assign_run | rewrite lift_print_after
        | rewrite lift_print_all_after | rewrite lift_write_after
        | rewrite lift_emit_after | rewrite local_run | rewrite lift_gets_run
        | rewrite ret_run | rewrite raise_run ];
  cbv beta iota zeta; rewrite ?after_after;
  cbn [app report output_copy_path validation_result run_status error_message
       final_output status code_error_message output_path mcp_server_names].

Ltac go := rewrite ?bind_assoc; first [unfold bind at 1; run_one | run_one].



(** ** The [finally] suites *)

Lemma report_is_not_diagnostics d :
  String.eqb (d ++ "/command-diagnostics.json") (d ++ "/report.md") = false.
Proof.
  apply String.eqb_neq. intros H. apply append_inj in H. discriminate H.
Qed.

Lemma run_analysis_finally_full args pre l w :
  exists w' diag payload tail,
    run_analysis_finally args pre (l, w) = (Ok tt, (l, w'))
    /\ disk w'
       = (disk w
          ++ [WriteJson (run_dir pre ++ "/command-diagnostics.json") diag;
              WriteJson (summary_path pre) payload])%list
    /\ trace w' = (trace w ++ tail)%list
    /\ forallb is_print tail = true
    /\ get "run_status" payload = JStr (run_status l)
    /\ get "error_message" payload = JStr (error_message l)
    /\ get "report_path" payload
       = JStr (if path_exists (run_dir pre ++ "/report.md") w
               then (run_dir pre ++ "/report.md")%string else "")
    /\ get "output_copy_path" payload = JOptStr (output_copy_path l)
    /\ get "validation" payload = validation_json (validation_result l).
Proof.
  unfold run_analysis_finally. unfold bind at 1. unfold lift at 1.
  cbn [fst snd].
  destruct (write_summary_run (run_dir pre) w) as [diag ->].
  run_steps. do 4 eexists. split; [reflexivity|].
  cbn [disk trace with_disk with_trace]. rewrite <- !app_assoc.
  split; [reflexivity|]. split; [reflexivity|]. split; [reflexivity|].
  split; [reflexivity|]. split; [reflexivity|]. split; [|split; reflexivity].
  cbn. unfold path_exists. cbn [disk with_disk].
  rewrite existsb_app. cbn [existsb].
  now rewrite report_is_not_diagnostics, !orb_false_r.
Qed.

Lemma run_code_agent_finally_full args pre l w :
  exists w' diag payload tail,
    run_code_agent_finally args pre (l, w) = (Ok tt, (l, w'))
    /\ disk w'
       = (disk w
          ++ [WriteJson (run_dir pre ++ "/command-diagnostics.json") diag;
              WriteJson (summary_path pre) payload])%list
    /\ trace w' = (trace w ++ tail)%list
    /\ forallb is_print tail = true
    /\ get "run_status" payload = JStr (status l)
    /\ get "error_message" payload = JStr (code_error_message l).
Proof.
  unfold run_code_agent_finally. unfold bind at 1. unfold lift at 1.
  cbn [fst snd].
  destruct (write_summary_run (run_dir pre) w) as [diag ->].
  run_steps. do 4 eexists. split; [reflexivity|].
  cbn [disk trace with_disk with_trace]. rewrite <- !app_assoc.
  repeat split.
Qed.

Lemma texts_only_nil : texts_only [].
Proof. intros f []. Qed.

Lemma texts_only_cons p t writes :
  texts_only writes -> texts_only (WriteText p t :: writes).
Proof. intros H f [<-|Hf]; eauto. Qed.

Lemma texts_only_app a b : texts_only a -> texts_only b -> texts_only (a ++ b).
Proof. intros Ha Hb f Hf. apply in_app_or in Hf as [Hf|Hf]; auto. Qed.

Lemma written_after w w' writes diag payload pre :
  disk w'
  = (disk w ++ writes
     ++ [WriteJson (run_dir pre ++ "/command-diagnostics.json") diag;
         WriteJson (summary_path pre) payload])%list ->
  texts_only writes ->
  exists all,
    disk w' = (disk w ++ all)%list
    /\ text_writes all = text_writes writes
    /\ summaries pre all = [payload]
    /\ last all (WriteText "" "") = WriteJson (summary_path pre) payload.
Proof.
  intros Hw Ht. eexists. split; [exact Hw|].
  unfold text_writes, summaries. rewrite !flat_map_app. cbn [flat_map].
  rewrite diagnostics_not_summary, String.eqb_refl, !app_nil_r.
  split; [reflexivity|]. cbn [app]. split.
  - replace (flat_map _ writes) with (@nil json); [reflexivity|].
    symmetry. clear Hw. induction writes as [|f rest IH]; [reflexivity|].
    destruct (Ht f (or_introl eq_refl)) as (p & t & ->). cbn [flat_map app].
    apply IH. intros g Hg; apply Ht; now right.
  - change [WriteJson (run_dir pre ++ "/command-diagnostics.json") diag;
            WriteJson (summary_path pre) payload]
      with ([WriteJson (run_dir pre ++ "/command-diagnostics.json") diag]
            ++ [WriteJson (summary_path pre) payload])%list.
    rewrite !app_assoc. apply last_last.
Qed.

(** ** The outcome of [run_analysis] *)

Section AnalysisOutcome.

Variable validate_report : string -> Z -> Z -> ValidationResult.
Variable append_quality_warning : string -> ValidationResult -> string.
Variable resolve : string -> string.


Lemma run_analysis_body_raises args pre l w exc w1 :
  run_with_retries analysis_input (max_turns_arg args) (retries_arg args)
    (retry_backoff_seconds args) w = (Raise exc, w1) ->
  run_analysis_body validate_report append_quality_warning resolve args pre
    (l, w)
  = (Raise exc, (l, w1)).
Proof.
  intros Hrun. unfold run_analysis_body. unfold bind at 1. unfold lift at 1.
  cbn [snd fst].
  change "Analyze the target repository now and produce the full markdown report."
    with analysis_input.
  now rewrite Hrun.
Qed.

(** [run_analysis] once the outcome of its [try] suite is known: the
    [except] clause records the message and the [finally] suite writes the
    diagnostics and the summary. *)
Lemma run_analysis_unfold args pre w r l1 w1 :
  run_analysis_body validate_report append_quality_warning resolve args pre
    ({| report := ""; output_copy_path := None; validation_result := None;
        run_status := "failed"; error_message := "" |}, w)
  = (r, (l1, w1)) ->
  exists w' diag payload tail,
    run_analysis validate_report append_quality_warning resolve args pre w
    = (r, w')
    /\ disk w'
       = (disk w1
          ++ [WriteJson (run_dir pre ++ "/command-diagnostics.json") diag;
              WriteJson (summary_path pre) payload])%list
    /\ trace w' = (trace w1 ++ tail)%list
    /\ forallb is_print tail = true
    /\ get "run_status" payload = JStr (run_status l1)
    /\ get "error_message" payload
       = JStr (match r with
               | Ok _ => error_message l1
               | Raise exc => exn_message exc
               end)
    /\ get "report_path" payload
       = JStr (if path_exists (run_dir pre ++ "/report.md") w1
               then (run_dir pre ++ "/report.md")%string else "")
    /\ get "output_copy_path" payload = JOptStr (output_copy_path l1)
    /\ get "validation" payload = validation_json (validation_result l1).
Proof.
  intros Hbody. unfold run_analysis, try_except_finally. rewrite Hbody.
  destruct r as [res|exc]; cbv beta iota zeta; rewrite ?assign_run;
    cbv beta iota zeta;
    match goal with
    | |- context [run_analysis_finally ?a ?p (?l, ?w0)] =>
        destruct (run_analysis_finally_full a p l w0)
          as (w' & diag & payload & tail & -> & Hw & Ht & Hp
              & Hs & He & Hr & Hc & Hv)
    end;
    exists w', diag, payload, tail; repeat split; assumption.
Qed.




Lemma run_analysis_raises args pre w exc w1 :
  run_with_retries analysis_input (max_turns_arg args) (retries_arg args)
    (retry_backoff_seconds args) w = (Raise exc, w1) ->
  analysis_failed pre w exc
    (run_analysis validate_report append_quality_warning resolve args pre w).
Proof.
  intros Hrun.
  pose proof (run_with_retries_store analysis_input (max_turns_arg args)
                (retries_arg args) (retry_backoff_seconds args) w) as (Hd & _).
  rewrite Hrun in Hd. cbn [snd] in Hd.
  destruct (run_analysis_unfold _ _ _ _ _ _
              (run_analysis_body_raises args pre _ w exc w1 Hrun))
    as (w' & diag & payload & tail & Heq & Hw & _ & _ & Hs & Hm & Hr & Hc & Hv).
  unfold analysis_failed. rewrite Heq. cbn [fst snd]. clear Heq.
  cbn [run_status error_message output_copy_path validation_result]
    in Hs, Hc, Hv.
  rewrite Hd in Hw.
  destruct (written_after w w' [] diag payload pre Hw texts_only_nil)
    as (all & Hall & Htw & Hsum & _).
  exists all, payload. split; [reflexivity|]. split; [exact Hall|].
  split; [exact Htw|]. split; [exact Hsum|]. split; [exact Hs|].
  split; [exact Hm|]. split.
  - rewrite Hr. unfold path_exists. now rewrite Hd.
  - split; [exact Hc|]. now rewrite Hv.
Qed.


End AnalysisOutcome.

(** ** The outcome of [run_code_agent] *)

Lemma back_off_trace exc backoff_seconds attempt w :
  exists acts,
    trace (snd (back_off exc backoff_seconds attempt w)) = (trace w ++ acts)%list
    /\ forallb is_driver_action acts = true.
Proof.
  unfold back_off, sleep, bind, emit, modify, raise.
  destruct (Qle_bool 0 (backoff_delay backoff_seconds attempt)); cbn.
  - eexists. rewrite <- app_assoc. split; reflexivity.
  - eexists. split; reflexivity.
Qed.

Lemma retry_loop_trace input_text max_turns retries backoff_seconds :
  forall n attempt w,
    Z.to_nat (retries - attempt) = n ->
    exists acts,
      trace (snd (retry_loop input_text max_turns retries backoff_seconds
                    attempt w))
      = (trace w ++ acts)%list
      /\ forallb is_driver_action acts = true.
Proof.
  intros n. induction n as [n IH] using lt_wf_ind. intros attempt w Hn.
  rewrite retry_loop_step, Runner_run_eq.
  destruct (runner_run w (agent_runs w)) as [out|exc];
    [eexists; split; reflexivity|].
  destruct (is_transient exc); [|eexists; split; reflexivity].
  destruct (attempt + 1 >? retries) eqn:Hgt; [eexists; split; reflexivity|].
  assert (Hle : attempt + 1 <= retries)
    by (rewrite Z.gtb_ltb in Hgt; apply Z.ltb_ge in Hgt; lia).
  match goal with
  | |- context [back_off ?e ?b ?a ?w1] =>
      destruct (back_off_trace e b a w1) as (a1 & Ht1 & Hd1);
      destruct (back_off e b a w1) as [[[]|exc'] w2]
  end; cbn [snd] in Ht1; cbn [trace with_trace] in Ht1.
  - destruct (IH (Z.to_nat (retries - (attempt + 1))) ltac:(lia)
                 (attempt + 1) w2 eq_refl) as (a2 & Ht2 & Hd2).
    exists ([AgentRun input_text max_turns] ++ a1 ++ a2)%list.
    rewrite Ht2, Ht1, <- !app_assoc. split; [reflexivity|].
    cbn [app forallb is_driver_action andb]. now rewrite forallb_app, Hd1, Hd2.
  - exists ([AgentRun input_text max_turns] ++ a1)%list.
    cbn [snd]. rewrite Ht1, <- !app_assoc. split; [reflexivity|].
    cbn [app forallb is_driver_action andb]. exact Hd1.
Qed.

Lemma run_with_retries_trace input_text max_turns retries backoff_seconds w :
  exists acts,
    trace (snd (run_with_retries input_text max_turns retries backoff_seconds w))
    = (trace w ++ acts)%list
    /\ forallb is_driver_action acts = true.
Proof. unfold run_with_retries. now eapply retry_loop_trace. Qed.

Lemma driver_in_session acts :
  forallb is_driver_action acts = true ->
  forallb (fun a => is_driver_action a || is_print a) acts = true.
Proof.
  intros H. apply forallb_forall. intros a Ha.
  rewrite forallb_forall in H. now rewrite (H a Ha).
Qed.

Lemma build_servers_run {L} (l : L) w :
  lift build_local_mcp_servers (l, w)
  = if mcp_installed w then (Ok ["filesystem"; "git"], (l, w))
    else (Raise (FileNotFoundError "MCP servers are not installed."), (l, w)).
Proof.
  unfold lift, build_local_mcp_servers, bind, gets. cbn [fst snd].
  now destruct (mcp_installed w).
Qed.

Section CodeOutcome.

Variable resolve : string -> string.

(** The end of the [try] suite: the copy is saved, or the saving fails. *)
Lemma save_and_return_run args pre l w :
  save_and_return resolve args pre (l, w)
  = if PyStr.truthy (output_arg args) then
      let out := resolve (output_arg args) in
      let l' := {| final_output := final_output l; status := status l;
                   code_error_message := code_error_message l;
                   output_path := Some out;
                   mcp_server_names := mcp_server_names l |} in
      match write_error w out with
      | Some msg => (Raise (OSError msg), (l', w))
      | None =>
          (Ok {| code_run_dir := run_dir pre; code_repo_path := repo_path pre;
                 code_final_output := final_output l;
                 code_output_path := Some out |},
           (l', after w [WriteText out (final_output l)]
                  [Printed ("Saved output to " ++ out)]))
      end
    else
      (Ok {| code_run_dir := run_dir pre; code_repo_path := repo_path pre;
             code_final_output := final_output l;
             code_output_path := output_path l |},
       (l, w)).
Proof.
  unfold save_and_return. destruct (PyStr.truthy (output_arg args)).
  - go. go. rewrite ?bind_assoc. unfold bind at 1.
    rewrite lift_save_output_run.
    destruct (write_error w (resolve (output_arg args))); [reflexivity|].
    cbv beta iota zeta. repeat go. reflexivity.
  - repeat go. reflexivity.
Qed.

(** The MCP branch of the [try] suite: what it returns, writes and does. *)
Lemma run_with_mcp_outcome args pre l w :
  exists r l1 w1 writes acts,
    run_with_mcp resolve args pre (l, w) = (r, (l1, w1))
    /\ disk w1 = (disk w ++ writes)%list
    /\ texts_only writes
    /\ trace w1 = (trace w ++ acts)%list
    /\ code_error_message l1 = code_error_message l
    /\ match r with
       | Ok _ => status l1 = "completed"
       | Raise exc =>
           status l1 = status l
           \/ (status l1 = "completed" /\ failed_writing w exc)
       end
    /\ if mcp_installed w then
         exists session,
           acts = (ConnectServers (active_servers_of w)
                   :: session ++ [CloseServers])%list
           /\ forallb (fun a => is_driver_action a || is_print a) session = true
           /\ (active_servers_of w = [] ->
               session = []
               /\ r = Raise (RuntimeError "No MCP servers connected successfully."))
       else
         acts = [] /\ exists msg, r = Raise (FileNotFoundError msg).
Proof.
  unfold run_with_mcp. unfold bind at 1. rewrite build_servers_run.
  destruct (mcp_installed w).
  - cbv beta iota. unfold with_mcp_manager. go.
    fold (active_servers_of w). go. unfold try_except_finally.
    destruct (active_servers_of w) as [|s0 active] eqn:Hact.
    + rewrite raise_run. cbv beta iota zeta. rewrite ret_run. cbv beta iota.
      rewrite lift_emit_after, after_after. cbn [app].
      do 3 eexists. exists [], [ConnectServers []; CloseServers].
      split; [reflexivity|]. rewrite disk_after, trace_after.
      split; [reflexivity|]. split; [apply texts_only_nil|].
      split; [reflexivity|]. split; [reflexivity|]. split; [now left|].
      exists []. repeat split.
    + go. unfold bind at 1. unfold lift at 1. cbn [fst snd].
      match goal with
      | |- context [run_with_retries ?i ?m ?r ?b ?w0] =>
          destruct (run_with_retries_trace i m r b w0) as (da & Hda & Hdr);
          pose proof (run_with_retries_store i m r b w0)
            as (Hd & _ & _ & _ & _ & He);
          destruct (run_with_retries i m r b w0) as [[out|exc] w1]
      end; cbn [snd] in Hda, Hd, He; rewrite trace_after in Hda;
        rewrite disk_after, app_nil_r in Hd; rewrite write_error_after in He.
      * cbv beta iota zeta. go. rewrite save_and_return_run.
        destruct (PyStr.truthy (output_arg args)) eqn:Ho;
          [cbv zeta; rewrite He;
           destruct (write_error w (resolve (output_arg args)))
             as [msg|] eqn:Hmsg|];
          cbv beta iota zeta; rewrite ?ret_run; cbv beta iota zeta;
          rewrite lift_emit_after, ?after_after; cbn [app].
        -- do 3 eexists. exists [], (ConnectServers (s0 :: active) :: da ++ [CloseServers])%list.
           split; [reflexivity|]. rewrite disk_after, trace_after, Hd, Hda.
           rewrite <- !app_assoc. cbn [app].
           split; [reflexivity|]. split; [apply texts_only_nil|].
           split; [reflexivity|]. split; [reflexivity|].
           split; [right; split; [reflexivity|now exists (resolve (output_arg args)), msg]|].
           exists da. split; [reflexivity|]. split; [|discriminate].
           now apply driver_in_session.
        -- do 3 eexists.
           exists [WriteText (resolve (output_arg args)) out],
             (ConnectServers (s0 :: active) :: (da ++ [Printed ("Saved output to "
                                    ++ resolve (output_arg args))])
                ++ [CloseServers])%list.
           split; [reflexivity|]. rewrite disk_after, trace_after, Hd, Hda.
           rewrite <- !app_assoc. cbn [app].
           split; [reflexivity|].
           split; [apply texts_only_cons, texts_only_nil|].
           split; [reflexivity|]. split; [reflexivity|].
           split; [reflexivity|].
           exists (da ++ [Printed ("Saved output to "
                                   ++ resolve (output_arg args))])%list.
           rewrite <- app_assoc. split; [reflexivity|]. split; [|discriminate].
           rewrite forallb_app, (driver_in_session _ Hdr). reflexivity.
        -- do 3 eexists. exists [], (ConnectServers (s0 :: active) :: da ++ [CloseServers])%list.
           split; [reflexivity|]. rewrite disk_after, trace_after, Hd, Hda.
           rewrite <- !app_assoc. cbn [app].
           split; [reflexivity|]. split; [apply texts_only_nil|].
           split; [reflexivity|]. split; [reflexivity|].
           split; [reflexivity|].
           exists da. split; [reflexivity|]. split; [|discriminate].
           now apply driver_in_session.
      * cbv beta iota zeta. rewrite ret_run. cbv beta iota.
        rewrite lift_emit_after. cbv beta iota.
        do 3 eexists. exists [], (ConnectServers (s0 :: active) :: da ++ [CloseServers])%list.
        split; [reflexivity|]. rewrite disk_after, trace_after, Hd, Hda.
        rewrite <- !app_assoc. cbn [app].
        split; [reflexivity|]. split; [apply texts_only_nil|].
        split; [reflexivity|]. split; [reflexivity|]. split; [now left|].
        exists da. split; [reflexivity|]. split; [|discriminate].
        now apply driver_in_session.
  - cbv beta iota. do 3 eexists. exists [], [].
    split; [reflexivity|]. rewrite !app_nil_r.
    split; [reflexivity|]. split; [apply texts_only_nil|].
    split; [reflexivity|]. split; [reflexivity|]. split; [now left|].
    split; [reflexivity|]. eexists. reflexivity.
Qed.

End CodeOutcome.

Section CodexOutcome.

Variable resolve : string -> string.





End CodexOutcome.

Section CodeRun.

Variable resolve : string -> string.




(** [run_code_agent] once the outcome of its [try] suite is known. *)
Lemma run_code_agent_unfold args pre w r l1 w1 :
  run_code_agent_body resolve args pre
    ({| final_output := ""; status := "failed"; code_error_message := "";
        output_path := None; mcp_server_names := [] |}, w)
  = (r, (l1, w1)) ->
  exists w' diag payload tail,
    run_code_agent resolve args pre w = (r, w')
    /\ disk w'
       = (disk w1
          ++ [WriteJson (run_dir pre ++ "/command-diagnostics.json") diag;
              WriteJson (summary_path pre) payload])%list
    /\ trace w' = (trace w1 ++ tail)%list
    /\ forallb is_print tail = true
    /\ get "run_status" payload = JStr (status l1)
    /\ get "error_message" payload
       = JStr (match r with
               | Ok _ => code_error_message l1
               | Raise exc => exn_message exc
               end).
Proof.
  intros Hbody. unfold run_code_agent, try_except_finally. rewrite Hbody.
  destruct r as [res|exc]; cbv beta iota zeta; rewrite ?assign_run;
    cbv beta iota zeta;
    match goal with
    | |- context [run_code_agent_finally ?a ?p (?l, ?w0)] =>
        destruct (run_code_agent_finally_full a p l w0)
          as (w' & diag & payload & tail & -> & Hw & Ht & Hp & Hs & He)
    end;
    exists w', diag, payload, tail; repeat split; assumption.
Qed.



End CodeRun.

(** ** C2: the run summary *)



(** The three runs of the claim, evaluated. *)

Example summary_after_success :
  let run := run_analysis accepts_all no_warning (fun p => p)
               sample_args sample_prepared calm in
  (exists a, fst run = Ok a)
  /\ status_of_summaries sample_prepared (snd run) = [JStr "completed"].
Proof. vm_compute. split; [eexists|]; reflexivity. Qed.

Example summary_after_non_retryable_error :
  let run := run_analysis accepts_all no_warning (fun p => p)
               sample_args sample_prepared locked_out in
  fst run = Raise (AgentError "401 Unauthorized")
  /\ sleeps (trace (snd run)) = []
  /\ status_of_summaries sample_prepared (snd run) = [JStr "failed"].
Proof. vm_compute. repeat split. Qed.

Example summary_after_exhausted_retries :
  let run := run_code_agent (fun p => p)
               sample_args sample_prepared throttled in
  fst run = Raise (RateLimitError "429 Too Many Requests")
  /\ sleeps (trace (snd run)) = [2; 4; 8]%Q
  /\ status_of_summaries sample_prepared (snd run) = [JStr "failed"].
Proof. vm_compute. repeat split. Qed.

(** ** The kinds of audit event and the diagnostics summary *)

Lemma events_advance w evs acts :
  events (advance w evs acts) = (events w ++ evs)%list.
Proof. reflexivity. Qed.

Lemma well_kept_advance w evs acts :
  well_kept w -> forallb well_formed_event evs = true ->
  well_kept (advance w evs acts).
Proof.
  unfold well_kept. intros Hw He. rewrite events_advance, forallb_app.
  now rewrite Hw, He.
Qed.

Lemma run_event_well_formed source w cwd c timeout_ms timeout_s p f :
  well_formed_event (run_event source w cwd c timeout_ms timeout_s p f) = true.
Proof. unfold run_event. now destruct (finishes_within p timeout_s). Qed.

Lemma blocked_event_well_formed w source cwd c timeout_ms :
  well_formed_event (blocked_event w source cwd c timeout_ms) = true.
Proof.
  assert (Ht : _truncate_text "" (max_output_chars w) = "").
  { unfold _truncate_text.
    destruct (max_output_chars w <=? 0) eqn:Hb; [reflexivity|].
    apply Z.leb_gt in Hb. change (PyStr.len "") with 0.
    destruct (0 <=? max_output_chars w) eqn:Hl; [reflexivity|].
    apply Z.leb_gt in Hl. lia. }
  unfold blocked_event, well_formed_event, command_event. cbn -[_truncate_text].
  now rewrite Ht.
Qed.

Section LoopInvariant.

Context {A : Type}.
Variable loop : list string -> A -> M world A.
Variable cwd : string.
Variable timeout_s : Q.
Variable event : world -> string -> running -> json.

Hypothesis loop_nil : forall acc w, loop [] acc w = (Ok acc, w).
Hypothesis loop_fail : forall c rest acc w msg,
  host w (_shell_invocation w c) = SpawnFails msg ->
  loop (c :: rest) acc w
  = (Raise (OSError msg),
     advance w [] [Spawn (_shell_invocation w c) cwd false]).
Hypothesis loop_timeout : forall c rest acc w p,
  host w (_shell_invocation w c) = Starts p ->
  finishes_within p timeout_s = false ->
  exists acc',
    loop (c :: rest) acc w
    = (Ok acc',
       advance w [event w c p]
         [Spawn (_shell_invocation w c) cwd true;
          Kill (_shell_invocation w c); Drain (_shell_invocation w c)]).
Hypothesis loop_done : forall c rest acc w p,
  host w (_shell_invocation w c) = Starts p ->
  finishes_within p timeout_s = true ->
  exists acc',
    loop (c :: rest) acc w
    = loop rest acc'
        (advance w [event w c p] [Spawn (_shell_invocation w c) cwd true]).
Hypothesis event_well_formed :
  forall w c p, well_formed_event (event w c p) = true.

Lemma exec_loop_well_kept cmds :
  forall acc w, well_kept w -> well_kept (snd (loop cmds acc w)).
Proof.
  induction cmds as [|c rest IH]; intros acc w Hw.
  - now rewrite loop_nil.
  - destruct (host w (_shell_invocation w c)) as [msg|p] eqn:Hh.
    + rewrite (loop_fail _ _ _ _ _ Hh). now apply well_kept_advance.
    + destruct (finishes_within p timeout_s) eqn:Hf.
      * destruct (loop_done c rest acc w p Hh Hf) as [acc' ->].
        apply IH, well_kept_advance; [exact Hw|].
        cbn [forallb]. now rewrite event_well_formed.
      * destruct (loop_timeout c rest acc w p Hh Hf) as [acc' ->].
        apply well_kept_advance; [exact Hw|].
        cbn [forallb]. now rewrite event_well_formed.
Qed.

End LoopInvariant.

Lemma code_exec_loop_well_kept cwd timeout_ms cmds parts w :
  well_kept w -> well_kept (snd (code_exec_loop cwd timeout_ms cmds parts w)).
Proof.
  apply (exec_loop_well_kept (code_exec_loop cwd timeout_ms) cwd
           (max1 (seconds_of_ms timeout_ms))
           (fun w c p => code_event w cwd c timeout_ms p)).
  - reflexivity.
  - intros. now apply code_exec_step_fail.
  - intros. eexists. now apply code_exec_step_timeout.
  - intros. eexists. now apply code_exec_step_done.
  - intros. apply run_event_well_formed.
Qed.

Lemma chat_exec_loop_well_kept cwd timeout_ms timeout_s cmds parts w :
  well_kept w ->
  well_kept (snd (chat_exec_loop cwd timeout_ms timeout_s cmds parts w)).
Proof.
  apply (exec_loop_well_kept (chat_exec_loop cwd timeout_ms timeout_s) cwd
           timeout_s
           (fun w c p => chat_event w cwd c timeout_ms timeout_s p)).
  - reflexivity.
  - intros. now apply chat_exec_step_fail.
  - intros. eexists. now apply chat_exec_step_timeout.
  - intros. eexists. now apply chat_exec_step_done.
  - intros. apply run_event_well_formed.
Qed.

Lemma executor_loop_well_kept cwd dflt act cmds outs w :
  well_kept w -> well_kept (snd (executor_loop cwd dflt act cmds outs w)).
Proof.
  apply (exec_loop_well_kept (executor_loop cwd dflt act) cwd
           (executor_timeout act dflt)
           (fun w c p => executor_event w cwd c act dflt p)).
  - reflexivity.
  - intros. now apply executor_step_fail.
  - intros. eexists. now apply executor_step_timeout.
  - intros. eexists. now apply executor_step_done.
  - intros. apply run_event_well_formed.
Qed.

Lemma require_approval_well_kept cmds w :
  well_kept w -> well_kept (snd (require_approval cmds w)).
Proof.
  intros Hw.
  destruct (require_approval_run cmds w) as (r & w0 & acts & Hg & ->).
  apply gate_run_world in Hg. destruct Hg as [He _].
  unfold well_kept in *. cbn. now rewrite app_nil_r, He.
Qed.

Section ToolInvariant.

Variable pattern : Re.regex.
Variable source : string.
Variable exec : list string -> M world (list string).
Variable cwd : string.
Variable timeout_ms : Z.

Hypothesis exec_well_kept :
  forall cmds w, well_kept w -> well_kept (snd (exec cmds w)).

Lemma shell_tool_well_kept cmds w :
  well_kept w ->
  well_kept (snd (shell_tool pattern source exec cwd timeout_ms cmds w)).
Proof.
  intros Hw. destruct cmds as [|c rest]; [exact Hw|].
  unfold shell_tool. cbv iota. remember (c :: rest) as cmds eqn:Hc. clear Hc.
  unfold bind at 1. rewrite deny_loop_run.
  destruct (find (Re.search pattern) cmds) as [c0|].
  - apply well_kept_advance; [exact Hw|].
    cbn [forallb]. now rewrite blocked_event_well_formed.
  - unfold bind at 1.
    pose proof (require_approval_well_kept cmds
                  (advance w [] (checks pattern cmds))
                  (well_kept_advance w [] (checks pattern cmds) Hw eq_refl))
      as Hg.
    destruct (require_approval cmds (advance w [] (checks pattern cmds)))
      as [[[]|e] w1]; [|exact Hg].
    cbn [snd] in Hg. unfold bind.
    pose proof (exec_well_kept cmds w1 Hg) as Hx.
    now destruct (exec cmds w1) as [[parts|e] w2].
Qed.

End ToolInvariant.

(** X1. Each of the three shell entry points keeps the audit log well
    formed: every event is of exactly one of three kinds, blocked (not timed
    out, no exit code, duration 0, empty output, reason
    unsafe_command_pattern), timed out (not blocked, no exit code) or exited
    (not blocked, not timed out, an integer exit code); so the exit code is
    absent exactly for the blocked and the timed-out commands. *)
Theorem audit_log_stays_well_formed :
  forall cwd w,
    well_kept w ->
    (forall command commands timeout_ms,
        well_kept (snd (build_code_shell_function_tool cwd command commands
                          timeout_ms w)))
    /\ (forall command commands timeout_ms,
           well_kept (snd (build_chat_shell_function_tool cwd command commands
                             timeout_ms w)))
    /\ (forall default_timeout_ms act,
           well_kept (snd (ShellExecutor_call cwd default_timeout_ms act w))).
Proof.
  intros cwd w Hw. split; [|split].
  - intros command commands timeout_ms. rewrite code_tool_skeleton.
    apply shell_tool_well_kept; [|exact Hw].
    intros. now apply code_exec_loop_well_kept.
  - intros command commands timeout_ms. rewrite chat_tool_skeleton.
    apply shell_tool_well_kept; [|exact Hw].
    intros. now apply chat_exec_loop_well_kept.
  - intros default_timeout_ms act. unfold ShellExecutor_call.
    unfold bind at 1.
    pose proof (require_approval_well_kept (action_commands act) w Hw) as Hg.
    destruct (require_approval (action_commands act) w) as [[[]|e] w1];
      [|exact Hg].
    cbn [snd] in Hg. unfold bind.
    pose proof (executor_loop_well_kept cwd default_timeout_ms act
                  (action_commands act) [] w1 Hg) as Hx.
    now destruct (executor_loop _ _ _ _ _ w1) as [[outs|e] w2].
Qed.

Lemma audit_log_stays_well_formed_witness :
  well_kept calm
  /\ well_kept (snd (build_code_shell_function_tool "/repo" (Some "mkfs")
                       (Some ["ls"; "sleep 999"]) 2000 calm))
  /\ well_kept (snd (ShellExecutor_call "/repo" 2000
                       {| action_commands := ["false"; "sleep 999"; "ls"];
                          action_timeout_ms := None |} calm)).
Proof.
  split; [reflexivity|]. split.
  - apply (proj1 (audit_log_stays_well_formed "/repo" calm eq_refl)).
  - apply (proj2 (proj2 (audit_log_stays_well_formed "/repo" calm eq_refl))).
Defined.

Lemma count_cons p e l :
  count p (e :: l) = (if p e then 1 else 0) + count p l.
Proof.
  unfold count. cbn [filter]. destruct (p e); cbn [List.length]; lia.
Qed.

Lemma count_nonneg p l : 0 <= count p l.
Proof. unfold count. lia. Qed.

Lemma kinds_partition evs :
  forallb well_formed_event evs = true ->
  Z.of_nat (List.length evs)
  = count (fun e => negb (truthy (get "blocked" e))
                    && negb (truthy (get "timed_out" e))
                    && is_int (get "exit_code" e)
                    && json_nonzero (get "exit_code" e)) evs
    + count (fun e => truthy (get "timed_out" e)) evs
    + count (fun e => truthy (get "blocked" e)) evs
    + count succeeded evs.
Proof.
  induction evs as [|e evs IH]; [reflexivity|].
  cbn [forallb]. intros H. apply andb_true_iff in H. destruct H as [He Hr].
  rewrite !count_cons. specialize (IH Hr).
  cbn [List.length]. rewrite Nat2Z.inj_succ.
  unfold well_formed_event, succeeded in *.
  destruct (get "blocked" e) as [|[]| | | |]; try discriminate;
    destruct (get "timed_out" e) as [|[]| | | |]; try discriminate;
    destruct (get "exit_code" e) as [| |n| | |]; try discriminate;
    cbn [truthy negb andb is_int json_nonzero]; try lia.
  destruct n; cbn [Z.eqb negb]; lia.
Qed.

(** X2. [write_summary] writes one JSON document to
    <run_dir>/command-diagnostics.json, returns that path and changes
    nothing else. On a well-formed log its four counters partition the
    commands: total_commands is the number of events, and it is the sum of
    failed_commands (exited with a non-zero status), timed_out_commands,
    blocked_commands and the commands that exited with status 0. *)
Theorem diagnostics_counters_partition_the_log :
  forall run_dir w,
    well_kept w ->
    exists doc failed timed blocked,
      write_summary run_dir w
      = (Ok (run_dir ++ "/command-diagnostics.json")%string,
         with_disk
           (disk w ++ [WriteJson (run_dir ++ "/command-diagnostics.json") doc])
           w)
      /\ get "total_commands" doc = JInt (Z.of_nat (List.length (events w)))
      /\ get "failed_commands" doc = JInt failed
      /\ get "timed_out_commands" doc = JInt timed
      /\ get "blocked_commands" doc = JInt blocked
      /\ 0 <= failed /\ 0 <= timed /\ 0 <= blocked
      /\ Z.of_nat (List.length (events w))
         = failed + timed + blocked + count succeeded (events w).
Proof.
  intros run_dir w Hw.
  unfold write_summary, bind, gets, write, modify, ret. cbn -[count].
  do 4 eexists. split; [reflexivity|]. cbn -[count].
  repeat split; try apply count_nonneg.
  now apply kinds_partition.
Qed.

Lemma diagnostics_counters_partition_the_log_witness :
  well_kept busy
  /\ exists doc failed timed blocked,
       write_summary "/ws/run" busy
       = (Ok "/ws/run/command-diagnostics.json",
          with_disk
            (disk busy ++ [WriteJson "/ws/run/command-diagnostics.json" doc])
            busy)
       /\ get "total_commands" doc = JInt (Z.of_nat (List.length (events busy)))
       /\ get "failed_commands" doc = JInt failed
       /\ get "timed_out_commands" doc = JInt timed
       /\ get "blocked_commands" doc = JInt blocked
       /\ 0 <= failed /\ 0 <= timed /\ 0 <= blocked
       /\ Z.of_nat (List.length (events busy))
          = failed + timed + blocked + count succeeded (events busy).
Proof.
  split; [reflexivity|].
  exact (diagnostics_counters_partition_the_log "/ws/run" busy eq_refl).
Defined.

(** ** The time the run driver spends waiting *)

Lemma total_scaled (b : Q) (f : nat -> Z) l :
  (total (map (fun k => b * inject_Z (f k)) l)
   == b * inject_Z (fold_right Z.add 0%Z (map f l)))%Q.
Proof.
  induction l as [|k l IH]; cbn [map fold_right total].
  - change (inject_Z 0) with 0%Q. ring.
  - unfold total in IH. rewrite IH, inject_Z_plus. ring.
Qed.

Lemma powers_sum n : forall a,
  0 <= a ->
  fold_right Z.add 0 (map (fun k => 2 ^ (a + Z.of_nat k - 1)) (seq 1 n))
  = 2 ^ a * (2 ^ Z.of_nat n - 1).
Proof.
  induction n as [|n IH]; intros a Ha; cbn [seq map fold_right].
  - change (Z.of_nat 0) with 0. rewrite Z.pow_0_r. lia.
  - rewrite <- seq_shift, map_map.
    rewrite (map_ext (fun k => 2 ^ (a + Z.of_nat (S k) - 1))
                     (fun k => 2 ^ ((a + 1) + Z.of_nat k - 1)))
      by (intros k; f_equal; lia).
    rewrite IH by lia. replace (a + Z.of_nat 1 - 1) with a by lia.
    rewrite Nat2Z.inj_succ, Z.pow_succ_r by lia.
    rewrite Z.pow_add_r by lia. change (2 ^ 1) with 2. lia.
Qed.

Lemma agent_calls_retry_trace input_text max_turns backoff_seconds failures :
  forall attempt,
    agent_calls (retry_trace input_text max_turns backoff_seconds attempt failures)
    = S (List.length failures).
Proof.
  induction failures as [|exc rest IH]; intros attempt; [reflexivity|].
  cbn [retry_trace]. unfold agent_calls in *. cbn [filter List.length].
  now rewrite IH.
Qed.

(** X3. With a non-negative backoff, a call of [run_with_retries] that
    retried k times (k is at most the retries allowed) called the agent
    k + 1 times and slept backoff x (2^k - 1) seconds in all: never more
    than backoff x (2^retries - 1). *)
Theorem run_with_retries_total_wait :
  forall input_text max_turns retries backoff_seconds w,
    (0 <= backoff_seconds)%Q ->
    waited_in_all retries backoff_seconds w
      (run_with_retries input_text max_turns retries backoff_seconds w).
Proof.
  intros input_text max_turns retries backoff_seconds w Hb.
  unfold run_with_retries.
  destruct (retry_loop_run input_text max_turns retries backoff_seconds Hb
              _ 0 w eq_refl) as [failures [Ht _ _ _ _ Hbd _]].
  exists (retry_trace input_text max_turns backoff_seconds 0 failures),
    (Z.of_nat (List.length failures)).
  rewrite Z.sub_0_r in Hbd.
  assert (Hsum :
    (total (sleeps (retry_trace input_text max_turns backoff_seconds 0 failures))
     == backoff_seconds * inject_Z (2 ^ Z.of_nat (List.length failures) - 1))%Q).
  { rewrite sleeps_retry_trace. unfold backoff_delay.
    rewrite (total_scaled backoff_seconds
               (fun k => 2 ^ (0 + Z.of_nat k - 1))), powers_sum by lia.
    cbn. now destruct (2 ^ Z.of_nat (List.length failures) - 1). }
  split; [exact Ht|]. split; [lia|]. split.
  - rewrite agent_calls_retry_trace. lia.
  - split; [exact Hsum|]. rewrite Hsum.
    rewrite !(Qmult_comm backoff_seconds).
    apply Qmult_le_compat_r; [|exact Hb].
    rewrite <- Zle_Qle.
    assert (2 ^ Z.of_nat (List.length failures) <= 2 ^ Z.max 0 retries)
      by (apply Z.pow_le_mono_r; lia).
    lia.
Qed.

Lemma run_with_retries_total_wait_witness :
  (0 <= 2)%Q
  /\ waited_in_all 3 2 throttled (run_with_retries "go" 30 3 2 throttled).
Proof.
  split; [discriminate|].
  apply (run_with_retries_total_wait "go" 30 3 2 throttled). discriminate.
Defined.

(** X4. A negative backoff breaks the first retry: when the first call of
    the agent fails with a transient error and a retry is allowed,
    [run_with_retries] announces the retry and then raises the ValueError of
    time.sleep instead of the API error, without calling the agent again. *)
Theorem negative_backoff_raises_value_error :
  forall input_text max_turns retries backoff_seconds w exc,
    (backoff_seconds < 0)%Q ->
    1 <= retries ->
    runner_run w (agent_runs w) = inr exc ->
    is_transient exc = true ->
    let run := run_with_retries input_text max_turns retries backoff_seconds w in
    fst run = Raise (ValueError "sleep length must be non-negative")
    /\ trace (snd run)
       = (trace w ++ [AgentRun input_text max_turns;
                      PrintRetry (class_name exc) (backoff_delay backoff_seconds 1)])%list
    /\ agent_runs (snd run) = S (agent_runs w).
Proof.
  intros input_text max_turns retries backoff_seconds w exc Hb Hr Hrun Htr.
  cbv zeta. unfold run_with_retries.
  rewrite retry_loop_step, Runner_run_eq, Hrun, Htr.
  replace (0 + 1 >? retries) with false
    by (symmetry; rewrite Z.gtb_ltb; apply Z.ltb_ge; lia).
  assert (Hneg : Qle_bool 0 (backoff_delay backoff_seconds (0 + 1)) = false).
  { destruct (Qle_bool 0 (backoff_delay backoff_seconds (0 + 1))) eqn:Hq;
      [|reflexivity].
    apply Qle_bool_iff in Hq. unfold backoff_delay in Hq. cbn in Hq.
    exfalso. apply (Qlt_not_le _ _ Hb).
    setoid_replace backoff_seconds with (backoff_seconds * 1)%Q by ring.
    exact Hq. }
  unfold back_off, sleep, bind, emit, modify, raise. rewrite Hneg.
  cbn. rewrite <- app_assoc. repeat split.
Qed.

Lemma negative_backoff_raises_value_error_witness :
  (-1 < 0)%Q /\ 1 <= 3
  /\ runner_run throttled (agent_runs throttled)
     = inr (RateLimitError "429 Too Many Requests")
  /\ is_transient (RateLimitError "429 Too Many Requests") = true
  /\ fst (run_with_retries "go" 30 3 (-1) throttled)
     = Raise (ValueError "sleep length must be non-negative").
Proof.
  split; [reflexivity|]. split; [lia|]. split; [reflexivity|].
  split; [reflexivity|].
  apply (negative_backoff_raises_value_error "go" 30 3 (-1) throttled
           (RateLimitError "429 Too Many Requests"));
    [reflexivity | lia | reflexivity | reflexivity].
Defined.

(** ** The outcome of [run_analysis] *)



(** X6. When the agent run of [run_analysis] raises, after the retries or
    at once, the same exception leaves [run_analysis]; no report and no
    copy is written; the one run summary has the status failed, the message
    of the exception, no validation result, and as report path the empty
    text, unless a report.md was already in the run directory (the
    directory is named to the second and created with exist_ok): the
    summary then names that older report. *)
Theorem run_analysis_failure_writes_no_report :
  forall validate_report append_quality_warning resolve args pre w exc w1,
    run_with_retries analysis_input (max_turns_arg args) (retries_arg args)
      (retry_backoff_seconds args) w = (Raise exc, w1) ->
    analysis_failed pre w exc
      (run_analysis validate_report append_quality_warning resolve args pre w).
Proof. intros. eapply run_analysis_raises. eassumption. Qed.

Lemma run_analysis_failure_writes_no_report_witness :
  run_with_retries analysis_input (max_turns_arg copy_args)
    (retries_arg copy_args) (retry_backoff_seconds copy_args) locked_out
  = (Raise (AgentError "401 Unauthorized"),
     snd (run_with_retries analysis_input 30 3 2 locked_out))
  /\ analysis_failed sample_prepared locked_out (AgentError "401 Unauthorized")
       (run_analysis Quality.validate_report Quality.append_quality_warning
          (fun p => p) copy_args sample_prepared locked_out).
Proof.
  split; [vm_compute; reflexivity|].
  apply (run_analysis_failure_writes_no_report Quality.validate_report
           Quality.append_quality_warning (fun p => p) copy_args
           sample_prepared locked_out (AgentError "401 Unauthorized")
           (snd (run_with_retries analysis_input 30 3 2 locked_out))).
  vm_compute. reflexivity.
Defined.

(** ** The MCP servers of a coding run *)

(** X7. The MCP servers of [run_code_agent], on any backend but codex_cli.
    When the server scripts are missing the run raises FileNotFoundError
    before anything is connected, and the agent is never called. Otherwise
    the servers that start are connected once and closed once, whether the
    run returns or raises, and the agent is called only in between; when
    no server starts, the agent is not called at all and the run raises
    RuntimeError. After the close only the three lines of the [finally]
    block are printed. *)
Theorem mcp_servers_are_closed_after_use :
  forall resolve args pre w,
    backend pre <> "codex_cli" ->
    mcp_session w (run_code_agent resolve args pre w).
Proof.
  intros resolve args pre w Hb. apply String.eqb_neq in Hb.
  match goal with
  | |- context [run_code_agent _ ?a ?p ?w0] =>
      destruct (run_with_mcp_outcome resolve a p
                  {| final_output := ""; status := "failed";
                     code_error_message := ""; output_path := None;
                     mcp_server_names := [] |} w0)
        as (r & l1 & w1 & writes & acts & Hbody & _ & _ & Ht & _ & _ & Hs)
  end.
  assert (Hbody' : run_code_agent_body resolve args pre
                     ({| final_output := ""; status := "failed";
                         code_error_message := ""; output_path := None;
                         mcp_server_names := [] |}, w)
                   = (r, (l1, w1)))
    by (unfold run_code_agent_body; now rewrite Hb).
  destruct (run_code_agent_unfold _ _ _ _ _ _ _ Hbody')
    as (w' & diag & payload & tail & Heq & _ & Htail & Hp & _).
  unfold mcp_session. rewrite Heq. cbn [fst snd].
  exists (acts ++ tail)%list. rewrite Htail, Ht, <- app_assoc.
  split; [reflexivity|].
  destruct (mcp_installed w).
  - destruct Hs as (session & -> & Hses & Hnone).
    exists session, tail. cbn [app]. rewrite <- app_assoc. cbn [app].
    repeat split; auto; now apply Hnone.
  - destruct Hs as (-> & msg & Hmsg). cbn [app]. split; [exact Hp|].
    exists msg. exact Hmsg.
Qed.

Lemma mcp_servers_are_closed_after_use_witness :
  backend sample_prepared <> "codex_cli"
  /\ mcp_session offline
       (run_code_agent (fun p => p) sample_args sample_prepared offline).
Proof.
  split; [discriminate|].
  apply (mcp_servers_are_closed_after_use (fun p => p) sample_args
           sample_prepared offline).
  discriminate.
Defined.

(** ** The codex_cli backend of a coding run *)



(** ** The commands of a batch *)

Lemma rstrip_idempotent s : PyStr.rstrip (PyStr.rstrip s) = PyStr.rstrip s.
Proof.
  induction s as [|c s IH]; [reflexivity|].
  cbn [PyStr.rstrip]. destruct (PyStr.rstrip s) as [|c' r] eqn:Hr.
  - destruct (PyStr.isspace c) eqn:Hc; [reflexivity|].
    cbn [PyStr.rstrip]. now rewrite Hc.
  - cbn [PyStr.rstrip] in *. now rewrite IH.
Qed.

Lemma lstrip_head s :
  PyStr.lstrip s = ""
  \/ exists c s', PyStr.lstrip s = String c s' /\ PyStr.isspace c = false.
Proof.
  induction s as [|c s IH]; [now left|].
  cbn [PyStr.lstrip]. destruct (PyStr.isspace c) eqn:Hc; [exact IH|].
  right. eauto.
Qed.

Lemma rstrip_head c s :
  PyStr.isspace c = false ->
  exists r, PyStr.rstrip (String c s) = String c r.
Proof.
  intros Hc. cbn [PyStr.rstrip]. destruct (PyStr.rstrip s); [|eauto].
  rewrite Hc. eauto.
Qed.

Lemma strip_idempotent s : PyStr.strip (PyStr.strip s) = PyStr.strip s.
Proof.
  unfold PyStr.strip.
  destruct (lstrip_head s) as [->|(c & s' & -> & Hc)]; [reflexivity|].
  destruct (rstrip_head c s' Hc) as [r Hr]. rewrite Hr.
  cbn [PyStr.lstrip]. rewrite Hc, <- Hr. apply rstrip_idempotent.
Qed.

Lemma strip_truthy s :
  PyStr.truthy s && PyStr.truthy (PyStr.strip s) = PyStr.truthy (PyStr.strip s).
Proof. now destruct s. Qed.

Lemma kept_is_clean c :
  PyStr.truthy (PyStr.strip c) = true -> clean (PyStr.strip c).
Proof.
  intros H. split; [|apply strip_idempotent].
  intros E. now rewrite E in H.
Qed.

Lemma command_list_given command commands :
  command_list command commands
  = map PyStr.strip
      (filter (fun c => PyStr.truthy (PyStr.strip c)) (given command commands)).
Proof.
  unfold command_list, given. rewrite filter_app, map_app. f_equal.
  - destruct command as [c|]; [|reflexivity].
    cbn [filter]. rewrite strip_truthy.
    now destruct (PyStr.truthy (PyStr.strip c)).
  - destruct commands as [cs|]; [|reflexivity]. f_equal.
    apply filter_ext. intros c. apply strip_truthy.
Qed.

Lemma command_list_clean command commands :
  Forall clean (command_list command commands).
Proof.
  rewrite command_list_given. apply Forall_forall. intros c Hin.
  apply in_map_iff in Hin as (x & <- & Hx).
  apply filter_In in Hx as [_ Hx]. now apply kept_is_clean.
Qed.

Lemma commands_in_app t1 t2 :
  commands_in (t1 ++ t2) = (commands_in t1 ++ commands_in t2)%list.
Proof. apply flat_map_app. Qed.

Lemma commands_in_checks pattern cmds c :
  In c (commands_in (checks pattern cmds)) -> In c cmds.
Proof.
  induction cmds as [|c0 rest IH]; cbn [checks]; [tauto|].
  destruct (Re.search pattern c0); cbn; intros [<-|H]; auto; tauto.
Qed.

Lemma commands_in_prompt cmds : commands_in (approval_prompt cmds) = [].
Proof.
  unfold approval_prompt. cbn. induction cmds as [|c rest IH]; [reflexivity|].
  exact IH.
Qed.

Lemma commands_in_gate cmds w r w0 ga c :
  gate_run cmds w r w0 ga -> In c (commands_in ga) -> In c cmds.
Proof.
  inversion 1; subst; rewrite ?commands_in_app, ?commands_in_prompt; cbn;
    rewrite ?app_nil_r; tauto.
Qed.

Lemma commands_in_exec cmds evs xa c :
  exec_shape cmds evs xa -> In c (commands_in xa) -> In c cmds.
Proof.
  intros Hs Hin. apply in_flat_map in Hin as (a & Ha & Hc).
  pose proof (exec_facts _ _ _ _ Hs Ha) as Hp.
  destruct a; try discriminate Hp; try contradiction.
  destruct Hc as [<-|[]].
  apply (exec_shape_spawned _ _ _ _ Hs Ha). reflexivity.
Qed.

Lemma tool_path_commands pattern source cwd timeout_ms cmds w r w0 evs acts c :
  tool_path pattern source cwd timeout_ms cmds w r w0 evs acts ->
  In c (commands_in acts) -> In c cmds.
Proof.
  inversion 1; subst; rewrite ?commands_in_app; intros Hin;
    repeat (apply in_app_or in Hin as [Hin|Hin]);
    eauto using commands_in_checks, commands_in_gate, commands_in_exec.
Qed.

(** X8. The batch of a function shell tool is the [command] argument
    followed by the [commands] argument, each entry stripped of surrounding
    whitespace and the blank ones dropped, in that order. So every command
    in the batch is non-empty and has no whitespace at either end, and a
    call of either tool checks, shows at the approval gate and launches
    only commands of that batch. *)
Theorem function_tools_issue_clean_commands :
  forall command commands,
    command_list command commands
    = map PyStr.strip
        (filter (fun c => PyStr.truthy (PyStr.strip c)) (given command commands))
    /\ Forall clean (command_list command commands)
    /\ forall cwd timeout_ms w,
         (exists evs acts,
             adds w (snd (build_code_shell_function_tool cwd command commands
                            timeout_ms w)) evs acts
             /\ incl (commands_in acts) (command_list command commands))
         /\ (exists evs acts,
                adds w (snd (build_chat_shell_function_tool cwd command commands
                               timeout_ms w)) evs acts
                /\ incl (commands_in acts) (command_list command commands)).
Proof.
  intros command commands.
  split; [apply command_list_given|]. split; [apply command_list_clean|].
  intros cwd timeout_ms w. split.
  - destruct (code_tool_path cwd command commands timeout_ms w)
      as (r & w0 & evs & acts & -> & Hp).
    exists evs, acts. split; [now apply (tool_path_adds _ _ _ _ _ _ _ _ _ _ Hp)|].
    intros c. now apply (tool_path_commands _ _ _ _ _ _ _ _ _ _ c Hp).
  - destruct (chat_tool_path cwd command commands timeout_ms w)
      as (r & w0 & evs & acts & -> & Hp).
    exists evs, acts. split; [now apply (tool_path_adds _ _ _ _ _ _ _ _ _ _ Hp)|].
    intros c. now apply (tool_path_commands _ _ _ _ _ _ _ _ _ _ c Hp).
Qed.

(** ** What the agent sees and what the log keeps *)

Lemma executor_output_logged w cwd c act dflt p :
  logged_as (max_output_chars w) (executor_output c act dflt p)
    (executor_event w cwd c act dflt p).
Proof.
  unfold logged_as, executor_output, executor_event, run_event.
  destruct (finishes_within p (executor_timeout act dflt)); now repeat split.
Qed.

Lemma executor_output_ok c act dflt p :
  outcome_ok (executor_output c act dflt p).
Proof.
  unfold outcome_ok, executor_output.
  destruct (finishes_within p (executor_timeout act dflt)); cbn; eauto.
Qed.

Lemma removelast_snoc {A} (l : list A) x : removelast (l ++ [x]) = l.
Proof. apply removelast_last. Qed.

Lemma executor_loop_outputs cwd dflt act cmds :
  forall outs w,
  exists r evs acts,
    executor_loop cwd dflt act cmds outs w = (r, advance w evs acts)
    /\ forall outs', r = Ok outs' ->
       exists new,
         outs' = (outs ++ new)%list
         /\ Forall2 (logged_as (max_output_chars w)) new evs
         /\ Forall outcome_ok new
         /\ Forall (fun o => outcome_type (out_outcome o) = "exit")
              (removelast new).
Proof.
  induction cmds as [|c rest IH]; intros outs w.
  - exists (Ok outs), [], []. cbn [executor_loop]. unfold ret.
    rewrite advance_nil. split; [reflexivity|].
    intros outs' [= <-]. exists []. rewrite app_nil_r.
    repeat split; constructor.
  - destruct (host w (_shell_invocation w c)) as [msg|p] eqn:Hh.
    + rewrite (executor_step_fail cwd dflt act c rest outs w msg Hh).
      do 3 eexists. split; [reflexivity|]. discriminate.
    + destruct (finishes_within p (executor_timeout act dflt)) eqn:Hf.
      * rewrite (executor_step_done cwd dflt act c rest outs w p Hh Hf).
        destruct (IH (outs ++ [executor_output c act dflt p])%list
                    (advance w [executor_event w cwd c act dflt p]
                       [Spawn (_shell_invocation w c) cwd true]))
          as (r & evs & acts & -> & Hr).
        rewrite advance_advance. do 3 eexists. split; [reflexivity|].
        intros outs' Hok. destruct (Hr outs' Hok) as (new & -> & H2 & Hk & Hx).
        exists (executor_output c act dflt p :: new).
        rewrite <- app_assoc. split; [reflexivity|]. split.
        { constructor; [apply executor_output_logged|exact H2]. }
        split; [constructor; [apply executor_output_ok|exact Hk]|].
        destruct new as [|o new']; [constructor|].
        cbn [removelast] in *. constructor; [|exact Hx].
        unfold executor_output. now rewrite Hf.
      * rewrite (executor_step_timeout cwd dflt act c rest outs w p Hh Hf).
        do 3 eexists. split; [reflexivity|].
        intros outs' [= <-]. exists [executor_output c act dflt p].
        split; [reflexivity|]. split.
        { constructor; [apply executor_output_logged|constructor]. }
        split; [constructor; [apply executor_output_ok|constructor]|].
        constructor.
Qed.

Lemma ShellExecutor_call_outputs cwd dflt act w :
  exists r w0 evs acts,
    ShellExecutor_call cwd dflt act w = (r, advance w0 evs acts)
    /\ events w0 = events w
    /\ forall res, r = Ok res ->
       working_directory res = cwd
       /\ Forall2 (logged_as (max_output_chars w)) (output res) evs
       /\ Forall outcome_ok (output res)
       /\ Forall (fun o => outcome_type (out_outcome o) = "exit")
            (removelast (output res)).
Proof.
  unfold ShellExecutor_call. unfold bind at 1.
  destruct (require_approval_run (action_commands act) w)
    as (rg & w0 & ga & Hg & ->).
  assert (Hb : max_output_chars (advance w0 [] ga) = max_output_chars w)
    by (inversion Hg; reflexivity).
  apply gate_run_world in Hg. destruct Hg as [Hev _].
  destruct rg as [[]|e].
  - unfold bind.
    destruct (executor_loop_outputs cwd dflt act (action_commands act) []
                (advance w0 [] ga)) as (r & evs & acts & -> & Hr).
    rewrite advance_advance. cbn [app].
    destruct r as [outs|e].
    + do 4 eexists. split; [reflexivity|]. split; [exact Hev|].
      intros res [= <-]. cbn [working_directory output].
      split; [reflexivity|].
      destruct (Hr outs eq_refl) as (new & -> & H2 & Hk & Hx).
      cbn [app]. rewrite <- Hb. auto.
    + do 4 eexists. split; [reflexivity|]. split; [exact Hev|]. discriminate.
  - exists (Raise e), w0, [], ga. split; [reflexivity|].
    split; [exact Hev|]. discriminate.
Qed.

(** X9. When [ShellExecutor.__call__] returns, its reply holds one output
    per event it logged, in the same order; each event records the command
    and the exit code of its output and the same stdout and stderr cut to
    the logger's budget (the reply itself is not cut); an output is an exit
    with a status or a timeout without one, and only the last output of a
    reply can be a timeout. The working directory of the reply is the
    executor's. *)
Theorem executor_reply_matches_the_log :
  forall cwd default_timeout_ms act w res w',
    ShellExecutor_call cwd default_timeout_ms act w = (Ok res, w') ->
    reply_matches_log cwd w res w'.
Proof.
  intros cwd dflt act w res w' Hrun. unfold reply_matches_log.
  destruct (ShellExecutor_call_outputs cwd dflt act w)
    as (r & w0 & evs & acts & Heq & Hev & Hr).
  rewrite Heq in Hrun. injection Hrun as -> <-.
  destruct (Hr res eq_refl) as (Hwd & H2 & Hk & Hx).
  split; [exact Hwd|]. exists evs.
  rewrite events_advance, Hev. auto.
Qed.

Lemma executor_reply_matches_the_log_witness :
  exists res w',
    ShellExecutor_call "/repo" 120000 ls_request calm = (Ok res, w')
    /\ reply_matches_log "/repo" calm res w'.
Proof.
  do 2 eexists. split; [vm_compute; reflexivity|].
  apply (executor_reply_matches_the_log "/repo" 120000 ls_request calm).
  vm_compute. reflexivity.
Defined.

(** ** The deny-list of the chat tool *)

Lemma search_from_bol r : forall s c,
  Re.search_from (Re.Seq Re.Bol r) (Some c) s = false.
Proof.
  induction s as [|c' s IH]; intros c; cbn; [reflexivity|]. apply IH.
Qed.

Lemma search_bol r s :
  Re.search (Re.Seq Re.Bol r) s = Re.matches r None s (fun _ _ => true).
Proof.
  unfold Re.search. destruct s as [|c s]; cbn [Re.search_from Re.matches].
  - now rewrite orb_false_r.
  - now rewrite search_from_bol, orb_false_r.
Qed.

(** Leading whitespace is skipped as [lstrip] does, when what follows
    cannot start with whitespace and does not look behind. *)
Lemma spaces0_lstrip (K : option ascii -> string -> bool) :
  (forall p c s, PyStr.isspace c = true -> K p (String c s) = false) ->
  (forall p q s, K p s = K q s) ->
  forall prev s, Re.spaces0 prev s K = K None (PyStr.lstrip s).
Proof.
  intros Hblank Hprev prev s. revert prev.
  induction s as [|c s IH]; intros prev; cbn [Re.spaces0 PyStr.lstrip].
  - rewrite orb_false_r. apply Hprev.
  - destruct (PyStr.isspace c) eqn:Hc.
    + rewrite (Hblank _ _ _ Hc). cbn. apply IH.
    + cbn. rewrite orb_false_r. apply Hprev.
Qed.

Lemma prefix_blank c s k kw :
  PyStr.isspace c = true -> PyStr.isspace k = false ->
  PyStr.is_prefix (String k kw) (String c s) = false.
Proof.
  intros Hc Hk. unfold PyStr.is_prefix. cbn.
  destruct (Ascii.ascii_dec k c) as [->|Hn]; [congruence|reflexivity].
Qed.

Lemma word_boundary_after l next :
  Re.is_word_opt l = true ->
  xorb (Re.is_word_opt l) (Re.is_word_opt next) && true
  = negb (Re.is_word_opt next).
Proof. intros ->. now destruct (Re.is_word_opt next). Qed.

Lemma git_then sub k t :
  PyStr.isspace k = false ->
  Re.is_word_opt (PyStr.last_char None (String k sub)) = true ->
  PyStr.is_prefix "git" t
  && match PyStr.drop (String.length "git") t with
     | EmptyString => false
     | String c s' =>
         PyStr.isspace c
         && Re.spaces0 (Some c) s'
              (fun _ s0 =>
                 PyStr.is_prefix (String k sub) s0
                 && (xorb (Re.is_word_opt (PyStr.last_char None (String k sub)))
                          (Re.is_word_opt
                             (Re.next_char
                                (PyStr.drop (String.length (String k sub)) s0)))
                     && true))
     end
  = starts_with_git (String k sub) t.
Proof.
  intros Hk Hl. unfold starts_with_git. rewrite <- andb_assoc. f_equal.
  change (String.length "git") with 3%nat.
  destruct (PyStr.drop 3 t) as [|c s']; [reflexivity|].
  cbn [starts_blank PyStr.lstrip]. destruct (PyStr.isspace c) eqn:Hc;
    [|reflexivity].
  cbn [andb]. rewrite spaces0_lstrip.
  - unfold starts_with_word, word_ends.
    now rewrite word_boundary_after by exact Hl.
  - intros p c0 s0 Hc0. now rewrite (prefix_blank c0 s0 k sub Hc0 Hk).
  - reflexivity.
Qed.

(** X10. The deny-list of the chat shell tool looks at the start of the
    command only: [disallowed.search] accepts a command exactly when, after
    leading whitespace, its first word is rm, mv, dd, mkfs, shutdown or
    reboot, or it starts with git, whitespace and the word reset or clean.
    So a command whose first non-blank character is not one of the letters
    r, m, d, s, g passes the filter whatever follows, and the match is case
    sensitive. *)
Theorem disallowed_reads_the_first_word :
  forall command_text,
    Re.search disallowed command_text = first_word_denied command_text
    /\ (is_one_of "rmdsg" (first_char command_text) = false ->
        Re.search disallowed command_text = false).
Proof.
  intros s.
  assert (Heq : Re.search disallowed s = first_word_denied s).
  { unfold disallowed. cbn [Re.seqs]. rewrite search_bol.
    cbn [Re.matches Re.alts Re.seqs PyStr.last_char].
    rewrite spaces0_lstrip.
    - unfold first_word_denied. cbv zeta.
      rewrite <- (git_then "eset" "r" (PyStr.lstrip s)) by reflexivity.
      rewrite <- (git_then "lean" "c" (PyStr.lstrip s)) by reflexivity.
      unfold starts_with_word, word_ends. cbn [existsb PyStr.last_char].
      rewrite !word_boundary_after by reflexivity.
      now rewrite orb_false_r, <- !orb_assoc.
    - intros p c s0 Hc.
      now rewrite !(fun k kw => prefix_blank c s0 k kw Hc) by reflexivity.
    - reflexivity. }
  split; [exact Heq|].
  rewrite Heq. unfold first_word_denied, first_char, is_one_of.
  cbv zeta. unfold starts_with_git, starts_with_word, PyStr.is_prefix.
  destruct (PyStr.lstrip s) as [|c t]; [reflexivity|].
  cbn [Re.next_char existsb list_ascii_of_string String.prefix].
  intros H. repeat (apply orb_false_elim in H as [? H]).
  repeat match goal with
         | H : Ascii.eqb c ?k = false |- _ =>
             apply Ascii.eqb_neq in H
         end.
  repeat match goal with
         | |- context [Ascii.ascii_dec ?k c] =>
             destruct (Ascii.ascii_dec k c); [congruence|]
         end.
  reflexivity.
Qed.

Lemma disallowed_reads_the_first_word_witness :
  is_one_of "rmdsg" (first_char "/bin/rm -rf /") = false
  /\ Re.search disallowed "/bin/rm -rf /" = false.
Proof.
  split; [reflexivity|].
  apply (proj2 (disallowed_reads_the_first_word "/bin/rm -rf /")).
  reflexivity.
Defined.

(** ** The deny-list of the code tool *)

Lemma last_char_some p a w : PyStr.last_char p (String a w) = PyStr.last_char None (String a w).
Proof. reflexivity. Qed.

Lemma solid_blank r p c s k :
  solid r -> PyStr.isspace c = true -> Re.matches r p (String c s) k = false.
Proof.
  intros (a & w & Ha & [->| [r' ->]]) Hc; cbn [Re.matches];
    now rewrite (prefix_blank c s a w Hc Ha).
Qed.

Lemma solid_prev r p q s k :
  solid r -> Re.matches r p s k = Re.matches r q s k.
Proof. intros (a & w & Ha & [->| [r' ->]]); reflexivity. Qed.

Lemma lit_spaces1 w r p s k :
  solid r ->
  Re.matches (Re.Seq (Re.Lit w) (Re.Seq Re.Spaces1 r)) p s k
  = word_then w (fun t => Re.matches r None t k) s.
Proof.
  intros Hr. cbn [Re.matches]. unfold word_then. rewrite <- andb_assoc. f_equal.
  destruct (PyStr.drop (String.length w) s) as [|c s']; [reflexivity|].
  cbn [starts_blank PyStr.lstrip].
  destruct (PyStr.isspace c) eqn:Hc; [|reflexivity]. cbn [andb].
  apply (spaces0_lstrip (fun p0 s0 => Re.matches r p0 s0 k)).
  - intros p0 c0 s0 Hc0. now apply solid_blank.
  - intros p0 q0 s0. now apply solid_prev.
Qed.

Lemma lit_word w p s :
  Re.is_word_opt (PyStr.last_char p w) = true ->
  Re.matches (Re.Seq (Re.Lit w) Re.WordB) p s (fun _ _ => true)
  = starts_with_word w s.
Proof.
  intros Hw. cbn [Re.matches]. rewrite Hw. unfold starts_with_word, word_ends.
  f_equal.
  now destruct (Re.is_word_opt (Re.next_char (PyStr.drop (String.length w) s))).
Qed.

Lemma lit_only w p s :
  Re.matches (Re.Lit w) p s (fun _ _ => true) = PyStr.is_prefix w s.
Proof. cbn [Re.matches]. apply andb_true_r. Qed.

Lemma word_then_ext w f g s :
  (forall t, f t = g t) -> word_then w f s = word_then w g s.
Proof. intros H. unfold word_then. now rewrite H. Qed.

Ltac solidly :=
  match goal with
  | |- solid (Re.Lit (String ?a ?w)) =>
      exists a, w; split; [reflexivity|left; reflexivity]
  | |- solid (Re.Seq (Re.Lit (String ?a ?w)) ?r) =>
      exists a, w; split; [reflexivity|right; eexists; reflexivity]
  end.

Lemma rm_rf_root_matches p s :
  Re.matches
    (Re.Seq (Re.Lit "rm")
       (Re.Seq Re.Spaces1
          (Re.Seq (Re.Lit "-rf") (Re.Seq Re.Spaces1 (Re.Lit "/")))))
    p s (fun _ _ => true)
  = word_then "rm" (word_then "-rf" (PyStr.is_prefix "/")) s.
Proof.
  rewrite lit_spaces1 by solidly. apply word_then_ext. intros t.
  rewrite lit_spaces1 by solidly. apply word_then_ext. intros u.
  apply lit_only.
Qed.

Lemma dd_if_matches p s :
  Re.matches (Re.Seq (Re.Lit "dd") (Re.Seq Re.Spaces1 (Re.Lit "if=")))
    p s (fun _ _ => true)
  = word_then "dd" (PyStr.is_prefix "if=") s.
Proof.
  rewrite lit_spaces1 by solidly. apply word_then_ext. intros t.
  apply lit_only.
Qed.

Lemma git_matches sub b flag p s :
  PyStr.isspace b = false ->
  PyStr.isspace (match flag with String f _ => f | EmptyString => b end) = false ->
  flag <> "" ->
  Re.is_word_opt (PyStr.last_char None flag) = true ->
  Re.matches
    (Re.Seq (Re.Lit "git")
       (Re.Seq Re.Spaces1
          (Re.Seq (Re.Lit (String b sub))
             (Re.Seq Re.Spaces1 (Re.Seq (Re.Lit flag) Re.WordB)))))
    p s (fun _ _ => true)
  = word_then "git" (word_then (String b sub) (starts_with_word flag)) s.
Proof.
  intros Hb Hf Hne Hw. destruct flag as [|f flag]; [congruence|].
  rewrite lit_spaces1
    by (exists b, sub; split; [exact Hb|right; eexists; reflexivity]).
  apply word_then_ext. intros t.
  rewrite lit_spaces1
    by (exists f, flag; split; [exact Hf|right; eexists; reflexivity]).
  apply word_then_ext. intros u. now apply lit_word.
Qed.

Lemma dangerous_matches p s :
  Re.matches
    (Re.alts
       [ Re.seqs [Re.Lit "rm"; Re.Spaces1; Re.Lit "-rf"; Re.Spaces1; Re.Lit "/"];
         Re.seqs [Re.Lit "mkfs"; Re.WordB];
         Re.seqs [Re.Lit "shutdown"; Re.WordB];
         Re.seqs [Re.Lit "reboot"; Re.WordB];
         Re.seqs [Re.Lit "dd"; Re.Spaces1; Re.Lit "if="];
         Re.seqs [Re.Lit "git"; Re.Spaces1; Re.Lit "reset"; Re.Spaces1;
                  Re.Lit "--hard"; Re.WordB];
         Re.seqs [Re.Lit "git"; Re.Spaces1; Re.Lit "clean"; Re.Spaces1;
                  Re.Lit "-fdx"; Re.WordB] ]) p s (fun _ _ => true)
  = dangerous s.
Proof.
  cbn [Re.alts Re.seqs].
  repeat match goal with
         | |- context [Re.matches (Re.Alt ?a ?b) ?p ?s ?k] =>
             change (Re.matches (Re.Alt a b) p s k)
               with (Re.matches a p s k || Re.matches b p s k)
         end.
  rewrite rm_rf_root_matches, dd_if_matches.
  rewrite !git_matches by (reflexivity || discriminate).
  rewrite !lit_word by reflexivity.
  unfold dangerous. now rewrite !orb_assoc.
Qed.

Lemma matches_unsafe p s :
  Re.matches unsafe p s (fun _ _ => true)
  = (match p with None => dangerous s | Some _ => false end)
    || (starts_blank s && dangerous (PyStr.drop 1 s)).
Proof.
  unfold unsafe.
  change (Re.matches (Re.Seq (Re.Alt Re.Bol Re.Space) ?r) p s ?k)
    with ((match p with None => Re.matches r p s k | Some _ => false end)
          || (match s with
              | String c s' => PyStr.isspace c && Re.matches r (Some c) s' k
              | EmptyString => false
              end)).
  f_equal.
  - destruct p; [reflexivity|apply dangerous_matches].
  - destruct s as [|c s']; [reflexivity|]. cbn [starts_blank PyStr.drop].
    now rewrite dangerous_matches.
Qed.

Lemma search_from_unsafe s : forall p,
  Re.search_from unsafe p s
  = (match p with None => dangerous s | Some _ => false end)
    || dangerous_after_blank s.
Proof.
  induction s as [|c s IH]; intros p; cbn [Re.search_from dangerous_after_blank].
  - rewrite matches_unsafe. cbn [starts_blank andb]. now rewrite !orb_false_r.
  - rewrite matches_unsafe, IH. cbn [starts_blank PyStr.drop orb].
    now rewrite orb_assoc.
Qed.

Lemma blank_not_word c : PyStr.isspace c = true -> PyStr.isword c = false.
Proof.
  destruct c as [[] [] [] [] [] [] [] []]; vm_compute; congruence.
Qed.

Lemma prefix_app w : forall s x,
  PyStr.is_prefix w s = true ->
  PyStr.is_prefix w (s ++ x) = true
  /\ PyStr.drop (String.length w) (s ++ x)
     = (PyStr.drop (String.length w) s ++ x)%string.
Proof.
  unfold PyStr.is_prefix.
  induction w as [|a w IH]; intros s x H;
    [split; [now destruct (s ++ x)%string|reflexivity]|].
  destruct s as [|c s]; [discriminate H|]. cbn in *.
  destruct (Ascii.ascii_dec a c); [|discriminate H]. now apply IH.
Qed.

Lemma lasting_prefix x a w : lasting x (PyStr.is_prefix (String a w)).
Proof. split; [reflexivity|]. intros t H. now apply prefix_app. Qed.

Lemma word_ends_app b x r :
  PyStr.isspace b = true -> word_ends r = true ->
  word_ends (r ++ String b x) = true.
Proof.
  intros Hb. destruct r as [|c r]; [|exact (fun H => H)].
  intros _. unfold word_ends. cbn. now rewrite (blank_not_word b Hb).
Qed.

Lemma lasting_word b x a w :
  PyStr.isspace b = true -> lasting (String b x) (starts_with_word (String a w)).
Proof.
  intros Hb. split; [reflexivity|]. intros t H. unfold starts_with_word in *.
  apply andb_true_iff in H as [Hp He].
  destruct (prefix_app _ _ (String b x) Hp) as [-> ->].
  now rewrite word_ends_app.
Qed.

Lemma lstrip_app d x :
  PyStr.lstrip d <> "" -> PyStr.lstrip (d ++ x) = (PyStr.lstrip d ++ x)%string.
Proof.
  induction d as [|c d IH]; cbn [PyStr.lstrip append]; [congruence|].
  destruct (PyStr.isspace c); [exact IH|reflexivity].
Qed.

Lemma lasting_word_then x a w next :
  lasting x next -> lasting x (word_then (String a w) next).
Proof.
  intros [Hnil Hnext]. split; [reflexivity|]. intros t H.
  unfold word_then in *.
  apply andb_true_iff in H as [H Hn]. apply andb_true_iff in H as [Hp Hb].
  destruct (prefix_app _ _ x Hp) as [-> ->].
  set (d := PyStr.drop (String.length (String a w)) t) in *.
  assert (Hd : PyStr.lstrip d <> "") by (intros E; rewrite E in Hn; congruence).
  rewrite (lstrip_app d x Hd), (Hnext _ Hn).
  destruct d; [discriminate Hb|]. cbn in *. now rewrite Hb.
Qed.

Lemma dangerous_app b x s :
  PyStr.isspace b = true -> dangerous s = true ->
  dangerous (s ++ String b x) = true.
Proof.
  intros Hb. unfold dangerous. rewrite !orb_true_iff.
  intros H.
  repeat match type of H with _ \/ _ => destruct H as [H|H] end.
  - do 6 left.
    apply (lasting_word_then _ _ _ _
             (lasting_word_then _ _ _ _ (lasting_prefix _ _ _))), H.
  - do 5 left. right. now apply (lasting_word _ _ _ _ Hb).
  - do 4 left. right. now apply (lasting_word _ _ _ _ Hb).
  - do 3 left. right. now apply (lasting_word _ _ _ _ Hb).
  - do 2 left. right.
    apply (lasting_word_then _ _ _ _ (lasting_prefix _ _ _)), H.
  - left. right.
    apply (lasting_word_then _ _ _ _
             (lasting_word_then _ _ _ _ (lasting_word _ _ _ _ Hb))), H.
  - right.
    apply (lasting_word_then _ _ _ _
             (lasting_word_then _ _ _ _ (lasting_word _ _ _ _ Hb))), H.
Qed.

Lemma dangerous_after_blank_app b x s :
  PyStr.isspace b = true -> dangerous_after_blank s = true ->
  dangerous_after_blank (s ++ String b x) = true.
Proof.
  intros Hb. induction s as [|c s IH]; [discriminate|].
  cbn [dangerous_after_blank append]. rewrite !orb_true_iff, !andb_true_iff.
  intros [[Hc Hd]|H]; [left|right; now apply IH].
  split; [exact Hc|now apply dangerous_app].
Qed.

Lemma danger_after b a s :
  PyStr.isspace b = true -> danger_in s = true ->
  dangerous_after_blank (a ++ String b s) = true.
Proof.
  intros Hb Hs. induction a as [|c a IH]; cbn [dangerous_after_blank append].
  - unfold danger_in in Hs. rewrite Hb. cbn [andb]. exact Hs.
  - rewrite IH. apply orb_true_r.
Qed.

(** X11. The deny-list of the code shell tool looks everywhere:
    [unsafe.search] accepts a command exactly when one of its seven forms
    (rm -rf /, mkfs, shutdown, reboot, dd if=, git reset --hard,
    git clean -fdx, words separated by any whitespace) starts at the very
    beginning of the text or right after a whitespace character. So a
    refused command stays refused inside a longer command line, whatever
    is put before it and after it, as long as whitespace separates them. *)
Theorem unsafe_finds_danger_after_any_blank :
  forall command_text,
    Re.search unsafe command_text = danger_in command_text
    /\ (Re.search unsafe command_text = true ->
        forall before b1 b2 after,
          PyStr.isspace b1 = true -> PyStr.isspace b2 = true ->
          Re.search unsafe
            (before ++ String b1 (command_text ++ String b2 after))
          = true).
Proof.
  assert (Heq : forall s, Re.search unsafe s = danger_in s).
  { intros s. unfold Re.search. now rewrite search_from_unsafe. }
  intros s. split; [apply Heq|].
  rewrite !Heq. intros Hs before b1 b2 after H1 H2.
  rewrite Heq. unfold danger_in at 1. apply orb_true_iff. right.
  apply danger_after; [exact H1|].
  unfold danger_in in *. apply orb_true_iff in Hs as [Hs|Hs].
  - now rewrite dangerous_app.
  - rewrite (dangerous_after_blank_app _ _ _ H2 Hs). apply orb_true_r.
Qed.

Lemma unsafe_finds_danger_after_any_blank_witness :
  Re.search unsafe "git  reset --hard" = true
  /\ PyStr.isspace " "%char = true
  /\ Re.search unsafe "cd /tmp; git  reset --hard ; ls" = true.
Proof.
  split; [reflexivity|]. split; [reflexivity|].
  apply (proj2 (unsafe_finds_danger_after_any_blank "git  reset --hard")
           eq_refl "cd /tmp;" " "%char " "%char "; ls" eq_refl eq_refl).
Defined.

(** ** Report validation *)

Lemma same_char_dec (a c : ascii) :
  Ascii.eqb a c = if ascii_dec a c then true else false.
Proof.
  destruct (ascii_dec a c) as [->|n]; [apply Ascii.eqb_refl|now apply Ascii.eqb_neq].
Qed.

Lemma story_match prev s :
  Rx.match_length Quality.story_pattern prev s
  = if PyStr.is_prefix "as a " (PyStr.lower s) then Some 5%nat else None.
Proof.
  unfold Rx.match_length, Quality.story_pattern, PyStr.is_prefix.
  destruct s as [|c1 [|c2 [|c3 [|c4 [|c5 s]]]]];
    cbn [Rx.lit Rx.run PyStr.lower prefix]; unfold Quality.same_ignoring_case;
    rewrite ?same_char_dec;
    change (PyStr.lower_char "A") with "a"%char;
    change (PyStr.lower_char "s") with "s"%char;
    change (PyStr.lower_char "a") with "a"%char;
    change (PyStr.lower_char " ") with " "%char;
    repeat match goal with
           | |- context [ascii_dec ?a ?b] => destruct (ascii_dec a b)
           end; try reflexivity.
  replace (prefix "" (PyStr.lower s)) with true by now destruct (PyStr.lower s).
  cbn [String.length]. f_equal. lia.
Qed.

Lemma occurrences_skip c1 c2 c3 c4 c5 s :
  PyStr.is_prefix "as a " (PyStr.lower (String c1 (String c2 (String c3 (String c4 (String c5 s)))))) = true ->
  Quality.occurrences "as a "
    (PyStr.lower (String c1 (String c2 (String c3 (String c4 (String c5 s))))))
  = S (Quality.occurrences "as a " (PyStr.lower s)).
Proof.
  unfold PyStr.is_prefix. cbn [PyStr.lower prefix].
  repeat match goal with
         | |- context [ascii_dec ?a ?b] => destruct (ascii_dec a b); try discriminate
         end.
  intros _. cbn [Quality.occurrences]. unfold PyStr.is_prefix. cbn [prefix].
  repeat match goal with
         | H : _ = PyStr.lower_char _ |- _ => rewrite <- H; clear H
         end.
  replace (prefix "" (PyStr.lower s)) with true by now destruct (PyStr.lower s).
  repeat match goal with
         | |- context [ascii_dec ?a ?b] => destruct (ascii_dec a b); try discriminate
         end.
  all: first [congruence | reflexivity].
Qed.

Lemma story_scan n :
  forall s prev,
    String.length s = n ->
    List.length (Rx.scan Quality.story_pattern 0 prev s)
    = Quality.occurrences "as a " (PyStr.lower s).
Proof.
  induction n as [n IH] using lt_wf_ind. intros s prev Hn.
  destruct s as [|c1 s]; cbn [Rx.scan]; rewrite story_match.
  - reflexivity.
  - destruct (PyStr.is_prefix "as a " (PyStr.lower (String c1 s))) eqn:Hp.
    + destruct s as [|c2 [|c3 [|c4 [|c5 s]]]];
        try (unfold PyStr.is_prefix in Hp; cbn [PyStr.lower prefix] in Hp;
             repeat match type of Hp with
                    | context [ascii_dec ?a ?b] => destruct (ascii_dec a b)
                    end; discriminate Hp).
      rewrite (occurrences_skip _ _ _ _ _ _ Hp).
      cbn [Nat.pred Rx.scan List.length]. f_equal.
      apply (IH (String.length s)); [cbn [String.length] in Hn; lia|reflexivity].
    + cbn [PyStr.lower Quality.occurrences]. cbn [PyStr.lower] in Hp.
      rewrite Hp. cbn [Nat.add].
      apply (IH (String.length s)); [cbn [String.length] in Hn; lia|reflexivity].
Qed.

Lemma lower_app a b : PyStr.lower (a ++ b) = (PyStr.lower a ++ PyStr.lower b)%string.
Proof. induction a as [|c a IH]; cbn; [reflexivity|now rewrite IH]. Qed.

Lemma prefix_nil s : prefix "" s = true.
Proof. now destruct s. Qed.

Lemma prefix_app_r h : forall s x, prefix h s = true -> prefix h (s ++ x) = true.
Proof.
  induction h as [|a h IH]; intros s x H; [apply prefix_nil|].
  destruct s as [|c s]; cbn [prefix] in H; [discriminate|].
  cbn [String.append prefix]. destruct (ascii_dec a c); [now apply IH|discriminate].
Qed.

Lemma occurrences_app_l sub a b :
  (Quality.occurrences sub b <= Quality.occurrences sub (a ++ b))%nat.
Proof.
  induction a as [|c a IH]; cbn [String.append]; [lia|].
  cbn [Quality.occurrences]. lia.
Qed.

Lemma occurrences_app_r sub b : forall a,
  (Quality.occurrences sub a <= Quality.occurrences sub (a ++ b))%nat.
Proof.
  induction a as [|c a IH].
  - cbn [String.append]. destruct b as [|c b]; cbn [Quality.occurrences].
    + lia.
    + unfold PyStr.is_prefix. destruct sub; cbn [prefix]; lia.
  - cbn [String.append Quality.occurrences]. unfold PyStr.is_prefix.
    destruct (prefix sub (String c a)) eqn:Hp.
    + change (String c (a ++ b)) with (String c a ++ b)%string.
      rewrite (prefix_app_r _ _ _ Hp). lia.
    + destruct (prefix sub (String c (a ++ b))); lia.
Qed.

(** X12. The story count of [validate_report] is the number of places of
    the report at which the text "as a " starts when the case of the
    letters is ignored. Places inside other words count as well ("has a ",
    "was a "), and text put before or after a report never lowers its
    count. (Text of code points below 256, as everywhere here.) *)
Theorem story_count_is_every_as_a_ignoring_case :
  forall report min_stories min_evidence,
    story_count (Quality.validate_report report min_stories min_evidence)
    = Z.of_nat (Quality.occurrences "as a " (PyStr.lower report))
    /\ forall before after,
         story_count (Quality.validate_report report min_stories min_evidence)
         <= story_count (Quality.validate_report (before ++ report ++ after)
                           min_stories min_evidence).
Proof.
  intros report ms me.
  assert (Hc : forall r, story_count (Quality.validate_report r ms me)
                         = Z.of_nat (Quality.occurrences "as a " (PyStr.lower r))).
  { intros r. unfold Quality.validate_report. cbn [story_count].
    unfold Rx.findall. now rewrite (story_scan _ r None eq_refl). }
  split; [apply Hc|]. intros before after. rewrite !Hc, !lower_app.
  apply Nat2Z.inj_le.
  etransitivity; [apply occurrences_app_r|apply occurrences_app_l].
Qed.

Lemma contains_refl h : Quality.contains h h = true.
Proof.
  assert (H : forall s, prefix s s = true).
  { induction s as [|c s IH]; [reflexivity|]. cbn [prefix].
    destruct (ascii_dec c c); [exact IH|congruence]. }
  destruct h; cbn [Quality.contains]; unfold PyStr.is_prefix; now rewrite H.
Qed.

Lemma contains_app_l h b : forall a,
  Quality.contains h a = true -> Quality.contains h (a ++ b) = true.
Proof.
  induction a as [|c a IH]; cbn [Quality.contains String.append]; intros H.
  - rewrite orb_false_r in H. unfold PyStr.is_prefix in H.
    destruct h; [|discriminate H].
    destruct b; cbn [Quality.contains]; unfold PyStr.is_prefix; reflexivity.
  - apply orb_true_iff in H as [H|H].
    + unfold PyStr.is_prefix in *.
      change (String c (a ++ b)) with (String c a ++ b)%string.
      now rewrite (prefix_app_r _ _ _ H).
    + rewrite (IH H). apply orb_true_r.
Qed.

Lemma contains_app_r h b : forall a,
  Quality.contains h b = true -> Quality.contains h (a ++ b) = true.
Proof.
  induction a as [|c a IH]; cbn [String.append]; intros H; [exact H|].
  cbn [Quality.contains]. rewrite (IH H). apply orb_true_r.
Qed.

Lemma contains_nil h : Quality.ends_solid h = true -> Quality.contains h "" = false.
Proof. destruct h; [discriminate|reflexivity]. Qed.

Lemma prefix_rstrip : forall h s,
  Quality.ends_solid h = true -> prefix h s = true ->
  prefix h (PyStr.rstrip s) = true.
Proof.
  induction h as [|a h IH]; intros s Hs Hp; [discriminate Hs|].
  destruct s as [|c s]; cbn [prefix] in Hp; [discriminate Hp|].
  destruct (ascii_dec a c) as [<-|]; [|discriminate Hp].
  destruct h as [|a' h].
  - cbn [Quality.ends_solid] in Hs. apply negb_true_iff in Hs.
    cbn [PyStr.rstrip]. destruct (PyStr.rstrip s); rewrite ?Hs; cbn [prefix];
      destruct (ascii_dec a a); congruence.
  - specialize (IH s Hs Hp). cbn [PyStr.rstrip].
    destruct (PyStr.rstrip s) as [|c' r]; [discriminate IH|].
    cbn [prefix] in *. destruct (ascii_dec a a); [exact IH|congruence].
Qed.

Lemma contains_rstrip h : forall s,
  Quality.ends_solid h = true -> Quality.contains h s = true ->
  Quality.contains h (PyStr.rstrip s) = true.
Proof.
  intros s Hs. induction s as [|c s IH]; intros H.
  - now rewrite contains_nil in H.
  - cbn [Quality.contains] in H. apply orb_true_iff in H as [H|H].
    + unfold PyStr.is_prefix in H. apply (prefix_rstrip _ _ Hs) in H.
      destruct (PyStr.rstrip (String c s)); cbn [Quality.contains];
        unfold PyStr.is_prefix; now rewrite H.
    + specialize (IH H). cbn [PyStr.rstrip].
      destruct (PyStr.rstrip s) as [|c' r];
        [now rewrite contains_nil in IH|].
      cbn [Quality.contains] in *. rewrite IH. apply orb_true_r.
Qed.

Lemma contains_join h x : forall l,
  In x l -> Quality.contains h x = true ->
  Quality.contains h (PyStr.join_lines l) = true.
Proof.
  unfold PyStr.join_lines.
  induction l as [|y l IH]; intros Hin Hx; [destruct Hin|].
  cbn [concat]. destruct Hin as [->|Hin].
  - destruct l; [exact Hx|]. now apply contains_app_l.
  - destruct l as [|z l]; [destruct Hin|].
    apply contains_app_r. apply contains_app_r. now apply IH.
Qed.

Lemma required_sections_solid section :
  In section Quality.required_sections -> Quality.ends_solid section = true.
Proof.
  intros H. repeat (destruct H as [<-|H]; [reflexivity|]). destruct H.
Qed.

(** The errors [validate_report] can give for a missing heading. *)
Lemma missing_section_error report ms me section :
  In (Quality.missing_section section)
     (errors (Quality.validate_report report ms me))
  <-> In section Quality.required_sections
      /\ Quality.contains section report = false.
Proof.
  unfold Quality.validate_report. cbn [errors].
  set (base := map Quality.missing_section _).
  assert (Hb : In (Quality.missing_section section) base
               <-> In section Quality.required_sections
                   /\ Quality.contains section report = false).
  { unfold base. rewrite in_map_iff. split.
    - intros (s0 & He & Hin). unfold Quality.missing_section in He.
      apply append_inj in He. subst s0.
      apply filter_In in Hin as [Hin Hc]. now apply negb_true_iff in Hc.
    - intros [Hin Hc]. exists section. split; [reflexivity|].
      apply filter_In. now rewrite Hc. }
  rewrite <- Hb.
  repeat match goal with
         | |- context [if ?b then _ else _] => destruct b
         end;
    rewrite ?in_app_iff; cbn [In]; unfold Quality.missing_section;
    split; intros H; repeat destruct H as [H|H]; auto; try discriminate H;
    try contradiction.
Qed.

(** X13. A report that fails [validate_report] and gets the warning of
    [append_quality_warning] contains every required section heading:
    the headings it has stay, and the ones it lacks are quoted in the
    warning. So a later [validate_report] of the stored report, with any
    minimums, gives no missing-heading error. *)
Theorem quality_warning_hides_missing_sections :
  forall report min_stories min_evidence,
    let v := Quality.validate_report report min_stories min_evidence in
    passed v = false ->
    let warned := Quality.append_quality_warning report v in
    (forall section,
        In section Quality.required_sections ->
        Quality.contains section warned = true)
    /\ forall min_stories' min_evidence' section,
         ~ In (Quality.missing_section section)
              (errors (Quality.validate_report warned min_stories' min_evidence')).
Proof.
  intros report ms me v Hv warned.
  assert (Hall : forall section,
             In section Quality.required_sections ->
             Quality.contains section warned = true).
  { intros section Hin. unfold warned, Quality.append_quality_warning.
    rewrite Hv.
    destruct (Quality.contains section report) eqn:Hc.
    - apply contains_app_l, contains_rstrip;
        [now apply required_sections_solid|exact Hc].
    - apply contains_app_r, contains_app_r, contains_app_l.
      apply (contains_join _ ("- " ++ Quality.missing_section section)).
      + apply in_or_app. right. apply in_map.
        apply missing_section_error. now split.
      + apply contains_app_r. unfold Quality.missing_section.
        apply contains_app_r, contains_refl. }
  split; [exact Hall|].
  intros ms' me' section Hin. apply missing_section_error in Hin as [Hin Hc].
  now rewrite (Hall _ Hin) in Hc.
Qed.

Lemma quality_warning_hides_missing_sections_witness :
  passed (Quality.validate_report Quality.sample_report 3 3) = false
  /\ Quality.contains "## 3."
       (Quality.append_quality_warning Quality.sample_report
          (Quality.validate_report Quality.sample_report 3 3)) = true
  /\ ~ In (Quality.missing_section "## 3.")
          (errors (Quality.validate_report
                     (Quality.append_quality_warning Quality.sample_report
                        (Quality.validate_report Quality.sample_report 3 3))
                     3 3)).
Proof.
  assert (H : passed (Quality.validate_report Quality.sample_report 3 3) = false)
    by reflexivity.
  split; [exact H|].
  destruct (quality_warning_hides_missing_sections Quality.sample_report 3 3 H)
    as [Hall Hnone].
  split; [apply Hall; cbn; tauto|apply Hnone].
Defined.
